(** * MicroSentinel agent core: a shallow embedding and its verified properties

    The development models the user-space pipeline components of the
    MicroSentinel agent (aggregator, mode controller, target filter, skew
    adjuster, token-bucket update, false-sharing detector, time calibrator)
    as pure state-passing functions and proves, or refutes at concrete
    inputs, the properties stated for them.  It then covers the code around
    them: the remote-DRAM analyzer, the anomaly monitor's detectors, the PMU
    rotator, the runtime that wires the components together, the control
    plane's budget handler, the ring sizing of the perf consumer and the two
    text-escaping helpers.

    Conventions.
    - Unsigned machine integers are values of [Z]; every operation that can
      wrap in C++ is written with [wrap64].
    - [double] is IEEE-754 binary64, taken from the standard library's
      executable specification [SpecFloat] at precision 53 and exponent
      bound 1024 (round to nearest, ties to even).
    - Clocks ([steady_clock::now]) are explicit arguments.
    - [std::unordered_map] is a [gmap], [std::unordered_set] a [gset],
      [std::vector] and [std::deque] are lists.  Where the result of a loop
      over an unordered map depends on the order of the traversal (the
      dominant pid of a false-sharing finding), the order is an input.
    - A mutex is not part of a state; where locking decides whether a call
      completes (the PMU rotator), the step returns an option.
    - [size_t] is 64 bits wide; [std::iscntrl] is taken in the C locale. *)

From Stdlib Require Import ZArith Lia List Bool Ascii SpecFloat.
From stdpp Require Import base decidable countable gmap list strings.

Local Open Scope Z_scope.

(** ** Machine integers *)

Definition UINT64_MAX : Z := 18446744073709551615.

Definition wrap64 (z : Z) : Z := z mod 18446744073709551616.

(** ** binary64 arithmetic *)

Module B64.

Definition prec : Z := 53.
Definition emax : Z := 1024.

Definition add : spec_float -> spec_float -> spec_float := SFadd prec emax.
Definition sub : spec_float -> spec_float -> spec_float := SFsub prec emax.
Definition mul : spec_float -> spec_float -> spec_float := SFmul prec emax.
Definition div : spec_float -> spec_float -> spec_float := SFdiv prec emax.

(** [a < b], [a <= b]; false as soon as one side is NaN. *)
Definition ltb : spec_float -> spec_float -> bool := SFltb.
Definition leb : spec_float -> spec_float -> bool := SFleb.

Definition valid (x : spec_float) : bool := valid_binary prec emax x.

(** [static_cast<double>] of a non-negative integer. *)
Definition of_Z (z : Z) : spec_float := binary_normalize prec emax z 0 false.

Definition zero : spec_float := S754_zero false.
Definition one : spec_float := S754_finite false 4503599627370496 (-52).

(** Decimal literals of the source; a literal [p/q] with both integers
    exact is the correctly rounded quotient. *)
Definition lit (p q : Z) : spec_float := div (of_Z p) (of_Z q).

(** [static_cast<uint64_t>] of a double: truncation toward zero; the
    conversion is undefined ([None]) for NaN, infinities and values
    outside [0, 2^64). *)
Definition to_u64 (x : spec_float) : option Z :=
  match x with
  | S754_zero _ => Some 0
  | S754_finite s m e =>
      let v := match e with
               | Zneg k => Z.shiftr (Zpos m) (Zpos k)
               | _ => Z.shiftl (Zpos m) e
               end in
      if v =? 0 then Some 0
      else if s then None
      else if v <=? UINT64_MAX then Some v else None
  | _ => None
  end.

(** Left shift of a mantissa, as performed when aligning exponents. *)
Definition shl (m : positive) (k : Z) : positive :=
  match k with Zpos p => Pos.iter xO m p | _ => m end.

End B64.

(** ** Shared sample layout (ms_common.h, sample.h) *)

Module Common.

Definition MS_FLOW_SKID_NS : Z := 2000.

Definition MS_EVT_L3_MISS : Z := 1.
Definition MS_EVT_BRANCH_MISPRED : Z := 2.
Definition MS_EVT_ICACHE_STALL : Z := 3.
Definition MS_EVT_AVX_DOWNCLOCK : Z := 4.
Definition MS_EVT_STALL_BACKEND : Z := 5.
Definition MS_EVT_XSNP_HITM : Z := 6.
Definition MS_EVT_REMOTE_DRAM : Z := 7.

Record ms_lbr_entry := { from : Z; to : Z }.

Record ms_sample := {
  tsc : Z;
  cpu : Z;
  pid : Z;
  tid : Z;
  pmu_event : Z;
  ip : Z;
  data_addr : Z;
  flow_id : Z;
  gso_segs : Z;
  ingress_ifindex : Z;
  numa_node : Z;
  l4_proto : Z;
  direction : Z;
  lbr_nr : Z;
  pad0 : Z;
  lbr : list ms_lbr_entry
}.

(** [Sample{}]: value-initialised sample. *)
Definition zero_sample : ms_sample :=
  {| tsc := 0; cpu := 0; pid := 0; tid := 0; pmu_event := 0; ip := 0;
     data_addr := 0; flow_id := 0; gso_segs := 0; ingress_ifindex := 0;
     numa_node := 0; l4_proto := 0; direction := 0; lbr_nr := 0; pad0 := 0;
     lbr := [] |}.

End Common.

Abbreviation Sample := Common.ms_sample.
Abbreviation LbrEntry := Common.ms_lbr_entry.
Abbreviation LbrStack := (list Common.ms_lbr_entry).

(** ** Symbolizer interface (symbolizer.h)

    The aggregator and the false-sharing detector only consume the values the
    symbolizer returns; the symbolizer is therefore an interface record. *)

Module Symbolizer.

Record DataObject := {
  mapping : string;
  base : Z;
  offset : Z;
  permissions : string;
  name : string;
  type : string;
  size : Z
}.

(** A default-constructed [DataObject]. *)
Definition empty_DataObject : DataObject :=
  {| mapping := EmptyString; base := 0; offset := 0;
     permissions := EmptyString; name := EmptyString;
     type := EmptyString; size := 0 |}.

Record t := {
  InternFunction : Z -> Z -> Z;
  InternStack : Z -> Z -> LbrStack -> Z;
  InternDataObject : Z -> Z -> Z;
  ResolveData : Z -> Z -> DataObject
}.

End Symbolizer.

(** ** Interference classes (interference.h, interference.cpp) *)

Inductive InterferenceClass :=
| DataPath | ControlPath | ExecutionResource | TopologyInterconnect | UnknownClass.

Definition InterferenceClass_code (c : InterferenceClass) : Z :=
  match c with
  | DataPath => 0
  | ControlPath => 1
  | ExecutionResource => 2
  | TopologyInterconnect => 3
  | UnknownClass => 255
  end.

Definition ClassifyEvent (evt : Z) : InterferenceClass :=
  if evt =? Common.MS_EVT_L3_MISS then DataPath
  else if (evt =? Common.MS_EVT_BRANCH_MISPRED) || (evt =? Common.MS_EVT_ICACHE_STALL)
  then ControlPath
  else if (evt =? Common.MS_EVT_AVX_DOWNCLOCK) || (evt =? Common.MS_EVT_STALL_BACKEND)
  then ExecutionResource
  else if (evt =? Common.MS_EVT_XSNP_HITM) || (evt =? Common.MS_EVT_REMOTE_DRAM)
  then TopologyInterconnect
  else UnknownClass.

(** ** Agent mode (mode_controller.h) *)

Inductive AgentMode := Sentinel | Diagnostic.

#[global] Instance AgentMode_eq_dec : EqDecision AgentMode.
Proof. solve_decision. Defined.

(** ** Aggregator (aggregator.h, aggregator.cpp) *)

Module Aggregator.

Record AggregatedValue := {
  samples : Z;
  norm_cost : spec_float
}.

Record AggregationKey := {
  flow_id : Z;
  function_hash : Z;
  callstack_id : Z;
  data_object_id : Z;
  pmu_event : Z;
  numa_node : Z;
  interference_class : Z;
  direction : Z;
  bucket : Z
}.

#[global] Instance AggregationKey_eq_dec : EqDecision AggregationKey.
Proof. solve_decision. Defined.

Definition key_to_tuple (k : AggregationKey) : Z * Z * Z * Z * Z * Z * Z * Z * Z :=
  (flow_id k, function_hash k, callstack_id k, data_object_id k, pmu_event k,
   numa_node k, interference_class k, direction k, bucket k).

Definition key_of_tuple (t : Z * Z * Z * Z * Z * Z * Z * Z * Z) : AggregationKey :=
  let '(a, b, c, d, e, f, g, h, i) := t in
  {| flow_id := a; function_hash := b; callstack_id := c; data_object_id := d;
     pmu_event := e; numa_node := f; interference_class := g; direction := h;
     bucket := i |}.

#[global] Instance AggregationKey_countable : Countable AggregationKey.
Proof.
  apply (inj_countable' key_to_tuple key_of_tuple).
  intros []; reflexivity.
Defined.

Record AggregatorConfig := {
  time_window_ns : Z;
  max_entries : Z
}.

Record t := {
  cfg_ : AggregatorConfig;
  symbolizer_ : option Symbolizer.t;
  table_ : gmap AggregationKey AggregatedValue;
  sample_scale_ : spec_float
}.

(** [Aggregator::Aggregator(cfg)]: empty table, no symbolizer, scale 1.0. *)
Definition make (cfg : AggregatorConfig) : t :=
  {| cfg_ := cfg; symbolizer_ := None; table_ := ∅; sample_scale_ := B64.one |}.

Definition with_table (tbl : gmap AggregationKey AggregatedValue) (a : t) : t :=
  {| cfg_ := cfg_ a; symbolizer_ := symbolizer_ a; table_ := tbl;
     sample_scale_ := sample_scale_ a |}.

Definition AttachSymbolizer (sym : option Symbolizer.t) (a : t) : t :=
  {| cfg_ := cfg_ a; symbolizer_ := sym; table_ := table_ a;
     sample_scale_ := sample_scale_ a |}.

Definition SetSampleScale (scale : spec_float) (a : t) : t :=
  let scale := if B64.leb scale B64.zero then B64.one else scale in
  {| cfg_ := cfg_ a; symbolizer_ := symbolizer_ a; table_ := table_ a;
     sample_scale_ := scale |}.

Definition SampleScale (a : t) : spec_float := sample_scale_ a.

Definition Bucketize (a : t) (tsc : Z) : Z :=
  if time_window_ns (cfg_ a) =? 0 then tsc else tsc / time_window_ns (cfg_ a).

Definition InternFunction (a : t) (pid ip : Z) (lbr : LbrStack) : Z :=
  match symbolizer_ a with
  | None => ip
  | Some sym => Symbolizer.InternFunction sym pid ip
  end.

Definition InternCallstack (a : t) (pid ip : Z) (lbr : LbrStack) : Z :=
  match symbolizer_ a with
  | None => ip
  | Some sym => Symbolizer.InternStack sym pid ip lbr
  end.

Definition InternDataObject (a : t) (pid addr : Z) : Z :=
  match symbolizer_ a with
  | None => 0
  | Some sym => if addr =? 0 then 0 else Symbolizer.InternDataObject sym pid addr
  end.

Definition EventClass (pmu_event : Z) : Z :=
  InterferenceClass_code (ClassifyEvent pmu_event).

(** The key built at the head of [AddSample]. *)
Definition make_key (a : t) (sample : Sample) (lbr : LbrStack) : AggregationKey :=
  {| flow_id := Common.flow_id sample;
     function_hash := InternFunction a (Common.pid sample) (Common.ip sample) lbr;
     callstack_id := InternCallstack a (Common.pid sample) (Common.ip sample) lbr;
     data_object_id := InternDataObject a (Common.pid sample) (Common.data_addr sample);
     pmu_event := Common.pmu_event sample;
     numa_node := Common.numa_node sample;
     interference_class := EventClass (Common.pmu_event sample);
     direction := Common.direction sample;
     bucket := Bucketize a (Common.tsc sample) |}.

(** The [weight] local of [AddSample]. *)
Definition sample_weight (a : t) (sample : Sample) : spec_float :=
  let weight := sample_scale_ a in
  if Common.gso_segs sample >? 1
  then B64.div weight (B64.of_Z (Common.gso_segs sample))
  else weight.

(** [table_[key]] default-constructs a missing slot. *)
Definition slot_of (tbl : gmap AggregationKey AggregatedValue) (key : AggregationKey)
  : AggregatedValue :=
  default {| samples := 0; norm_cost := B64.zero |} (tbl !! key).

(** The table after the two in-place updates of the slot. *)
Definition bump (a : t) (sample : Sample) (lbr : LbrStack)
  : gmap AggregationKey AggregatedValue :=
  let key := make_key a sample lbr in
  let slot := slot_of (table_ a) key in
  <[key := {| samples := wrap64 (samples slot + 1);
              norm_cost := B64.add (norm_cost slot) (sample_weight a sample) |}]>
    (table_ a).

(** The overflow guard fires: the whole table is shed. *)
Definition sheds (a : t) (sample : Sample) (lbr : LbrStack) : bool :=
  Z.of_nat (size (bump a sample lbr)) >? max_entries (cfg_ a).

Definition AddSample (sample : Sample) (lbr : LbrStack) (a : t) : t :=
  if sheds a sample lbr then with_table ∅ a else with_table (bump a sample lbr) a.

(** [Flush]: the callback invocations in order, the returned count, and the
    aggregator left behind.  The snapshot is iterated in the map's order. *)
Definition Flush (a : t)
  : list (AggregationKey * AggregatedValue) * Z * t :=
  let snapshot := table_ a in
  let emitted :=
    foldl (fun acc kv => wrap64 (acc + samples kv.2)) 0 (map_to_list snapshot) in
  (map_to_list snapshot, emitted, with_table ∅ a).

(** Feeding a stream of samples. *)
Definition add_all (stream : list (Sample * LbrStack)) (a : t) : t :=
  foldl (fun acc sl => AddSample sl.1 sl.2 acc) a stream.

(** Number of samples that are still in the table: the count restarts at
    every shed. *)
Fixpoint retained (stream : list (Sample * LbrStack)) (a : t) (count : Z) : Z :=
  match stream with
  | [] => count
  | sl :: rest =>
      retained rest (AddSample sl.1 sl.2 a)
               (if sheds a sl.1 sl.2 then 0 else count + 1)
  end.

(** No sample of the stream trips the overflow guard. *)
Fixpoint never_sheds (stream : list (Sample * LbrStack)) (a : t) : bool :=
  match stream with
  | [] => true
  | sl :: rest => negb (sheds a sl.1 sl.2) && never_sheds rest (AddSample sl.1 sl.2 a)
  end.

(** Totals over the rollups handed to the callback: the exact sum of
    [samples], and the binary64 running sum of [norm_cost] in callback
    order. *)
Definition sum_samples (calls : list (AggregationKey * AggregatedValue)) : Z :=
  foldr (fun kv acc => samples kv.2 + acc) 0 calls.

Definition sum_norm_cost (calls : list (AggregationKey * AggregatedValue)) : spec_float :=
  foldl (fun acc kv => B64.add acc (norm_cost kv.2)) B64.zero calls.

(** The sample of the unit test, with a chosen flow and segment count. *)
Definition sample_of_flow (flow gso : Z) : Sample :=
  {| Common.tsc := 1000; Common.cpu := 0; Common.pid := 100; Common.tid := 0;
     Common.pmu_event := Common.MS_EVT_L3_MISS; Common.ip := 4660;
     Common.data_addr := 0; Common.flow_id := flow; Common.gso_segs := gso;
     Common.ingress_ifindex := 0; Common.numa_node := 0; Common.l4_proto := 0;
     Common.direction := 0; Common.lbr_nr := 0; Common.pad0 := 0;
     Common.lbr := [] |}.

(** Invariant of the table between flushes: no count is negative and the
    counts add up to [c]. *)
Definition counts_ok (m : gmap AggregationKey AggregatedValue) : Prop :=
  map_Forall (fun _ v => 0 <= samples v) m.

Definition agg_inv (a : t) (c : Z) : Prop :=
  counts_ok (table_ a) /\ sum_samples (map_to_list (table_ a)) = c /\ 0 <= c.

(** Every accumulated cost is the binary64 image of its sample count. *)
Definition costs_ok (m : gmap AggregationKey AggregatedValue) : Prop :=
  map_Forall (fun _ v => norm_cost v = B64.of_Z (samples v)) m.

End Aggregator.

(** ** Mode controller (anomaly.h, config.h, mode_controller.h, mode_controller.cpp) *)

Module ModeController.

Inductive AnomalyType := ThroughputDrop | LatencySpike.

Record AnomalySignal := {
  type : AnomalyType;
  ratio : spec_float;
  value : spec_float;
  timestamp_ns : Z
}.

(** [anomaly_quiet_period] is the millisecond count of the duration. *)
Record ModeThresholds := {
  sentinel_to_diag : spec_float;
  diag_to_sentinel : spec_float;
  throughput_ratio_trigger : spec_float;
  latency_ratio_trigger : spec_float;
  anomaly_quiet_period : Z
}.

Definition default_thresholds : ModeThresholds :=
  {| sentinel_to_diag := B64.lit 110 100;
     diag_to_sentinel := B64.lit 102 100;
     throughput_ratio_trigger := B64.lit 85 100;
     latency_ratio_trigger := B64.lit 125 100;
     anomaly_quiet_period := 5000 |}.

Record t := {
  thresholds_ : ModeThresholds;
  mode_ : AgentMode;
  last_anomaly_ns_ : Z;
  last_throughput_ratio_ : spec_float;
  last_latency_ratio_ : spec_float
}.

Definition make (thresholds : ModeThresholds) : t :=
  {| thresholds_ := thresholds; mode_ := Sentinel; last_anomaly_ns_ := 0;
     last_throughput_ratio_ := B64.one; last_latency_ratio_ := B64.one |}.

Definition Mode (c : t) : AgentMode := mode_ c.

Definition store_mode (m : AgentMode) (c : t) : t :=
  {| thresholds_ := thresholds_ c; mode_ := m;
     last_anomaly_ns_ := last_anomaly_ns_ c;
     last_throughput_ratio_ := last_throughput_ratio_ c;
     last_latency_ratio_ := last_latency_ratio_ c |}.

Definition Force (m : AgentMode) (c : t) : t := store_mode m c.

(** The quiet period in nanoseconds, as the unsigned product computes it. *)
Definition hold_ns (c : t) : Z :=
  wrap64 (wrap64 (anomaly_quiet_period (thresholds_ c)) * 1000000).

(** [now] is the value [NowNs()] returns inside the call. *)
Definition AnomalyHoldActive (now : Z) (c : t) : bool :=
  if hold_ns c =? 0 then false
  else
    let last := last_anomaly_ns_ c in
    if last =? 0 then false
    else (now >=? last) && (wrap64 (now - last) <? hold_ns c).

Definition Update (now : Z) (load_ratio : spec_float) (c : t) : t :=
  match mode_ c with
  | Sentinel =>
      if B64.ltb (sentinel_to_diag (thresholds_ c)) load_ratio
      then store_mode Diagnostic c
      else c
  | Diagnostic =>
      if negb (AnomalyHoldActive now c)
         && B64.ltb load_ratio (diag_to_sentinel (thresholds_ c))
      then store_mode Sentinel c
      else c
  end.

(** The local [ts] of [NotifyAnomaly]. *)
Definition anomaly_stamp (now : Z) (signal : AnomalySignal) : Z :=
  if timestamp_ns signal =? 0 then now else timestamp_ns signal.

Definition NotifyAnomaly (now : Z) (signal : AnomalySignal) (c : t) : t :=
  let ts := anomaly_stamp now signal in
  match type signal with
  | ThroughputDrop =>
      let trigger := throughput_ratio_trigger (thresholds_ c) in
      {| thresholds_ := thresholds_ c;
         mode_ := if B64.ltb B64.zero (ratio signal) && B64.ltb (ratio signal) trigger
                  then Diagnostic else mode_ c;
         last_anomaly_ns_ := ts;
         last_throughput_ratio_ := ratio signal;
         last_latency_ratio_ := last_latency_ratio_ c |}
  | LatencySpike =>
      {| thresholds_ := thresholds_ c;
         mode_ := if B64.ltb (latency_ratio_trigger (thresholds_ c)) (ratio signal)
                  then Diagnostic else mode_ c;
         last_anomaly_ns_ := ts;
         last_throughput_ratio_ := last_throughput_ratio_ c;
         last_latency_ratio_ := ratio signal |}
  end.


(** The triggers in the words of the specification, with the guard the
    code puts on a throughput ratio. *)
Definition crosses_trigger (th : ModeThresholds) (signal : AnomalySignal) : bool :=
match type signal with
| ThroughputDrop =>
    B64.ltb B64.zero (ratio signal) && B64.ltb (ratio signal) (throughput_ratio_trigger th)
| LatencySpike => B64.ltb (latency_ratio_trigger th) (ratio signal)
end.

(** Thresholds of the unit test: 1.1, 1.01, 0.8, 1.2, 10 ms. *)
Definition test_thresholds : ModeThresholds :=
{| sentinel_to_diag := B64.lit 11 10;
   diag_to_sentinel := B64.lit 101 100;
   throughput_ratio_trigger := B64.lit 8 10;
   latency_ratio_trigger := B64.lit 12 10;
   anomaly_quiet_period := 10 |}.

Definition signal_of (ty : AnomalyType) (r : spec_float) (ts : Z) : AnomalySignal :=
{| type := ty; ratio := r; value := B64.of_Z 100; timestamp_ns := ts |}.

End ModeController.

(** ** Monitoring targets (control_messages.h, monitoring_targets.h/.cpp) *)

Module MonitoringTargetManager.

Inductive TargetType := All | Cgroup | Process | Flow.

Record FlowTarget := {
  ingress_ifindex : Z;
  l4_proto : Z
}.

Record TargetSpec := {
  type : TargetType;
  path : string;
  pid : Z;
  flow : FlowTarget
}.

Record t := {
  allowed_pids_ : gset Z;
  flow_targets_ : list FlowTarget;
  allow_all_ : bool;
  has_pid_filter_ : bool;
  has_flow_filter_ : bool
}.

(** Default member initialisers. *)
Definition make : t :=
  {| allowed_pids_ := ∅; flow_targets_ := []; allow_all_ := true;
     has_pid_filter_ := false; has_flow_filter_ := false |}.

Fixpoint last_char (s : string) : option Ascii.ascii :=
  match s with
  | EmptyString => None
  | String c EmptyString => Some c
  | String _ rest => last_char rest
  end.

(** The file [LoadCgroupPids] opens for a cgroup directory. *)
Definition procs_path (path : string) : string :=
  let dir :=
    match last_char path with
    | None => path
    | Some c => if Ascii.eqb c "/"%char then path else String.append path "/"
    end in
  String.append dir "cgroup.procs".

Section WithFilesystem.

(** The process ids a [cgroup.procs] file yields: one per line that
    [std::stoul] parses, already narrowed to 32 bits; the empty list when
    the file cannot be opened. *)
Variable read_procs : string -> list Z.

Definition LoadCgroupPids (path : string) (dest : gset Z) : gset Z :=
  foldl (fun acc p => if p =? 0 then acc else {[ p ]} ∪ acc)
        dest (read_procs (procs_path path)).

Record locals := {
  next_pids : gset Z;
  next_flows : list FlowTarget;
  allow_all : bool;
  has_pid : bool;
  has_flow : bool
}.

(** One iteration of the [switch] in [Update]. *)
Definition apply_spec (spec : TargetSpec) (l : locals) : locals :=
  match type spec with
  | All =>
      {| next_pids := ∅; next_flows := []; allow_all := true;
         has_pid := false; has_flow := false |}
  | Process =>
      {| next_pids := if pid spec =? 0 then next_pids l
                      else {[ pid spec ]} ∪ next_pids l;
         next_flows := next_flows l; allow_all := allow_all l;
         has_pid := true; has_flow := has_flow l |}
  | Cgroup =>
      {| next_pids := match path spec with
                      | EmptyString => next_pids l
                      | _ => LoadCgroupPids (path spec) (next_pids l)
                      end;
         next_flows := next_flows l; allow_all := allow_all l;
         has_pid := true; has_flow := has_flow l |}
  | Flow =>
      {| next_pids := next_pids l;
         next_flows := next_flows l ++ [flow spec];
         allow_all := allow_all l;
         has_pid := has_pid l; has_flow := true |}
  end.

(** The [for] loop, leaving at the first spec that sets [allow_all]. *)
Fixpoint update_loop (specs : list TargetSpec) (l : locals) : locals :=
  match specs with
  | [] => l
  | spec :: rest =>
      let l' := apply_spec spec l in
      if allow_all l' then l' else update_loop rest l'
  end.

Definition Update (specs : list TargetSpec) (m : t) : t :=
  let init :=
    {| next_pids := ∅; next_flows := [];
       allow_all := match specs with [] => true | _ => false end;
       has_pid := false; has_flow := false |} in
  let l := update_loop specs init in
  {| allowed_pids_ := next_pids l; flow_targets_ := next_flows l;
     allow_all_ := allow_all l; has_pid_filter_ := has_pid l;
     has_flow_filter_ := has_flow l |}.

End WithFilesystem.

(** The per-flow test of the loop in [Allow]. *)
Definition flow_matches (sample : Sample) (flow : FlowTarget) : bool :=
  let if_ok := (ingress_ifindex flow =? 0)
               || (ingress_ifindex flow =? Common.ingress_ifindex sample) in
  let proto_ok := (l4_proto flow =? 0)
                  || (l4_proto flow =? Common.l4_proto sample) in
  if_ok && proto_ok.

(** The local [pid_ok] of [Allow]. *)
Definition pid_ok (sample : Sample) (m : t) : bool :=
  if has_pid_filter_ m
  then bool_decide (Common.pid sample ∈ allowed_pids_ m)
  else true.

Definition Allow (sample : Sample) (m : t) : bool :=
  if allow_all_ m then true
  else if negb (pid_ok sample m) then false
  else if negb (has_flow_filter_ m) then true
  else existsb (flow_matches sample) (flow_targets_ m).

(** The flow test in the words of the specification. *)
Definition flow_accepts (flow : FlowTarget) (sample : Sample) : Prop :=
  (ingress_ifindex flow = 0 \/ ingress_ifindex flow = Common.ingress_ifindex sample)
  /\ (l4_proto flow = 0 \/ l4_proto flow = Common.l4_proto sample).

(** Inputs of the unit test. *)
Definition sample_of (p ifindex proto : Z) : Sample :=
  {| Common.tsc := 1000; Common.cpu := 0; Common.pid := p; Common.tid := 0;
     Common.pmu_event := Common.MS_EVT_L3_MISS; Common.ip := 0;
     Common.data_addr := 0; Common.flow_id := 0; Common.gso_segs := 0;
     Common.ingress_ifindex := ifindex; Common.numa_node := 1;
     Common.l4_proto := proto; Common.direction := 0; Common.lbr_nr := 0;
     Common.pad0 := 0; Common.lbr := [] |}.

Definition process_spec (p : Z) : TargetSpec :=
  {| type := Process; path := EmptyString; pid := p;
     flow := {| ingress_ifindex := 0; l4_proto := 0 |} |}.

Definition flow_spec (ifindex proto : Z) : TargetSpec :=
  {| type := Flow; path := EmptyString; pid := 0;
     flow := {| ingress_ifindex := ifindex; l4_proto := proto |} |}.

(** A filesystem without readable cgroup files. *)
Definition no_cgroups : string -> list Z := fun _ => [].

End MonitoringTargetManager.

(** ** Token-bucket update (bucket_update.h, bucket_update.cpp) *)

Module BucketUpdate.

Record BucketUpdateRequest := {
  has_sentinel : bool;
  req_sentinel_budget : Z;
  has_diagnostic : bool;
  req_diagnostic_budget : Z;
  has_hard_drop : bool;
  req_hard_drop_ns : Z
}.

Record BucketState := {
  sentinel_budget : Z;
  diagnostic_budget : Z;
  hard_drop_ns : Z
}.

Record BucketUpdateOutcome := {
  reprogram_required : bool;
  active_budget : Z
}.

(** A default-constructed request. *)
Definition empty_request : BucketUpdateRequest :=
  {| has_sentinel := false; req_sentinel_budget := 0;
     has_diagnostic := false; req_diagnostic_budget := 0;
     has_hard_drop := false; req_hard_drop_ns := 0 |}.

(** The three flags the function computes. *)
Definition sentinel_changed (req : BucketUpdateRequest) : bool :=
  has_sentinel req && (req_sentinel_budget req >? 0).
Definition diagnostic_changed (req : BucketUpdateRequest) : bool :=
  has_diagnostic req && (req_diagnostic_budget req >? 0).
Definition drop_changed (req : BucketUpdateRequest) : bool :=
  has_hard_drop req && (req_hard_drop_ns req >? 0).

Definition ApplyBucketUpdate (req : BucketUpdateRequest) (mode : AgentMode)
           (state : BucketState) : BucketUpdateOutcome * BucketState :=
  let sentinel := if sentinel_changed req then req_sentinel_budget req
                  else sentinel_budget state in
  let diag_auto_adjusted :=
    negb (diagnostic_changed req) && sentinel_changed req
    && (diagnostic_budget state <? sentinel) in
  let diagnostic :=
    if diagnostic_changed req then req_diagnostic_budget req
    else if diag_auto_adjusted then sentinel
    else diagnostic_budget state in
  let hard_drop := if drop_changed req then req_hard_drop_ns req
                   else hard_drop_ns state in
  let active :=
    match mode with Sentinel => sentinel | Diagnostic => diagnostic end in
  let active_budget_changed :=
    match mode with
    | Sentinel => sentinel_changed req
    | Diagnostic => diagnostic_changed req || diag_auto_adjusted
    end in
  ({| reprogram_required := drop_changed req || active_budget_changed;
      active_budget := active |},
   {| sentinel_budget := sentinel; diagnostic_budget := diagnostic;
      hard_drop_ns := hard_drop |}).

(** A sequence of requests, each applied under the mode current at the
    time; the state after the last one. *)
Definition apply_all (reqs : list (BucketUpdateRequest * AgentMode))
           (state : BucketState) : BucketState :=
  foldl (fun st rm => (ApplyBucketUpdate rm.1 rm.2 st).2) state reqs.

(** The budget of the arm a mode uses. *)
Definition arm_budget (mode : AgentMode) (state : BucketState) : Z :=
  match mode with
  | Sentinel => sentinel_budget state
  | Diagnostic => diagnostic_budget state
  end.

(** Requests of the unit test. *)
Definition sentinel_request (budget : Z) : BucketUpdateRequest :=
  {| has_sentinel := true; req_sentinel_budget := budget;
     has_diagnostic := false; req_diagnostic_budget := 0;
     has_hard_drop := false; req_hard_drop_ns := 0 |}.

Definition diagnostic_request (budget : Z) : BucketUpdateRequest :=
  {| has_sentinel := false; req_sentinel_budget := 0;
     has_diagnostic := true; req_diagnostic_budget := budget;
     has_hard_drop := false; req_hard_drop_ns := 0 |}.

Definition hard_drop_request (ns : Z) : BucketUpdateRequest :=
  {| has_sentinel := false; req_sentinel_budget := 0;
     has_diagnostic := false; req_diagnostic_budget := 0;
     has_hard_drop := true; req_hard_drop_ns := ns |}.

Definition test_state : BucketState :=
  {| sentinel_budget := 1000; diagnostic_budget := 4000; hard_drop_ns := 8000 |}.

End BucketUpdate.

(** ** Skew adjuster (skew_adjuster.h, skew_adjuster.cpp) *)

Module SkewAdjuster.

Record Bundle := {
  sample : Sample;
  stack : LbrStack
}.

Record t := {
  tolerance_ns_ : Z;
  max_window_ : Z;
  per_cpu_ : list (list Bundle)
}.

Definition make (tolerance_ns max_window : Z) : t :=
  {| tolerance_ns_ := if tolerance_ns =? 0 then Common.MS_FLOW_SKID_NS else tolerance_ns;
     max_window_ := if max_window >=? 2 then max_window else 2;
     per_cpu_ := [] |}.

Definition AbsDiff (a b : Z) : Z := if a >? b then a - b else b - a.

(** Assignment to [bundle.sample.flow_id]. *)
Definition set_flow_id (f : Z) (s : Sample) : Sample :=
  {| Common.tsc := Common.tsc s; Common.cpu := Common.cpu s;
     Common.pid := Common.pid s; Common.tid := Common.tid s;
     Common.pmu_event := Common.pmu_event s; Common.ip := Common.ip s;
     Common.data_addr := Common.data_addr s; Common.flow_id := f;
     Common.gso_segs := Common.gso_segs s;
     Common.ingress_ifindex := Common.ingress_ifindex s;
     Common.numa_node := Common.numa_node s;
     Common.l4_proto := Common.l4_proto s;
     Common.direction := Common.direction s;
     Common.lbr_nr := Common.lbr_nr s; Common.pad0 := Common.pad0 s;
     Common.lbr := Common.lbr s |}.

Definition flow_of (b : Bundle) : Z := Common.flow_id (sample b).
Definition tsc_of (b : Bundle) : Z := Common.tsc (sample b).

(** The locals [best_flow] and [best_delta]. *)
Record best := {
  best_flow : Z;
  best_delta : Z
}.

(** One directional [for] loop of [AdjustWindow]: the candidates in visiting
    order; [continue] on an unattributed candidate, [break] at the first
    attributed one beyond the tolerance. *)
Fixpoint scan (tol tsc : Z) (candidates : list Bundle) (b : best) : best :=
  match candidates with
  | [] => b
  | candidate :: rest =>
      if flow_of candidate =? 0 then scan tol tsc rest b
      else
        let delta := AbsDiff (tsc_of candidate) tsc in
        if delta >? tol then b
        else if delta <? best_delta b
             then scan tol tsc rest {| best_flow := flow_of candidate; best_delta := delta |}
             else scan tol tsc rest b
  end.

(** The body of the outer loop for index [i]. *)
Definition adjust_entry (tol : Z) (entries : list Bundle) (i : nat) : list Bundle :=
  match entries !! i with
  | None => entries
  | Some bundle =>
      if flow_of bundle =? 0 then
        let b0 := {| best_flow := 0; best_delta := UINT64_MAX |} in
        let b1 := scan tol (tsc_of bundle) (rev (take i entries)) b0 in
        let b2 := scan tol (tsc_of bundle) (drop (S i) entries) b1 in
        if best_flow b2 =? 0 then entries
        else <[i := {| sample := set_flow_id (best_flow b2) (sample bundle);
                       stack := stack bundle |}]> entries
      else entries
  end.

Definition AdjustWindow (tol : Z) (entries : list Bundle) : list Bundle :=
  if (length entries <? 2)%nat then entries
  else foldl (adjust_entry tol) entries (seq 0 (length entries)).

(** [while (size > 1)] pop the front into [out_ready]. *)
Fixpoint drain_to_one (entries out_ready : list Bundle) : list Bundle * list Bundle :=
  match entries with
  | front :: (_ :: _) as rest => drain_to_one rest (out_ready ++ [front])
  | _ => (entries, out_ready)
  end.

Definition DrainReady (max_window : Z) (entries out_ready : list Bundle)
  : list Bundle * list Bundle :=
  let '(entries, out_ready) := drain_to_one entries out_ready in
  if Z.of_nat (length entries) >? max_window
  then (tail entries, out_ready ++ take 1 entries)
  else (entries, out_ready).

Definition DrainAll (entries out_ready : list Bundle) : list Bundle * list Bundle :=
  ([], out_ready ++ entries).

Definition EnsureCpu (cpu : Z) (per_cpu : list (list Bundle)) : list (list Bundle) :=
  if cpu >=? Z.of_nat (length per_cpu)
  then resize (Z.to_nat cpu + 1) [] per_cpu
  else per_cpu.

(** The window of a CPU; empty when the vector has no slot for it yet. *)
Definition window_of (cpu : Z) (a : t) : list Bundle :=
  default [] (per_cpu_ a !! Z.to_nat cpu).

(** [Process] with a non-empty [emit]: the new state and the bundles handed
    to [emit], in order. *)
Definition Process (s : Sample) (stk : LbrStack) (a : t) : t * list Bundle :=
  let per_cpu := EnsureCpu (Common.cpu s) (per_cpu_ a) in
  let idx := Z.to_nat (Common.cpu s) in
  let entries := default [] (per_cpu !! idx) ++ [ {| sample := s; stack := stk |} ] in
  let entries := AdjustWindow (tolerance_ns_ a) entries in
  let '(entries, ready) := DrainReady (max_window_ a) entries [] in
  ({| tolerance_ns_ := tolerance_ns_ a; max_window_ := max_window_ a;
      per_cpu_ := <[idx := entries]> per_cpu |},
   ready).

(** [Flush] with a non-empty [emit]. *)
Definition Flush (a : t) : t * list Bundle :=
  ({| tolerance_ns_ := tolerance_ns_ a; max_window_ := max_window_ a;
      per_cpu_ := map (fun _ => []) (per_cpu_ a) |},
   foldl (fun ready window => (DrainAll window ready).2) [] (per_cpu_ a)).

(** *** The rescan in the words of the specification *)

Definition is_donor (b : Bundle) : bool := negb (flow_of b =? 0).

(** How far apart two timestamps are, as a number of nanoseconds: stated
    with the absolute value of the integers, not with the code's
    [AbsDiff]. *)
Definition timestamp_distance (t1 t2 : Z) : Z := Z.abs (t1 - t2).

Definition in_tolerance (tol tsc : Z) (b : Bundle) : bool :=
  timestamp_distance (tsc_of b) tsc <=? tol.

Fixpoint take_while {A} (p : A -> bool) (l : list A) : list A :=
  match l with
  | [] => []
  | x :: rest => if p x then x :: take_while p rest else []
  end.

(** The attributed neighbours one direction of the search reaches: those
    met, nearest position first, before the first one that exceeds the
    tolerance. *)
Definition reachable_donors (tol tsc : Z) (direction : list Bundle) : list Bundle :=
  take_while (in_tolerance tol tsc) (List.filter is_donor direction).

(** All donors entry [i] can reach: backwards over the entries already
    rescanned, then forwards over those not yet rescanned. *)
Definition donors (tol : Z) (rescanned original : list Bundle) (i : nat) (b : Bundle)
  : list Bundle :=
  reachable_donors tol (tsc_of b) (rev (take i rescanned))
  ++ reachable_donors tol (tsc_of b) (drop (S i) original).

Definition with_flow (f : Z) (b : Bundle) : Bundle :=
  {| sample := set_flow_id f (sample b); stack := stack b |}.

(** A sample with its flow identifier blanked: everything the back-fill
    must leave alone. *)
Definition erase_flow (b : Bundle) : Bundle := with_flow 0 b.

(** Distance of a candidate from the entry being rescanned. *)
Definition delta_to (tsc : Z) (d : Bundle) : Z := timestamp_distance (tsc_of d) tsc.

(** The update of [best_flow] and [best_delta] by one reachable donor. *)
Definition pick (tsc : Z) (b : best) (d : Bundle) : best :=
  if delta_to tsc d <? best_delta b
  then {| best_flow := flow_of d; best_delta := delta_to tsc d |}
  else b.

(** The window after the outer loop has handled the indices below [n]. *)
Definition rescan_prefix (tol : Z) (entries : list Bundle) (n : nat) : list Bundle :=
  foldl (adjust_entry tol) entries (seq 0 n).

(** Inputs of the unit test. *)
Definition sample_at (c t f : Z) : Sample :=
  {| Common.tsc := t; Common.cpu := c; Common.pid := 0; Common.tid := 0;
     Common.pmu_event := 0; Common.ip := 0; Common.data_addr := 0;
     Common.flow_id := f; Common.gso_segs := 0; Common.ingress_ifindex := 0;
     Common.numa_node := 0; Common.l4_proto := 0; Common.direction := 0;
     Common.lbr_nr := 0; Common.pad0 := 0; Common.lbr := [] |}.

Definition bundle_at (c t f : Z) : Bundle := {| sample := sample_at c t f; stack := [] |}.

End SkewAdjuster.

(** ** False-sharing detector (fs_detector.h, fs_detector.cpp) *)

Module FalseSharingDetector.

Record Stats := {
  total_hits : Z;
  last_tsc : Z;
  cpu_hits : list Z;
  pid_hits : gmap Z Z
}.

Definition empty_Stats : Stats :=
  {| total_hits := 0; last_tsc := 0; cpu_hits := []; pid_hits := ∅ |}.

Record FalseSharingFinding := {
  line_addr : Z;
  finding_total_hits : Z;
  finding_cpu_hits : list Z;
  dominant_pid : Z;
  object : Symbolizer.DataObject
}.

Record t := {
  window_ns_ : Z;
  threshold_ : Z;
  table_ : gmap Z Stats;
  symbolizer_ : option Symbolizer.t
}.

Definition make (symbolizer : option Symbolizer.t) (window_ns threshold : Z) : t :=
  {| window_ns_ := window_ns; threshold_ := threshold; table_ := ∅;
     symbolizer_ := symbolizer |}.

(** [data_addr & ~(64ULL - 1ULL)] *)
Definition line_of (data_addr : Z) : Z := Z.land data_addr (UINT64_MAX - 63).

Definition Observe (s : Sample) (d : t) : t :=
  if negb (Common.pmu_event s =? Common.MS_EVT_XSNP_HITM) then d
  else
    let line := line_of (Common.data_addr s) in
    let stats := default empty_Stats (table_ d !! line) in
    let cpu := Z.to_nat (Common.cpu s) in
    let hits := if (length (cpu_hits stats) <=? cpu)%nat
                then resize (cpu + 1) 0 (cpu_hits stats)
                else cpu_hits stats in
    let hits := <[cpu := wrap64 (default 0 (hits !! cpu) + 1)]> hits in
    let pids := <[Common.pid s := wrap64 (default 0 (pid_hits stats !! Common.pid s) + 1)]>
                  (pid_hits stats) in
    {| window_ns_ := window_ns_ d; threshold_ := threshold_ d;
       table_ := <[line := {| total_hits := wrap64 (total_hits stats + 1);
                             last_tsc := Common.tsc s;
                             cpu_hits := hits;
                             pid_hits := pids |}]> (table_ d);
       symbolizer_ := symbolizer_ d |}.

(** The eviction test [now_tsc - last_tsc > window_ns_] on unsigned values. *)
Definition expired (now_tsc window_ns : Z) (stats : Stats) : bool :=
  wrap64 (now_tsc - last_tsc stats) >? window_ns.

(** The loop over [cpu_hits]: the pair [(active, max_hits)]. *)
Definition cpu_summary (hits : list Z) : Z * Z :=
  foldl (fun acc h => if h =? 0 then acc else (wrap64 (acc.1 + 1), Z.max acc.2 h))
        (0, 0) hits.

Definition dominance (stats : Stats) : spec_float :=
  B64.div (B64.of_Z (cpu_summary (cpu_hits stats)).2) (B64.of_Z (total_hits stats)).

(** The loop over [pid_hits]: the pair [(dominant_pid, dominant_hits)].
    [visited] holds the entries in the order the loop meets them; the order
    in which a [std::unordered_map] is traversed is not specified, and among
    entries with the same count the first one met wins. *)
Definition pid_summary (visited : list (Z * Z)) : Z * Z :=
  foldl (fun acc ph => if ph.2 >? acc.2 then (ph.1, ph.2) else acc)
        (0, 0) visited.

(** The filters applied to an evicted line, in source order. *)
Definition passes_filters (threshold : Z) (stats : Stats) : bool :=
  negb (total_hits stats <? threshold)
  && negb ((cpu_summary (cpu_hits stats)).1 <? 2)
  && negb (B64.leb (B64.lit 9 10) (dominance stats)).

(** The finding built for an evicted line whose [pid_hits] are traversed in
    the order [visited]. *)
Definition finding_of (d : t) (line : Z) (stats : Stats) (visited : list (Z * Z))
  : FalseSharingFinding :=
  let pid := (pid_summary visited).1 in
  {| line_addr := line;
     finding_total_hits := total_hits stats;
     finding_cpu_hits := cpu_hits stats;
     dominant_pid := pid;
     object := match symbolizer_ d with
               | Some sym =>
                   if pid =? 0 then Symbolizer.empty_DataObject
                   else Symbolizer.ResolveData sym pid line
               | None => Symbolizer.empty_DataObject
               end |}.

(** [Flush]: the detector without the evicted lines, and the findings
    handed to the callback, in order.  The two traversals of unordered maps
    are inputs: [lines_order] gives the order in which the evicted lines are
    met, [pids_order] the order in which the [pid_hits] of a line are. *)
Definition Flush_visiting
           (lines_order : gmap Z Stats -> list (Z * Stats))
           (pids_order : Z -> gmap Z Z -> list (Z * Z))
           (now_tsc : Z) (d : t) : t * list FalseSharingFinding :=
  let gone := filter (fun kv => expired now_tsc (window_ns_ d) kv.2 = true) (table_ d) in
  let kept := filter (fun kv => expired now_tsc (window_ns_ d) kv.2 <> true) (table_ d) in
  ({| window_ns_ := window_ns_ d; threshold_ := threshold_ d; table_ := kept;
      symbolizer_ := symbolizer_ d |},
   omap (fun kv => if passes_filters (threshold_ d) kv.2
                   then Some (finding_of d kv.1 kv.2 (pids_order kv.1 (pid_hits kv.2)))
                   else None)
        (lines_order gone)).

(** A traversal meets every entry of the map once. *)
Definition traversal {K V} `{Countable K} (order : gmap K V -> list (K * V)) : Prop :=
  forall m, order m ≡ₚ map_to_list m.

(** The flush in which both traversals follow the order of the model's
    maps: one of the runs the code can make. *)
Definition Flush (now_tsc : Z) (d : t) : t * list FalseSharingFinding :=
  Flush_visiting map_to_list (fun _ => map_to_list) now_tsc d.

(** A cross-snoop HITM sample. *)
Definition hitm_sample (c p addr t : Z) : Sample :=
  {| Common.tsc := t; Common.cpu := c; Common.pid := p; Common.tid := 0;
     Common.pmu_event := Common.MS_EVT_XSNP_HITM; Common.ip := 0;
     Common.data_addr := addr; Common.flow_id := 0; Common.gso_segs := 0;
     Common.ingress_ifindex := 0; Common.numa_node := 0; Common.l4_proto := 0;
     Common.direction := 0; Common.lbr_nr := 0; Common.pad0 := 0;
     Common.lbr := [] |}.

End FalseSharingDetector.

(** ** Time calibrator (config.h, tsc_calibrator.h, tsc_calibrator.cpp) *)

Module TscCalibrator.

Record TscCalibrationConfig := {
  enabled : bool;
  slope_alpha : spec_float;
  offset_alpha : spec_float
}.

Definition default_config : TscCalibrationConfig :=
  {| enabled := true; slope_alpha := B64.lit 5 100; offset_alpha := B64.lit 5 100 |}.

Record CpuModel := {
  slope : spec_float;
  offset : spec_float;
  last_raw : Z;
  last_ref : Z;
  initialized : bool;
  passthrough_steady_ns : bool
}.

Definition default_model : CpuModel :=
  {| slope := B64.one; offset := B64.zero; last_raw := 0; last_ref := 0;
     initialized := false; passthrough_steady_ns := false |}.

Record t := {
  cfg_ : TscCalibrationConfig;
  models_ : list CpuModel
}.

Definition make (cfg : TscCalibrationConfig) : t := {| cfg_ := cfg; models_ := [] |}.

Definition kMinAlpha : spec_float := B64.lit 1 1000.
Definition kMaxAlpha : spec_float := B64.lit 1 2.

(** [std::clamp(v, lo, hi)] *)
Definition clamp (v lo hi : spec_float) : spec_float :=
  if B64.ltb v lo then lo else if B64.ltb hi v then hi else v.

Definition EnsureModel (cpu : Z) (models : list CpuModel) : list CpuModel :=
  if cpu >=? Z.of_nat (length models)
  then resize (Z.to_nat cpu + 1) default_model models
  else models.

(** The model of a CPU as [Normalize] would find it. *)
Definition model_of (cpu : Z) (c : t) : CpuModel :=
  default default_model (EnsureModel cpu (models_ c) !! Z.to_nat cpu).

(** The first-sample test for a timestamp already in steady-clock
    nanoseconds. *)
Definition looks_steady (ref_ns raw_tsc : Z) : bool :=
  (ref_ns >? 0) && (raw_tsc >? 0)
  && (let ratio := B64.div (B64.of_Z raw_tsc) (B64.of_Z ref_ns) in
      B64.ltb (B64.lit 3 4) ratio && B64.ltb ratio (B64.lit 3 2)).

(** The update of an initialised, non-passthrough model and the value
    before the final conversion. *)
Definition affine_step (slope_alpha offset_alpha : spec_float)
           (ref_ns raw_tsc : Z) (model : CpuModel) : CpuModel * spec_float :=
  let raw_delta := if raw_tsc >=? last_raw model then raw_tsc - last_raw model else 0 in
  let ref_delta := wrap64 (ref_ns - last_ref model) in
  let slope1 :=
    if (raw_delta >? 0) && (ref_delta >? 0) then
      let slope_est := B64.div (B64.of_Z ref_delta) (B64.of_Z raw_delta) in
      if B64.ltb B64.zero slope_est && B64.ltb slope_est (B64.of_Z 10)
      then B64.add (B64.mul slope_alpha slope_est)
                   (B64.mul (B64.sub B64.one slope_alpha) (slope model))
      else slope model
    else slope model in
  let offset_est := B64.sub (B64.of_Z ref_ns) (B64.mul slope1 (B64.of_Z raw_tsc)) in
  let offset1 := B64.add (B64.mul offset_alpha offset_est)
                         (B64.mul (B64.sub B64.one offset_alpha) (offset model)) in
  let normalized := B64.add (B64.mul slope1 (B64.of_Z raw_tsc)) offset1 in
  let normalized := if B64.ltb normalized B64.zero then B64.zero else normalized in
  ({| slope := slope1; offset := offset1; last_raw := raw_tsc; last_ref := ref_ns;
      initialized := true; passthrough_steady_ns := false |},
   normalized).

(** [Normalize]; [ref_ns] is the value [NowNs()] returns inside the call.
    The result is [None] where the final conversion to [uint64_t] is
    undefined. *)
Definition Normalize (ref_ns cpu raw_tsc : Z) (c : t) : option Z * t :=
  if negb (enabled (cfg_ c)) then (Some raw_tsc, c)
  else
    let slope_alpha := clamp (slope_alpha (cfg_ c)) kMinAlpha kMaxAlpha in
    let offset_alpha := clamp (offset_alpha (cfg_ c)) kMinAlpha kMaxAlpha in
    let models := EnsureModel cpu (models_ c) in
    let idx := Z.to_nat cpu in
    let model := default default_model (models !! idx) in
    let store m := {| cfg_ := cfg_ c; models_ := <[idx := m]> models |} in
    if negb (initialized model) then
      if looks_steady ref_ns raw_tsc then
        (Some raw_tsc,
         store {| slope := slope model; offset := offset model;
                  last_raw := raw_tsc; last_ref := ref_ns;
                  initialized := true; passthrough_steady_ns := true |})
      else
        (Some ref_ns,
         store {| slope := B64.one;
                  offset := B64.sub (B64.of_Z ref_ns) (B64.of_Z raw_tsc);
                  last_raw := raw_tsc; last_ref := ref_ns;
                  initialized := true;
                  passthrough_steady_ns := passthrough_steady_ns model |})
    else if passthrough_steady_ns model then
      (Some raw_tsc, {| cfg_ := cfg_ c; models_ := models |})
    else
      let '(model', normalized) :=
        affine_step slope_alpha offset_alpha ref_ns raw_tsc model in
      (B64.to_u64 normalized, store model').

(** The call returns the raw timestamp: calibration is off, or the CPU's
    model is, or is about to be initialised as, a steady-clock passthrough. *)
Definition returns_raw (ref_ns cpu raw_tsc : Z) (c : t) : bool :=
  negb (enabled (cfg_ c))
  || (if initialized (model_of cpu c)
      then passthrough_steady_ns (model_of cpu c)
      else looks_steady ref_ns raw_tsc).

End TscCalibrator.

(** ** Remote-DRAM analyzer (remote_dram_analyzer.h, remote_dram_analyzer.cpp) *)

Module RemoteDramAnalyzer.

Record Key := {
  flow_id : Z;
  numa_node : Z;
  ifindex : Z
}.

#[global] Instance Key_eq_dec : EqDecision Key.
Proof. solve_decision. Defined.

Definition Key_to_tuple (k : Key) : Z * Z * Z := (flow_id k, numa_node k, ifindex k).

Definition Key_of_tuple (t : Z * Z * Z) : Key :=
  let '(a, b, c) := t in {| flow_id := a; numa_node := b; ifindex := c |}.

#[global] Instance Key_countable : Countable Key.
Proof.
  apply (inj_countable' Key_to_tuple Key_of_tuple).
  intros []; reflexivity.
Defined.

Record Entry := {
  count : Z;
  last_tsc : Z
}.

Record RemoteDramFinding := {
  finding_flow_id : Z;
  finding_numa_node : Z;
  finding_ifindex : Z;
  samples : Z
}.

Record t := {
  window_ns_ : Z;
  table_ : gmap Key Entry
}.

Definition make (window_ns : Z) : t :=
  {| window_ns_ := if window_ns =? 0 then 50000000 else window_ns; table_ := ∅ |}.

Definition key_of (s : Sample) : Key :=
  {| flow_id := Common.flow_id s; numa_node := Common.numa_node s;
     ifindex := Common.ingress_ifindex s |}.

(** [table_[key]] default-constructs a missing entry. *)
Definition entry_of (tbl : gmap Key Entry) (key : Key) : Entry :=
  default {| count := 0; last_tsc := 0 |} (tbl !! key).

Definition Observe (s : Sample) (r : t) : t :=
  if negb (Common.pmu_event s =? Common.MS_EVT_REMOTE_DRAM) then r
  else
    let key := key_of s in
    let entry := entry_of (table_ r) key in
    {| window_ns_ := window_ns_ r;
       table_ := <[key := {| count := wrap64 (count entry + 1);
                            last_tsc := Common.tsc s |}]> (table_ r) |}.

(** The eviction test [now_tsc - last_tsc > window_ns_] on unsigned values. *)
Definition expired (now_tsc window_ns : Z) (e : Entry) : bool :=
  wrap64 (now_tsc - last_tsc e) >? window_ns.

Definition finding_of (k : Key) (e : Entry) : RemoteDramFinding :=
  {| finding_flow_id := flow_id k; finding_numa_node := numa_node k;
     finding_ifindex := ifindex k; samples := count e |}.

(** [Flush]; [has_cb] tells whether the callback is non-empty.  The result
    is the analyzer without the evicted entries and the findings handed to
    the callback, in the iteration order of the evicted map. *)
Definition Flush (has_cb : bool) (now_tsc : Z) (r : t) : t * list RemoteDramFinding :=
  if negb has_cb then (r, [])
  else
    let gone := filter (fun kv => expired now_tsc (window_ns_ r) kv.2 = true) (table_ r) in
    let kept := filter (fun kv => expired now_tsc (window_ns_ r) kv.2 <> true) (table_ r) in
    ({| window_ns_ := window_ns_ r; table_ := kept |},
     omap (fun kv => if count kv.2 =? 0 then None else Some (finding_of kv.1 kv.2))
          (map_to_list gone)).

(** A run of [Observe] calls. *)
Definition observe_all (stream : list Sample) (r : t) : t :=
  foldl (fun acc s => Observe s acc) r stream.

(** The remote-DRAM samples of a stream that fall under a key. *)
Definition hits (k : Key) (stream : list Sample) : Z :=
  Z.of_nat (length (List.filter
    (fun s => (Common.pmu_event s =? Common.MS_EVT_REMOTE_DRAM)
              && bool_decide (key_of s = k)) stream)).

End RemoteDramAnalyzer.

(** ** Anomaly monitor (config.h, anomaly_monitor.h, anomaly_monitor.cpp)

    The two detectors [MaybeEmitThroughput] and [MaybeEmitLatency]; the
    polling loop that feeds them reads files and the clock and is not
    modelled.  [refractory_period] is the millisecond count of the
    duration. *)

Module AnomalyMonitor.

Record AnomalyDetectorConfig := {
  throughput_ewma_alpha : spec_float;
  latency_ewma_alpha : spec_float;
  throughput_ratio_trigger : spec_float;
  latency_ratio_trigger : spec_float;
  refractory_period : Z
}.

Definition default_config : AnomalyDetectorConfig :=
  {| throughput_ewma_alpha := B64.lit 1 10;
     latency_ewma_alpha := B64.lit 2 10;
     throughput_ratio_trigger := B64.lit 85 100;
     latency_ratio_trigger := B64.lit 13 10;
     refractory_period := 5000 |}.

Record t := {
  cfg_ : AnomalyDetectorConfig;
  has_callback_ : bool;
  throughput_baseline_ : spec_float;
  throughput_ready_ : bool;
  last_throughput_emit_ : Z;
  latency_baseline_ : spec_float;
  latency_ready_ : bool;
  last_latency_emit_ : Z
}.

Definition make (cfg : AnomalyDetectorConfig) : t :=
  {| cfg_ := cfg; has_callback_ := false;
     throughput_baseline_ := B64.zero; throughput_ready_ := false;
     last_throughput_emit_ := 0;
     latency_baseline_ := B64.zero; latency_ready_ := false;
     last_latency_emit_ := 0 |}.

(** The assignment [callback_ = cb] of [Start]. *)
Definition set_callback (has_cb : bool) (m : t) : t :=
  {| cfg_ := cfg_ m; has_callback_ := has_cb;
     throughput_baseline_ := throughput_baseline_ m;
     throughput_ready_ := throughput_ready_ m;
     last_throughput_emit_ := last_throughput_emit_ m;
     latency_baseline_ := latency_baseline_ m;
     latency_ready_ := latency_ready_ m;
     last_latency_emit_ := last_latency_emit_ m |}.

Definition store_throughput (baseline : spec_float) (last_emit : Z) (m : t) : t :=
  {| cfg_ := cfg_ m; has_callback_ := has_callback_ m;
     throughput_baseline_ := baseline; throughput_ready_ := true;
     last_throughput_emit_ := last_emit;
     latency_baseline_ := latency_baseline_ m;
     latency_ready_ := latency_ready_ m;
     last_latency_emit_ := last_latency_emit_ m |}.

Definition store_latency (baseline : spec_float) (last_emit : Z) (m : t) : t :=
  {| cfg_ := cfg_ m; has_callback_ := has_callback_ m;
     throughput_baseline_ := throughput_baseline_ m;
     throughput_ready_ := throughput_ready_ m;
     last_throughput_emit_ := last_throughput_emit_ m;
     latency_baseline_ := baseline; latency_ready_ := true;
     last_latency_emit_ := last_emit |}.

(** [std::max(a, b)] is [(a < b) ? b : a]. *)
Definition fmax (a b : spec_float) : spec_float := if B64.ltb a b then b else a.

(** [std::clamp(alpha, 0.01, 0.9)] *)
Definition ewma_alpha (alpha : spec_float) : spec_float :=
  TscCalibrator.clamp alpha (B64.lit 1 100) (B64.lit 9 10).

(** [alpha * x + (1.0 - alpha) * baseline] *)
Definition ewma (alpha x baseline : spec_float) : spec_float :=
  B64.add (B64.mul alpha x) (B64.mul (B64.sub B64.one alpha) baseline).

(** The refractory period in nanoseconds, as the unsigned product computes
    it. *)
Definition refractory_ns (cfg : AnomalyDetectorConfig) : Z :=
  wrap64 (wrap64 (refractory_period cfg) * 1000000).

(** The new state and the signal handed to the callback, if any. *)
Definition MaybeEmitThroughput (bps : spec_float) (now_ns : Z) (m : t)
  : t * option ModeController.AnomalySignal :=
  if negb (has_callback_ m) then (m, None)
  else if negb (throughput_ready_ m)
  then (store_throughput bps (last_throughput_emit_ m) m, None)
  else
    let alpha := ewma_alpha (throughput_ewma_alpha (cfg_ m)) in
    let smoothed := ewma alpha bps (throughput_baseline_ m) in
    let baseline := fmax smoothed B64.one in
    let ratio := B64.div bps baseline in
    if B64.ltb ratio (throughput_ratio_trigger (cfg_ m)) then
      if wrap64 (now_ns - last_throughput_emit_ m) <? refractory_ns (cfg_ m)
      then (store_throughput smoothed (last_throughput_emit_ m) m, None)
      else (store_throughput smoothed now_ns m,
            Some {| ModeController.type := ModeController.ThroughputDrop;
                    ModeController.ratio := ratio;
                    ModeController.value := bps;
                    ModeController.timestamp_ns := now_ns |})
    else (store_throughput smoothed (last_throughput_emit_ m) m, None).

Definition MaybeEmitLatency (latency_us : spec_float) (now_ns : Z) (m : t)
  : t * option ModeController.AnomalySignal :=
  if negb (has_callback_ m) then (m, None)
  else if negb (latency_ready_ m)
  then (store_latency latency_us (last_latency_emit_ m) m, None)
  else
    let alpha := ewma_alpha (latency_ewma_alpha (cfg_ m)) in
    let smoothed := ewma alpha latency_us (latency_baseline_ m) in
    let baseline := fmax smoothed B64.one in
    let ratio := B64.div latency_us baseline in
    if B64.ltb (latency_ratio_trigger (cfg_ m)) ratio then
      if wrap64 (now_ns - last_latency_emit_ m) <? refractory_ns (cfg_ m)
      then (store_latency smoothed (last_latency_emit_ m) m, None)
      else (store_latency smoothed now_ns m,
            Some {| ModeController.type := ModeController.LatencySpike;
                    ModeController.ratio := ratio;
                    ModeController.value := latency_us;
                    ModeController.timestamp_ns := now_ns |})
    else (store_latency smoothed (last_latency_emit_ m) m, None).

End AnomalyMonitor.

(** ** PMU rotator (pmu_rotator.h, pmu_rotator.cpp)

    The orchestrator is outside the model: what it reports when
    [RefreshState] asks ([ActiveGroupCount], [CurrentGroupIndex]) and
    whether [RotateToGroup] succeeds are inputs.  A missing orchestrator is
    [None].  The mutex [mu_] is not a member of the state: what it decides,
    which calls of other threads can complete during a pass of the rotation
    loop and whether the pass itself completes, is written out. *)

Module PmuRotator.

Record t := {
  mode_ : AgentMode;
  group_count_ : Z;
  current_index_ : Z;
  mode_dirty_ : bool
}.

Definition make : t :=
  {| mode_ := Sentinel; group_count_ := 0; current_index_ := 0; mode_dirty_ := false |}.

(** The local [scale] of [RefreshState]. *)
Definition scale_of (count : Z) : spec_float :=
  if count >? 0 then B64.of_Z (Z.max 1 count) else B64.one.

(** [RefreshState]: the new state and the argument [on_scale_] is called
    with. *)
Definition RefreshState (orchestrator : option (Z * Z)) (r : t) : t * spec_float :=
  let count := match orchestrator with Some (c, _) => c | None => 0 end in
  let index := match orchestrator with Some (_, i) => i | None => 0 end in
  ({| mode_ := mode_ r; group_count_ := count;
      current_index_ := if count =? 0 then 0 else Z.min index (count - 1);
      mode_dirty_ := false |},
   scale_of count).

(** [UpdateMode], called from another thread: the mode is stored under
    [mu_], then the state is refreshed. *)
Definition UpdateMode (mode : AgentMode) (orchestrator : option (Z * Z)) (r : t) : t :=
  (RefreshState orchestrator
     {| mode_ := mode; group_count_ := group_count_ r;
        current_index_ := current_index_ r; mode_dirty_ := true |}).1.

(** One pass of the loop in [Run] after the wait timed out.  [rotated] is
    the result [RotateToGroup] gives for the index it is asked, and
    [meanwhile] lists the [UpdateMode] calls of other threads that complete
    while the pass has released [mu_] around [RotateToGroup].  The pass
    holds [mu_] again when it looks at the result.  After a failed rotation
    with an orchestrator present it calls [RefreshState], which locks
    [mu_], a non-recursive mutex the calling thread already owns: the call
    never returns and the pass does not complete, which is [None]. *)
Definition rotate (orchestrator : option (Z * Z)) (rotated : Z -> bool)
           (meanwhile : list (AgentMode * option (Z * Z))) (r : t) : option t :=
  if group_count_ r <=? 1 then Some r
  else
    let next := wrap64 (current_index_ r + 1) mod group_count_ r in
    let ok := match orchestrator with Some _ => rotated next | None => false end in
    let r := foldl (fun r call => UpdateMode call.1 call.2 r) r meanwhile in
    if ok
    then Some {| mode_ := mode_ r; group_count_ := group_count_ r;
                 current_index_ := next; mode_dirty_ := mode_dirty_ r |}
    else match orchestrator with
         | Some _ => None
         | None => Some r
         end.

(** What can happen to a rotator: a refresh ([Start], [UpdateMode]) or a
    pass of the rotation loop, each with what the orchestrator answers. *)
Inductive event :=
| Refresh (orchestrator : option (Z * Z))
| Rotate (orchestrator : option (Z * Z)) (rotated : Z -> bool)
         (meanwhile : list (AgentMode * option (Z * Z))).

Definition step (r : t) (ev : event) : option t :=
  match ev with
  | Refresh o => Some (RefreshState o r).1
  | Rotate o ok meanwhile => rotate o ok meanwhile r
  end.

(** The events in order; [None] once a pass does not complete. *)
Definition run (events : list event) (r : t) : option t :=
  foldl (fun acc ev => match acc with Some r => step r ev | None => None end)
        (Some r) events.

(** The orchestrator reports a size and an index that fit [size_t]. *)
Definition event_ok (ev : event) : Prop :=
  match ev with
  | Refresh (Some (c, i)) | Rotate (Some (c, i)) _ _ =>
      0 <= c <= UINT64_MAX /\ 0 <= i <= UINT64_MAX
  | _ => True
  end.

End PmuRotator.

(** ** Agent runtime (config.h, runtime.h, runtime.cpp)

    The members the sample path, the flush cycle and the control callbacks
    read and write.  The metrics exporter and the BPF orchestrator are only
    written to on these paths and are left out.  The ClickHouse sink is
    outside the model too: the runtime keeps whether it has one, the rows the
    sample path passes to [EnqueueRawSample] are an output, and what the sink
    does with them (batching, flushing when the batch is full or on its
    timer) is not described.  The constructor always creates the
    aggregator, the false-sharing detector and the mode controller, which
    the code dereferences unchecked; the members it tests before use are
    options. *)

Module AgentRuntime.

Inductive SafetyLevel := Normal | ShedHeavy.

#[global] Instance SafetyLevel_eq_dec : EqDecision SafetyLevel.
Proof. solve_decision. Defined.

(** The fields of [PerfConsumerConfig] used here. *)
Record PerfConsumerConfig := {
  sentinel_sample_budget : Z;
  diagnostic_sample_budget : Z;
  hard_drop_ns : Z;
  safety_high_watermark : spec_float;
  safety_low_watermark : spec_float;
  shed_event_limit : Z
}.

Definition default_perf : PerfConsumerConfig :=
  {| sentinel_sample_budget := 5000; diagnostic_sample_budget := 20000;
     hard_drop_ns := Common.MS_FLOW_SKID_NS * 4;
     safety_high_watermark := B64.lit 95 100;
     safety_low_watermark := B64.lit 75 100;
     shed_event_limit := 1 |}.

(** The arguments of one [EnqueueRawSample] call. *)
Record RawRow := {
  row_sample : Sample;
  row_stack : LbrStack;
  row_norm_cost : spec_float
}.

Record t := {
  perf : PerfConsumerConfig;
  aggregator_ : Aggregator.t;
  fs_detector_ : FalseSharingDetector.t;
  mode_controller_ : ModeController.t;
  ch_sink_ : bool;
  tsc_calibrator_ : option TscCalibrator.t;
  skew_adjuster_ : option SkewAdjuster.t;
  target_manager_ : option MonitoringTargetManager.t;
  remote_dram_analyzer_ : option RemoteDramAnalyzer.t;
  current_mode_ : AgentMode;
  bucket_state_ : BucketUpdate.BucketState;
  safety_level_ : SafetyLevel;
  samples_total_ : Z
}.

(** The members [EmitReadySample] writes. *)
Definition with_sample_path
           (rd : option RemoteDramAnalyzer.t)
           (agg : Aggregator.t) (fs : FalseSharingDetector.t) (total : Z) (rt : t) : t :=
  {| perf := perf rt; aggregator_ := agg; fs_detector_ := fs;
     mode_controller_ := mode_controller_ rt; ch_sink_ := ch_sink_ rt;
     tsc_calibrator_ := tsc_calibrator_ rt; skew_adjuster_ := skew_adjuster_ rt;
     target_manager_ := target_manager_ rt; remote_dram_analyzer_ := rd;
     current_mode_ := current_mode_ rt; bucket_state_ := bucket_state_ rt;
     safety_level_ := safety_level_ rt; samples_total_ := total |}.

(** The members [HandleSample] writes before emitting. *)
Definition with_front_end
           (cal : option TscCalibrator.t) (skew : option SkewAdjuster.t) (rt : t) : t :=
  {| perf := perf rt; aggregator_ := aggregator_ rt; fs_detector_ := fs_detector_ rt;
     mode_controller_ := mode_controller_ rt; ch_sink_ := ch_sink_ rt;
     tsc_calibrator_ := cal; skew_adjuster_ := skew;
     target_manager_ := target_manager_ rt;
     remote_dram_analyzer_ := remote_dram_analyzer_ rt;
     current_mode_ := current_mode_ rt; bucket_state_ := bucket_state_ rt;
     safety_level_ := safety_level_ rt; samples_total_ := samples_total_ rt |}.

Definition with_mode (mode : AgentMode) (ctl : ModeController.t) (rt : t) : t :=
  {| perf := perf rt; aggregator_ := aggregator_ rt; fs_detector_ := fs_detector_ rt;
     mode_controller_ := ctl; ch_sink_ := ch_sink_ rt;
     tsc_calibrator_ := tsc_calibrator_ rt; skew_adjuster_ := skew_adjuster_ rt;
     target_manager_ := target_manager_ rt;
     remote_dram_analyzer_ := remote_dram_analyzer_ rt;
     current_mode_ := mode; bucket_state_ := bucket_state_ rt;
     safety_level_ := safety_level_ rt; samples_total_ := samples_total_ rt |}.

Definition with_budgets (p : PerfConsumerConfig) (st : BucketUpdate.BucketState) (rt : t) : t :=
  {| perf := p; aggregator_ := aggregator_ rt; fs_detector_ := fs_detector_ rt;
     mode_controller_ := mode_controller_ rt; ch_sink_ := ch_sink_ rt;
     tsc_calibrator_ := tsc_calibrator_ rt; skew_adjuster_ := skew_adjuster_ rt;
     target_manager_ := target_manager_ rt;
     remote_dram_analyzer_ := remote_dram_analyzer_ rt;
     current_mode_ := current_mode_ rt; bucket_state_ := st;
     safety_level_ := safety_level_ rt; samples_total_ := samples_total_ rt |}.

Definition with_safety (level : SafetyLevel) (rt : t) : t :=
  {| perf := perf rt; aggregator_ := aggregator_ rt; fs_detector_ := fs_detector_ rt;
     mode_controller_ := mode_controller_ rt; ch_sink_ := ch_sink_ rt;
     tsc_calibrator_ := tsc_calibrator_ rt; skew_adjuster_ := skew_adjuster_ rt;
     target_manager_ := target_manager_ rt;
     remote_dram_analyzer_ := remote_dram_analyzer_ rt;
     current_mode_ := current_mode_ rt; bucket_state_ := bucket_state_ rt;
     safety_level_ := level; samples_total_ := samples_total_ rt |}.

(** The local [norm] of [EmitReadySample]. *)
Definition raw_norm (agg : Aggregator.t) (sample : Sample) : spec_float :=
  let norm := Aggregator.SampleScale agg in
  if Common.gso_segs sample >? 1
  then B64.div norm (B64.of_Z (Common.gso_segs sample))
  else norm.

(** [EmitReadySample]: the new runtime and the [EnqueueRawSample] call it
    makes, if any. *)
Definition EmitReadySample (sample : Sample) (stack : LbrStack) (rt : t)
  : t * list RawRow :=
  if match target_manager_ rt with
     | Some tm => negb (MonitoringTargetManager.Allow sample tm)
     | None => false
     end
  then (rt, [])
  else
    let rd := option_map (RemoteDramAnalyzer.Observe sample) (remote_dram_analyzer_ rt) in
    let norm := raw_norm (aggregator_ rt) sample in
    let enqueued :=
      if ch_sink_ rt
      then [ {| row_sample := sample; row_stack := stack; row_norm_cost := norm |} ]
      else [] in
    let agg := Aggregator.AddSample sample stack (aggregator_ rt) in
    let fs := FalseSharingDetector.Observe sample (fs_detector_ rt) in
    (with_sample_path rd agg fs (wrap64 (samples_total_ rt + 1)) rt, enqueued).

(** The [emit] calls for the bundles a skew-adjuster call hands back: the
    new runtime and the [EnqueueRawSample] calls, in order. *)
Definition emit_all (ready : list SkewAdjuster.Bundle) (rt : t) : t * list RawRow :=
  foldl (fun acc b =>
           let '(rt, enqueued) :=
             EmitReadySample (SkewAdjuster.sample b) (SkewAdjuster.stack b) acc.1 in
           (rt, acc.2 ++ enqueued))
        (rt, []) ready.

(** Assignment to [normalized.tsc]. *)
Definition set_tsc (tsc : Z) (s : Sample) : Sample :=
  {| Common.tsc := tsc; Common.cpu := Common.cpu s;
     Common.pid := Common.pid s; Common.tid := Common.tid s;
     Common.pmu_event := Common.pmu_event s; Common.ip := Common.ip s;
     Common.data_addr := Common.data_addr s; Common.flow_id := Common.flow_id s;
     Common.gso_segs := Common.gso_segs s;
     Common.ingress_ifindex := Common.ingress_ifindex s;
     Common.numa_node := Common.numa_node s;
     Common.l4_proto := Common.l4_proto s;
     Common.direction := Common.direction s;
     Common.lbr_nr := Common.lbr_nr s; Common.pad0 := Common.pad0 s;
     Common.lbr := Common.lbr s |}.

(** [HandleSample]; [ref_ns] is the clock reading inside [Normalize].  The
    result is [None] where the calibrator's conversion is undefined,
    otherwise the new runtime and the [EnqueueRawSample] calls. *)
Definition HandleSample (ref_ns : Z) (sample : Sample) (lbr : LbrStack) (rt : t)
  : option (t * list RawRow) :=
  let normalized :=
    match tsc_calibrator_ rt with
    | None => Some (sample, None)
    | Some cal =>
        let '(tsc, cal') :=
          TscCalibrator.Normalize ref_ns (Common.cpu sample) (Common.tsc sample) cal in
        option_map (fun v => (set_tsc v sample, Some cal')) tsc
    end in
  match normalized with
  | None => None
  | Some (normalized, cal) =>
      match skew_adjuster_ rt with
      | Some skew =>
          let '(skew', ready) := SkewAdjuster.Process normalized lbr skew in
          Some (emit_all ready (with_front_end cal (Some skew') rt))
      | None =>
          Some (EmitReadySample normalized lbr (with_front_end cal None rt))
      end
  end.

(** [HandleBucketUpdate]: the new runtime and the outcome that decides
    whether the kernel bucket is reprogrammed. *)
Definition HandleBucketUpdate (req : BucketUpdate.BucketUpdateRequest) (rt : t)
  : t * BucketUpdate.BucketUpdateOutcome :=
  let '(outcome, st) :=
    BucketUpdate.ApplyBucketUpdate req (current_mode_ rt) (bucket_state_ rt) in
  (with_budgets
     {| sentinel_sample_budget := BucketUpdate.sentinel_budget st;
        diagnostic_sample_budget := BucketUpdate.diagnostic_budget st;
        hard_drop_ns := BucketUpdate.hard_drop_ns st;
        safety_high_watermark := safety_high_watermark (perf rt);
        safety_low_watermark := safety_low_watermark (perf rt);
        shed_event_limit := shed_event_limit (perf rt) |}
     st rt,
   outcome).

(** The local [desired] of [MaybeAdjustSafety]. *)
Definition desired_level (high low ratio : spec_float) (current : SafetyLevel) : SafetyLevel :=
  if B64.ltb B64.zero high && B64.ltb high ratio then ShedHeavy
  else if B64.ltb B64.zero low && B64.ltb ratio low then Normal
  else current.

(** [MaybeAdjustSafety]: the new runtime and, when the level changes, the
    limit passed to [SetMaxEventsPerGroup]. *)
Definition MaybeAdjustSafety (ratio : spec_float) (rt : t) : t * option Z :=
  let current := safety_level_ rt in
  let desired :=
    desired_level (safety_high_watermark (perf rt)) (safety_low_watermark (perf rt))
                  ratio current in
  if bool_decide (desired = current) then (rt, None)
  else
    (with_safety desired rt,
     Some (match desired with
           | ShedHeavy => Z.max 1 (shed_event_limit (perf rt))
           | Normal => 0
           end)).

Definition ApplyMode (mode : AgentMode) (rt : t) : t :=
  with_mode mode (ModeController.Force mode (mode_controller_ rt)) rt.

(** [now] is the clock reading inside [NotifyAnomaly]. *)
Definition HandleAnomaly (now : Z) (signal : ModeController.AnomalySignal) (rt : t) : t :=
  let ctl := ModeController.NotifyAnomaly now signal (mode_controller_ rt) in
  let rt := with_mode (current_mode_ rt) ctl rt in
  let updated := ModeController.Mode ctl in
  if bool_decide (updated = current_mode_ rt) then rt else ApplyMode updated rt.

(** The local [ratio] of [RunSingleFlushCycle]; [interval] is the
    millisecond count. *)
Definition budget_ratio (flushed_samples interval : Z) (rt : t) : spec_float :=
  let seconds := B64.div (B64.of_Z interval) (B64.of_Z 1000) in
  let samples_per_sec := B64.div (B64.of_Z flushed_samples) seconds in
  let budget :=
    match current_mode_ rt with
    | Sentinel => B64.of_Z (sentinel_sample_budget (perf rt))
    | Diagnostic => B64.of_Z (diagnostic_sample_budget (perf rt))
    end in
  if B64.ltb B64.zero budget then B64.div samples_per_sec budget else B64.one.

(** What a flush cycle hands to the sink and the exporter. *)
Record FlushOutput := {
  rollups : list (Aggregator.AggregationKey * Aggregator.AggregatedValue);
  false_sharing : list FalseSharingDetector.FalseSharingFinding;
  remote_dram : list RemoteDramAnalyzer.RemoteDramFinding;
  events_limit : option Z
}.

(** [RunSingleFlushCycle]; [now_ns] is the clock reading at its head,
    [update_now] the one inside [ModeController::Update]. *)
Definition RunSingleFlushCycle (now_ns update_now interval : Z) (rt : t) : t * FlushOutput :=
  let '(calls, flushed_samples, agg) := Aggregator.Flush (aggregator_ rt) in
  let rt := with_sample_path (remote_dram_analyzer_ rt) agg
                             (fs_detector_ rt) (samples_total_ rt) rt in
  let '(rt, limit) :=
    if flushed_samples >? 0 then
      let ratio := budget_ratio flushed_samples interval rt in
      let '(rt, limit) := MaybeAdjustSafety ratio rt in
      let ctl := ModeController.Update update_now ratio (mode_controller_ rt) in
      let rt := with_mode (current_mode_ rt) ctl rt in
      let updated := ModeController.Mode ctl in
      (if bool_decide (updated = current_mode_ rt) then rt else ApplyMode updated rt, limit)
    else (rt, None) in
  let '(fs, fs_findings) := FalseSharingDetector.Flush now_ns (fs_detector_ rt) in
  let '(rd, rd_findings) :=
    match remote_dram_analyzer_ rt with
    | Some rd =>
        let '(rd', found) := RemoteDramAnalyzer.Flush true now_ns rd in (Some rd', found)
    | None => (None, [])
    end in
  (with_sample_path rd (aggregator_ rt) fs (samples_total_ rt) rt,
   {| rollups := calls; false_sharing := fs_findings; remote_dram := rd_findings;
      events_limit := limit |}).

(** The fields of [AgentConfig] the constructor uses for these members. *)
Record AgentConfig := {
  cfg_perf : PerfConsumerConfig;
  cfg_aggregator : Aggregator.AggregatorConfig;
  cfg_thresholds : ModeController.ModeThresholds;
  cfg_anomaly : AnomalyMonitor.AnomalyDetectorConfig;
  cfg_tsc_calibration : TscCalibrator.TscCalibrationConfig;
  diagnostic_mode : bool
}.

(** The thresholds the constructor hands to the mode controller: the
    anomaly section overrides the triggers and the quiet period where it
    sets them. *)
Definition controller_thresholds (cfg : AgentConfig) : ModeController.ModeThresholds :=
  let anomaly := cfg_anomaly cfg in
  let th := cfg_thresholds cfg in
  {| ModeController.sentinel_to_diag := ModeController.sentinel_to_diag th;
     ModeController.diag_to_sentinel := ModeController.diag_to_sentinel th;
     ModeController.throughput_ratio_trigger :=
       if B64.ltb B64.zero (AnomalyMonitor.throughput_ratio_trigger anomaly)
       then AnomalyMonitor.throughput_ratio_trigger anomaly
       else ModeController.throughput_ratio_trigger th;
     ModeController.latency_ratio_trigger :=
       if B64.ltb B64.zero (AnomalyMonitor.latency_ratio_trigger anomaly)
       then AnomalyMonitor.latency_ratio_trigger anomaly
       else ModeController.latency_ratio_trigger th;
     ModeController.anomaly_quiet_period :=
       if AnomalyMonitor.refractory_period anomaly >? 0
       then AnomalyMonitor.refractory_period anomaly
       else ModeController.anomaly_quiet_period th |}.

(** The bucket state the constructor derives from the configuration. *)
Definition initial_bucket_state (p : PerfConsumerConfig) : BucketUpdate.BucketState :=
  {| BucketUpdate.sentinel_budget := sentinel_sample_budget p;
     BucketUpdate.diagnostic_budget :=
       if diagnostic_sample_budget p <? sentinel_sample_budget p
       then sentinel_sample_budget p else diagnostic_sample_budget p;
     BucketUpdate.hard_drop_ns := hard_drop_ns p |}.

(** The constructor; [symbolizer] stands for the symbolizer it creates. *)
Definition make (symbolizer : Symbolizer.t) (cfg : AgentConfig) : t :=
  let st := initial_bucket_state (cfg_perf cfg) in
  let mode := if diagnostic_mode cfg then Diagnostic else Sentinel in
  {| perf :=
       {| sentinel_sample_budget := sentinel_sample_budget (cfg_perf cfg);
          diagnostic_sample_budget := BucketUpdate.diagnostic_budget st;
          hard_drop_ns := hard_drop_ns (cfg_perf cfg);
          safety_high_watermark := safety_high_watermark (cfg_perf cfg);
          safety_low_watermark := safety_low_watermark (cfg_perf cfg);
          shed_event_limit := shed_event_limit (cfg_perf cfg) |};
     aggregator_ :=
       Aggregator.SetSampleScale B64.one
         (Aggregator.AttachSymbolizer (Some symbolizer)
            (Aggregator.make (cfg_aggregator cfg)));
     fs_detector_ := FalseSharingDetector.make (Some symbolizer) 50000000 100;
     mode_controller_ :=
       ModeController.Force mode (ModeController.make (controller_thresholds cfg));
     ch_sink_ := true;
     tsc_calibrator_ :=
       if TscCalibrator.enabled (cfg_tsc_calibration cfg)
       then Some (TscCalibrator.make (cfg_tsc_calibration cfg)) else None;
     skew_adjuster_ := Some (SkewAdjuster.make Common.MS_FLOW_SKID_NS 4);
     target_manager_ := Some MonitoringTargetManager.make;
     remote_dram_analyzer_ := Some (RemoteDramAnalyzer.make 50000000);
     current_mode_ := mode;
     bucket_state_ := st;
     safety_level_ := Normal;
     samples_total_ := 0 |}.

(** The requests the runtime serves between two flush cycles. *)
Inductive request :=
| SetMode (mode : AgentMode)
| Anomaly (now : Z) (signal : ModeController.AnomalySignal)
| Budget (req : BucketUpdate.BucketUpdateRequest)
| FlushCycle (now_ns update_now interval : Z).

Definition serve (rt : t) (r : request) : t :=
  match r with
  | SetMode mode => ApplyMode mode rt
  | Anomaly now signal => HandleAnomaly now signal rt
  | Budget req => (HandleBucketUpdate req rt).1
  | FlushCycle now_ns update_now interval =>
      (RunSingleFlushCycle now_ns update_now interval rt).1
  end.

Definition serve_all (requests : list request) (rt : t) : t := foldl serve rt requests.

(** The accepted samples of a list of ready bundles. *)
Definition accepted (tm : option MonitoringTargetManager.t) (ready : list SkewAdjuster.Bundle)
  : list SkewAdjuster.Bundle :=
  List.filter
    (fun b => match tm with
              | Some tm => MonitoringTargetManager.Allow (SkewAdjuster.sample b) tm
              | None => true
              end) ready.

End AgentRuntime.

(** ** Text escaping (clickhouse_sink.cpp, runtime.cpp) *)

Module Escaping.

Definition quote : ascii := ascii_of_nat 34.
Definition backslash : ascii := ascii_of_nat 92.
Definition newline : ascii := ascii_of_nat 10.
Definition carriage_return : ascii := ascii_of_nat 13.
Definition tab : ascii := ascii_of_nat 9.

Fixpoint JsonEscape (value : string) : string :=
  match value with
  | EmptyString => EmptyString
  | String c rest =>
      let out := JsonEscape rest in
      if Ascii.eqb c backslash then String backslash (String backslash out)
      else if Ascii.eqb c quote then String backslash (String quote out)
      else if Ascii.eqb c newline then String backslash (String "n" out)
      else if Ascii.eqb c carriage_return then String backslash (String "r" out)
      else if Ascii.eqb c tab then String backslash (String "t" out)
      else String c out
  end.

(** Reading an escaped string back; used to show that escaping loses
    nothing. *)
Fixpoint json_unescape (s : string) : string :=
  match s with
  | EmptyString => EmptyString
  | String c EmptyString => String c EmptyString
  | String c (String d rest as tail) =>
      if Ascii.eqb c backslash then
        String (if Ascii.eqb d "n" then newline
                else if Ascii.eqb d "r" then carriage_return
                else if Ascii.eqb d "t" then tab
                else d)
               (json_unescape rest)
      else String c (json_unescape tail)
  end.

(** [std::iscntrl] in the C locale. *)
Definition iscntrl (c : ascii) : bool :=
  let n := N_of_ascii c in ((n <? 32) || (n =? 127))%N.

(** The loop of [EscapePromLabel]. *)
Fixpoint escape_label (value : string) : string :=
  match value with
  | EmptyString => EmptyString
  | String c rest =>
      let out := escape_label rest in
      let out := if iscntrl c then out else String c out in
      if Ascii.eqb c quote || Ascii.eqb c backslash then String backslash out else out
  end.

Definition EscapePromLabel (value : string) : string :=
  match escape_label value with
  | EmptyString => "unknown"
  | out => out
  end.

(** A character occurs in a string. *)
Fixpoint occurs (c : ascii) (s : string) : bool :=
  match s with
  | EmptyString => false
  | String d rest => Ascii.eqb c d || occurs c rest
  end.

(** Every quote of the string follows a backslash that escapes it. *)
Fixpoint quotes_escaped (s : string) : bool :=
  match s with
  | EmptyString => true
  | String c rest =>
      if Ascii.eqb c quote then false
      else if Ascii.eqb c backslash then
        match rest with
        | EmptyString => false
        | String _ rest' => quotes_escaped rest'
        end
      else quotes_escaped rest
  end.

End Escaping.

(** ** Runs of the aggregator *)

Module AggregatorRuns.

Import Aggregator.

(** The samples of a stream that fall under a key. *)
Definition key_count (a : Aggregator.t) (k : AggregationKey)
           (stream : list (Sample * LbrStack)) : Z :=
  Z.of_nat (length (List.filter (fun sl => bool_decide (make_key a sl.1 sl.2 = k)) stream)).
End AggregatorRuns.

(** ** Runs of the token-bucket update *)

Module BucketUpdateRuns.

Import BucketUpdate.

(** No budget and no drop interval is zero. *)
Definition positive_state (st : BucketState) : Prop :=
  0 < sentinel_budget st /\ 0 < diagnostic_budget st /\ 0 < hard_drop_ns st.

End BucketUpdateRuns.

(** ** Runs of the skew adjuster *)

Module SkewAdjusterRuns.

Import SkewAdjuster.

(** One [Process] call on top of what was emitted so far. *)
Definition process_step (acc : SkewAdjuster.t * list Bundle) (b : Bundle)
  : SkewAdjuster.t * list Bundle :=
  let '(st, ready) := Process (sample b) (stack b) acc.1 in (st, acc.2 ++ ready).

(** Feeding a stream of samples: the final state and everything handed to
    [emit], in order. *)
Definition process_all (inputs : list Bundle) (a : SkewAdjuster.t)
  : SkewAdjuster.t * list Bundle :=
  foldl process_step (a, []) inputs.

Definition cpu_of (b : Bundle) : Z := Common.cpu (sample b).

(** The bundles of one CPU, in order. *)
Definition on_cpu (c : Z) (l : list Bundle) : list Bundle :=
  List.filter (fun b => cpu_of b =? c) l.

(** Every window holds samples of its own CPU only. *)
Definition windows_sorted (per_cpu : list (list Bundle)) (first : nat) : Prop :=
  forall i w, per_cpu !! i = Some w -> Forall (fun b => cpu_of b = Z.of_nat (first + i)) w.

End SkewAdjusterRuns.

(** ** Runs of the false-sharing detector *)

Module FalseSharingRuns.

Import FalseSharingDetector.

(** A run of [Observe] calls. *)
Definition observe_all (stream : list Sample) (d : FalseSharingDetector.t)
  : FalseSharingDetector.t :=
  foldl (fun acc s => Observe s acc) d stream.

Definition sum_hits (hits : list Z) : Z := foldr Z.add 0 hits.

Definition sum_pid_hits (pids : gmap Z Z) : Z := sum_hits (map_to_list pids).*2.

(** The counters of a line agree: the total, the per-CPU hits and the
    per-process hits count the same observations, at most [n] of them. *)
Definition stats_ok (n : Z) (st : Stats) : Prop :=
  0 <= total_hits st <= n
  /\ Forall (fun h => 0 <= h) (cpu_hits st)
  /\ sum_hits (cpu_hits st) = total_hits st
  /\ map_Forall (fun _ h => 0 <= h) (pid_hits st)
  /\ sum_pid_hits (pid_hits st) = total_hits st.

End FalseSharingRuns.

(** ** Runs of the time calibrator *)

Module TscCalibratorRuns.

Import TscCalibrator.

(** A call of [Normalize]: the clock reading inside it, the CPU and the raw
    timestamp. *)
Record call := {
  call_ref_ns : Z;
  call_cpu : Z;
  call_raw_tsc : Z
}.

(** The calibrator after a run of calls. *)
Definition normalize_all (calls : list call) (c : TscCalibrator.t) : TscCalibrator.t :=
  foldl (fun acc k => (Normalize (call_ref_ns k) (call_cpu k) (call_raw_tsc k) acc).2)
        c calls.

End TscCalibratorRuns.

(** ** Runs of the anomaly monitor *)

Module AnomalyMonitorRuns.

Import AnomalyMonitor.

(** What the polling loop feeds the detectors. *)
Inductive reading :=
| Throughput (bps : spec_float) (now_ns : Z)
| Latency (latency_us : spec_float) (now_ns : Z).

Definition reading_time (r : reading) : Z :=
  match r with Throughput _ now_ns | Latency _ now_ns => now_ns end.

Definition detect (r : reading) (m : AnomalyMonitor.t)
  : AnomalyMonitor.t * option ModeController.AnomalySignal :=
  match r with
  | Throughput bps now_ns => MaybeEmitThroughput bps now_ns m
  | Latency latency_us now_ns => MaybeEmitLatency latency_us now_ns m
  end.

(** The monitor after a run of readings and the signals handed to the
    callback, in order. *)
Definition feed (acc : AnomalyMonitor.t * list ModeController.AnomalySignal) (r : reading)
  : AnomalyMonitor.t * list ModeController.AnomalySignal :=
  let '(m, signal) := detect r acc.1 in
  (m, acc.2 ++ match signal with Some s => [s] | None => [] end).

Definition feed_all (readings : list reading) (m : AnomalyMonitor.t)
  : AnomalyMonitor.t * list ModeController.AnomalySignal :=
  foldl feed (m, []) readings.

(** The last emission stamp of the detector a signal type belongs to. *)
Definition last_emit (ty : ModeController.AnomalyType) (m : AnomalyMonitor.t) : Z :=
  match ty with
  | ModeController.ThroughputDrop => last_throughput_emit_ m
  | ModeController.LatencySpike => last_latency_emit_ m
  end.

End AnomalyMonitorRuns.

(** ** Invariant of the PMU rotator *)

Module PmuRotatorRuns.

Import PmuRotator.

(** The current index addresses one of the active groups; it is 0 when
    there is none. *)
Definition index_ok (r : PmuRotator.t) : Prop :=
  0 <= group_count_ r
  /\ 0 <= current_index_ r
  /\ (group_count_ r = 0 -> current_index_ r = 0)
  /\ (0 < group_count_ r -> current_index_ r < group_count_ r).

(** Sizes that fit [size_t]. *)
Definition count_fits (r : PmuRotator.t) : Prop := group_count_ r <= UINT64_MAX.

(** No other thread updates the mode while the pass has released [mu_]. *)
Definition undisturbed (ev : event) : Prop :=
  match ev with
  | Rotate _ _ meanwhile => meanwhile = []
  | Refresh _ => True
  end.

(** The orchestrator, when there is one, accepts every group it is asked
    to rotate to. *)
Definition rotation_accepted (ev : event) : Prop :=
  match ev with
  | Rotate (Some _) rotated _ => forall next, rotated next = true
  | _ => True
  end.

(** The group after the current one, the first after the last. *)
Definition successor (r : PmuRotator.t) : Z :=
  if current_index_ r + 1 =? group_count_ r then 0 else current_index_ r + 1.

End PmuRotatorRuns.

(** ** Invariants of the agent runtime *)

Module AgentRuntimeRuns.

Import AgentRuntime.

(** The runtime's copy of the mode is the controller's mode, the controller
    keeps the thresholds it was built with, and the configured budgets
    mirror the bucket state. *)
Definition in_sync (th : ModeController.ModeThresholds) (rt : AgentRuntime.t) : Prop :=
  current_mode_ rt = ModeController.Mode (mode_controller_ rt)
  /\ ModeController.thresholds_ (mode_controller_ rt) = th
  /\ sentinel_sample_budget (perf rt) = BucketUpdate.sentinel_budget (bucket_state_ rt)
  /\ diagnostic_sample_budget (perf rt) = BucketUpdate.diagnostic_budget (bucket_state_ rt)
  /\ hard_drop_ns (perf rt) = BucketUpdate.hard_drop_ns (bucket_state_ rt).

(** The row the sink receives for a bundle. *)
Definition row_of (agg : Aggregator.t) (b : SkewAdjuster.Bundle) : RawRow :=
  {| row_sample := SkewAdjuster.sample b; row_stack := SkewAdjuster.stack b;
     row_norm_cost := Aggregator.sample_weight agg (SkewAdjuster.sample b) |}.

Definition pair_of (b : SkewAdjuster.Bundle) : Sample * LbrStack :=
  (SkewAdjuster.sample b, SkewAdjuster.stack b).

(** A symbolizer that interns every address as itself. *)
Definition plain_symbolizer : Symbolizer.t :=
  {| Symbolizer.InternFunction := fun _ ip => ip;
     Symbolizer.InternStack := fun _ ip _ => ip;
     Symbolizer.InternDataObject := fun _ addr => addr;
     Symbolizer.ResolveData := fun _ _ => Symbolizer.empty_DataObject |}.

Definition default_config : AgentConfig :=
  {| cfg_perf := default_perf;
     cfg_aggregator := {| Aggregator.time_window_ns := 5000000;
                          Aggregator.max_entries := 200000 |};
     cfg_thresholds := ModeController.default_thresholds;
     cfg_anomaly := AnomalyMonitor.default_config;
     cfg_tsc_calibration := TscCalibrator.default_config;
     diagnostic_mode := false |}.

End AgentRuntimeRuns.

(** ** Ring sizing of the perf consumer (perf_consumer.cpp) *)

Module PerfConsumer.

Definition kDefaultRingPages : Z := 8.

(** The loop [while (normalized < pages) normalized <<= 1] on [size_t],
    run for at most [fuel] iterations; [None] when they do not suffice. *)
Fixpoint normalize_loop (fuel : nat) (normalized pages : Z) : option Z :=
  if normalized <? pages then
    match fuel with
    | O => None
    | S fuel => normalize_loop fuel (wrap64 (Z.shiftl normalized 1)) pages
    end
  else Some normalized.

Definition NormalizeRingPages (fuel : nat) (pages : Z) : option Z :=
  let pages := if pages =? 0 then kDefaultRingPages else pages in
  normalize_loop fuel 1 pages.

End PerfConsumer.

(** ** Budget requests of the control plane (control_plane.cpp)

    [ExtractJsonUint] searches the request body; here it is the function
    from a key to the value found under it, [None] when the search or the
    conversion fails. *)

Module ControlPlane.

Section WithBody.

Variable ExtractJsonUint : string -> option Z.

(** The test [ok && value > 0] after an extraction. *)
Definition positive (key : string) : option Z :=
  match ExtractJsonUint key with
  | Some v => if v >? 0 then Some v else None
  | None => None
  end.

(** [HandleBudgetRequest]: the request handed to the budget callback, or
    [None] when the handler returns false. *)
Definition HandleBudgetRequest (has_on_budget : bool)
  : option BucketUpdate.BucketUpdateRequest :=
  if negb has_on_budget then None
  else
    let sentinel := positive "sentinel_samples_per_sec" in
    let diag := positive "diagnostic_samples_per_sec" in
    let hard_drop := positive "hard_drop_ns" in
    let req :=
      {| BucketUpdate.has_sentinel := bool_decide (is_Some sentinel);
         BucketUpdate.req_sentinel_budget := default 0 sentinel;
         BucketUpdate.has_diagnostic := bool_decide (is_Some diag);
         BucketUpdate.req_diagnostic_budget := default 0 diag;
         BucketUpdate.has_hard_drop := bool_decide (is_Some hard_drop);
         BucketUpdate.req_hard_drop_ns := default 0 hard_drop |} in
    let any := bool_decide (is_Some sentinel) || bool_decide (is_Some diag)
               || bool_decide (is_Some hard_drop) in
    if any then Some req
    else
      match ExtractJsonUint "samples_per_sec" with
      | None => None
      | Some legacy =>
          if legacy =? 0 then None
          else Some {| BucketUpdate.has_sentinel := true;
                       BucketUpdate.req_sentinel_budget := legacy;
                       BucketUpdate.has_diagnostic := false;
                       BucketUpdate.req_diagnostic_budget := 0;
                       BucketUpdate.has_hard_drop := false;
                       BucketUpdate.req_hard_drop_ns := 0 |}
      end.

End WithBody.

(** A body that carries the given keys. *)
Definition body_of (fields : list (string * Z)) : string -> option Z :=
  fun key => snd <$> List.find (fun kv => String.eqb kv.1 key) fields.

End ControlPlane.

(** ** Snapshot of the time calibrator (tsc_calibrator.cpp) *)

Module TscCalibratorSnapshot.

Import TscCalibrator.

(** One callback invocation of [Snapshot]. *)
Record entry := {
  entry_cpu : Z;
  entry_slope : spec_float;
  entry_offset_ns : spec_float
}.

(** The loop body for index [cpu]. *)
Definition report (cpu : nat) (model : CpuModel) : option entry :=
  if initialized model
  then Some {| entry_cpu := Z.of_nat cpu; entry_slope := slope model;
               entry_offset_ns := offset model |}
  else None.

(** [Snapshot]; [has_cb] tells whether the callback is non-empty.  The loop
    counter is a [uint32_t]: with 2^32 models or more it never reaches the
    size and the call does not return ([None]). *)
Definition Snapshot (has_cb : bool) (c : TscCalibrator.t) : option (list entry) :=
  if negb has_cb then Some []
  else if 4294967296 <=? Z.of_nat (length (models_ c)) then None
  else Some (omap (fun im => report im.1 im.2) (imap pair (models_ c))).

End TscCalibratorSnapshot.

(** * Properties *)

(** ** Facts about binary64 needed below *)

Section B64Facts.

(** The literals of the source as bit patterns: 0.9 is 0x3FECCCCCCCCCCCCD,
    0.001 is 0x3F50624DD2F1A9FC, 1.0 is 0x3FF0000000000000. *)
Example lit_nine_tenths : B64.lit 9 10 = S754_finite false 8106479329266893 (-53).
Proof. vm_compute. reflexivity. Qed.

Example lit_one_thousandth : B64.lit 1 1000 = S754_finite false 4611686018427388 (-62).
Proof. vm_compute. reflexivity. Qed.

Example of_Z_one : B64.of_Z 1 = B64.one.
Proof. vm_compute. reflexivity. Qed.

(** The conversion to [uint64_t] truncates; it is undefined on negative
    values below -1 and from [2^64] on. *)
Example to_u64_truncates :
  (B64.to_u64 (B64.lit 7 2), B64.to_u64 (SFopp (B64.lit 1 2)),
   B64.to_u64 (SFopp (B64.of_Z 2)), B64.to_u64 (B64.of_Z (2 ^ 64)))
  = (Some 3, Some 0, None, None).
Proof. vm_compute. reflexivity. Qed.

Lemma iter_xO_mul m p : Zpos (Pos.iter xO m p) = Zpos m * 2 ^ Zpos p.
Proof.
  induction p using Pos.peano_ind.
  - simpl. lia.
  - rewrite Pos.iter_succ, Pos2Z.inj_succ, Z.pow_succ_r by lia.
    rewrite Pos2Z.inj_xO, IHp. lia.
Qed.

Lemma shl_mul m k : 0 <= k -> Zpos (B64.shl m k) = Zpos m * 2 ^ k.
Proof.
  destruct k as [|p|p]; intros Hk; simpl B64.shl.
  - simpl; lia.
  - apply iter_xO_mul.
  - lia.
Qed.

Lemma shl_shl m a b : 0 <= a -> 0 <= b -> B64.shl (B64.shl m a) b = B64.shl m (a + b).
Proof.
  intros Ha Hb. apply Pos2Z.inj. rewrite !shl_mul by lia.
  rewrite Z.pow_add_r by lia. lia.
Qed.

Lemma digits2_iter_xO m p :
  Zpos (digits2_pos (Pos.iter xO m p)) = Zpos (digits2_pos m) + Zpos p.
Proof.
  induction p using Pos.peano_ind.
  - simpl. lia.
  - rewrite Pos.iter_succ. cbn [digits2_pos]. lia.
Qed.

Lemma digits2_shl m k :
  0 <= k -> Zpos (digits2_pos (B64.shl m k)) = Zpos (digits2_pos m) + k.
Proof.
  destruct k as [|p|p]; intros Hk; simpl B64.shl;
    [lia | apply digits2_iter_xO | lia].
Qed.

Lemma digits2_size p : digits2_pos p = Pos.size p.
Proof. induction p; simpl; congruence. Qed.

Lemma digits2_bounds p :
  2 ^ (Zpos (digits2_pos p) - 1) <= Zpos p < 2 ^ Zpos (digits2_pos p).
Proof.
  rewrite digits2_size. split.
  - assert (Zpos (2 ^ Pos.size p) <= Zpos p~0) as H' by exact (Pos.size_le p).
    rewrite Pos2Z.inj_pow in H'.
    replace (Zpos (Pos.size p)) with (Z.succ (Zpos (Pos.size p) - 1)) in H' by lia.
    rewrite Z.pow_succ_r in H' by lia. lia.
  - assert (Zpos p < Zpos (2 ^ Pos.size p)) as H' by exact (Pos.size_gt p).
    now rewrite Pos2Z.inj_pow in H'.
Qed.

Lemma digits2_le_of_lt p n : 0 <= n -> Zpos p < 2 ^ n -> Zpos (digits2_pos p) <= n.
Proof.
  intros Hn H. pose proof (digits2_bounds p) as [Hlo _].
  assert (2 ^ (Zpos (digits2_pos p) - 1) < 2 ^ n) as Hlt by lia.
  apply Z.pow_lt_mono_r_iff in Hlt; lia.
Qed.

Lemma digits2_mono p q :
  (p <= q)%positive -> Zpos (digits2_pos p) <= Zpos (digits2_pos q).
Proof.
  intros H. apply digits2_le_of_lt; [lia|].
  pose proof (digits2_bounds q). lia.
Qed.

Lemma iter_pos_iter {A} (f : A -> A) p x : SpecFloat.iter_pos f p x = Pos.iter f x p.
Proof.
  revert x. induction p as [p IH|p IH|]; intros x; simpl.
  - rewrite !IH. now rewrite <- !Pos.iter_swap.
  - now rewrite !IH.
  - reflexivity.
Qed.

(** Shifting out [p] zero bits loses nothing. *)
Lemma shr_zeros p m :
  SpecFloat.iter_pos shr_1 p {| shr_m := Zpos (Pos.iter xO m p); shr_r := false; shr_s := false |}
  = {| shr_m := Zpos m; shr_r := false; shr_s := false |}.
Proof.
  rewrite iter_pos_iter.
  induction p using Pos.peano_ind.
  - reflexivity.
  - rewrite !Pos.iter_succ, <- Pos.iter_swap. simpl shr_1. exact IHp.
Qed.

Lemma fexp_small d : 0 < d -> fexp B64.prec B64.emax d = d - 53.
Proof. intros. unfold fexp, SpecFloat.emin, B64.prec, B64.emax. lia. Qed.

(** Rounding a canonical mantissa followed by [k] zero bits is exact. *)
Lemma round_aux_zeros s m k e :
  0 <= k ->
  fexp B64.prec B64.emax (Zpos (digits2_pos m) + (e + k)) = e + k ->
  e + k <= B64.emax - B64.prec ->
  binary_round_aux B64.prec B64.emax s (Zpos (B64.shl m k)) e loc_Exact
  = S754_finite s m (e + k).
Proof.
  intros Hk Hcanon Hbound.
  unfold binary_round_aux, shr_fexp.
  cbn [Zdigits2 shr_record_of_loc].
  rewrite digits2_shl by assumption.
  replace (Zpos (digits2_pos m) + k + e) with (Zpos (digits2_pos m) + (e + k)) by lia.
  rewrite Hcanon.
  replace (e + k - e) with k by lia.
  destruct k as [|p|p]; [| |lia].
  - cbn [B64.shl shr shr_m loc_of_shr_record round_nearest_even Zdigits2].
    rewrite Z.add_0_r in *. rewrite Hcanon, Z.sub_diag. cbn [shr shr_m].
    apply Z.leb_le in Hbound. now rewrite Hbound.
  - cbn [B64.shl shr]. rewrite shr_zeros.
    cbn [shr_m loc_of_shr_record round_nearest_even Zdigits2].
    rewrite Hcanon, Z.sub_diag. cbn [shr shr_m].
    apply Z.leb_le in Hbound. now rewrite Hbound.
Qed.

Lemma shl_align_le mx ex ex' :
  ex' <= ex -> shl_align mx ex ex' = (B64.shl mx (ex - ex'), ex').
Proof.
  intros H. unfold shl_align, B64.shl.
  destruct (ex' - ex) as [|q|q] eqn:E.
  - assert (ex - ex' = 0) as -> by lia. f_equal. lia.
  - lia.
  - assert (ex - ex' = Zpos q) as -> by lia. reflexivity.
Qed.

Lemma shl_align_ge mx ex ex' : ex <= ex' -> shl_align mx ex ex' = (mx, ex).
Proof.
  intros H. unfold shl_align.
  destruct (ex' - ex) as [|q|q] eqn:E; try reflexivity. lia.
Qed.

(** An integer below [2^53] scaled by a power of two rounds to itself. *)
Lemma round_shl c k :
  Zpos (digits2_pos c) <= 53 -> 0 <= k ->
  binary_round B64.prec B64.emax false (B64.shl c k) (- k)
  = S754_finite false (B64.shl c (53 - Zpos (digits2_pos c)))
                (Zpos (digits2_pos c) - 53).
Proof.
  intros Hd Hk. unfold binary_round.
  rewrite digits2_shl by lia.
  replace (Zpos (digits2_pos c) + k + - k) with (Zpos (digits2_pos c)) by lia.
  rewrite fexp_small by lia.
  set (d := Zpos (digits2_pos c)) in *.
  assert (0 < d) by (subst d; lia).
  destruct (Z_le_gt_dec (53 - d) k) as [Hge|Hlt].
  - rewrite shl_align_ge by lia.
    replace (B64.shl c k) with (B64.shl (B64.shl c (53 - d)) (k - (53 - d)))
      by (rewrite shl_shl by lia; f_equal; lia).
    rewrite round_aux_zeros.
    + f_equal. lia.
    + lia.
    + rewrite digits2_shl by lia. fold d.
      replace (d + (53 - d) + (- k + (k - (53 - d)))) with d by lia.
      rewrite fexp_small by lia. lia.
    + unfold B64.emax, B64.prec. lia.
  - rewrite shl_align_le by lia.
    rewrite shl_shl by lia.
    replace (k + (- k - (d - 53))) with (53 - d) by lia.
    change (B64.shl c (53 - d)) with (B64.shl (B64.shl c (53 - d)) 0) at 1.
    rewrite round_aux_zeros.
    + f_equal. lia.
    + lia.
    + rewrite digits2_shl by lia. fold d.
      replace (d + (53 - d) + (d - 53 + 0)) with d by lia.
      rewrite fexp_small by lia. lia.
    + unfold B64.emax, B64.prec. lia.
Qed.

Lemma of_Z_pos n :
  Zpos n < 2 ^ 53 ->
  B64.of_Z (Zpos n)
  = S754_finite false (B64.shl n (53 - Zpos (digits2_pos n)))
                (Zpos (digits2_pos n) - 53).
Proof.
  intros Hn. pose proof (digits2_le_of_lt n 53 ltac:(lia) Hn) as Hd.
  unfold B64.of_Z, binary_normalize.
  change n with (B64.shl n 0) at 1. change 0 with (- 0) at 2.
  apply round_shl; lia.
Qed.

(** Integers whose sum stays below [2^53] add without rounding. *)
Lemma add_of_Z a b :
  0 <= a -> 0 <= b -> a + b < 2 ^ 53 ->
  B64.add (B64.of_Z a) (B64.of_Z b) = B64.of_Z (a + b).
Proof.
  intros Ha Hb Hab.
  destruct a as [|a|a]; [|destruct b as [|b|b]|]; try lia.
  - destruct b as [|b|b]; try lia; [reflexivity|].
    rewrite Z.add_0_l. rewrite (of_Z_pos b) by lia. reflexivity.
  - rewrite Z.add_0_r. rewrite (of_Z_pos a) by lia. reflexivity.
  - change (Zpos a + Zpos b) with (Zpos (a + b)) in *.
    rewrite (of_Z_pos a), (of_Z_pos b), (of_Z_pos (a + b)) by lia.
    pose proof (digits2_le_of_lt a 53 ltac:(lia) ltac:(lia)) as Hda.
    pose proof (digits2_le_of_lt b 53 ltac:(lia) ltac:(lia)) as Hdb.
    pose proof (digits2_le_of_lt (a + b) 53 ltac:(lia) ltac:(lia)) as Hdc.
    set (da := Zpos (digits2_pos a)) in *.
    set (db := Zpos (digits2_pos b)) in *.
    set (dc := Zpos (digits2_pos (a + b))) in *.
    assert (0 < da) by (subst da; lia). assert (0 < db) by (subst db; lia).
    unfold B64.add, SFadd. cbv zeta.
    set (ez := Z.min (da - 53) (db - 53)).
    rewrite !shl_align_le by (subst ez; lia).
    cbn [fst cond_Zopp].
    rewrite !shl_shl by (subst ez; lia).
    replace (53 - da + (da - 53 - ez)) with (- ez) by lia.
    replace (53 - db + (db - 53 - ez)) with (- ez) by lia.
    assert (Zpos (B64.shl a (- ez)) + Zpos (B64.shl b (- ez))
            = Zpos (B64.shl (a + b) (- ez))) as ->.
    { rewrite !shl_mul by (subst ez; lia). lia. }
    cbn [binary_normalize].
    replace ez with (- - ez) at 2 by lia.
    rewrite round_shl; fold dc; subst ez; try lia. reflexivity.
Qed.

Lemma div_eucl_pow2 m s :
  52 <= s ->
  Z.div_eucl (Zpos m * 2 ^ s) (Zpos 4503599627370496) = (Zpos m * 2 ^ (s - 52), 0).
Proof.
  intros Hs.
  assert (Z.div_eucl (Zpos m * 2 ^ s) (Zpos 4503599627370496)
          = ((Zpos m * 2 ^ s) / Zpos 4503599627370496,
             (Zpos m * 2 ^ s) mod Zpos 4503599627370496)) as ->.
  { unfold Z.div, Z.modulo. now destruct Z.div_eucl. }
  change (Zpos 4503599627370496) with (2 ^ 52).
  replace (Zpos m * 2 ^ s) with (Zpos m * 2 ^ (s - 52) * 2 ^ 52).
  - rewrite Z.div_mul, Z.mod_mul by lia. reflexivity.
  - rewrite <- Z.mul_assoc, <- Z.pow_add_r by lia. do 2 f_equal. lia.
Qed.

(** Dividing any binary64 value by [1.0] returns it unchanged. *)
Lemma div_one x : B64.valid x = true -> B64.div x B64.one = x.
Proof.
  destruct x as [s|s| |s m e]; intros Hv; try (destruct s; reflexivity).
  - reflexivity.
  - unfold B64.valid in Hv. cbn [valid_binary] in Hv.
    unfold bounded, canonical_mantissa in Hv.
    apply andb_prop in Hv as [Hc Hb]. apply Z.eqb_eq in Hc. apply Z.leb_le in Hb.
    set (d := Zpos (digits2_pos m)) in *.
    assert (0 < d) by (subst d; lia).
    unfold B64.div, B64.one, SFdiv, SFdiv_core_binary.
    cbn [Zdigits2]. fold d. change (Zpos (digits2_pos 4503599627370496)) with 53.
    rewrite xorb_false_r.
    destruct (Z.eq_dec e (-1074)) as [He|He].
    + assert (Z.min (fexp B64.prec B64.emax (d + e - (53 + -52))) (e - -52) = e) as ->.
      { unfold fexp, SpecFloat.emin, B64.prec, B64.emax in *. lia. }
      replace (e - -52 - e) with 52 by lia.
      rewrite Z.shiftl_mul_pow2 by lia.
      rewrite div_eucl_pow2 by lia.
      replace (Zpos m * 2 ^ (52 - 52)) with (Zpos (B64.shl m 0))
        by (rewrite shl_mul by lia; reflexivity).
      unfold new_location. cbn [Z.even new_location_even Z.eqb].
      rewrite round_aux_zeros; [f_equal; lia|lia| |lia].
      rewrite Z.add_0_r. exact Hc.
    + assert (Z.min (fexp B64.prec B64.emax (d + e - (53 + -52))) (e - -52) = e - 1) as ->.
      { unfold fexp, SpecFloat.emin, B64.prec, B64.emax in *. lia. }
      replace (e - -52 - (e - 1)) with 53 by lia.
      rewrite Z.shiftl_mul_pow2 by lia.
      rewrite div_eucl_pow2 by lia.
      replace (Zpos m * 2 ^ (53 - 52)) with (Zpos (B64.shl m 1))
        by (rewrite shl_mul by lia; reflexivity).
      unfold new_location. cbn [Z.even new_location_even Z.eqb].
      rewrite round_aux_zeros; [f_equal; lia|lia| |lia].
      replace (e - 1 + 1) with e by lia. exact Hc.
Qed.

End B64Facts.

(** ** Aggregator *)

Section AggregatorFacts.

Import Aggregator.

Implicit Types (a : Aggregator.t) (m : gmap AggregationKey AggregatedValue).

#[local] Instance sum_samples_perm : Proper ((≡ₚ) ==> (=)) sum_samples.
Proof.
  intros l1 l2 Hp. unfold sum_samples.
  induction Hp; simpl; lia.
Qed.

Lemma sum_samples_nonneg m : counts_ok m -> 0 <= sum_samples (map_to_list m).
Proof.
  intros Hm. apply map_Forall_to_list in Hm.
  induction Hm as [|[k v] l Hv _ IH]; simpl in *; lia.
Qed.

Lemma counts_ok_delete m k : counts_ok m -> counts_ok (delete k m).
Proof. intros Hm. by apply map_Forall_delete. Qed.

(** Splitting the total at one key. *)
Lemma sum_samples_lookup m k v :
  m !! k = Some v ->
  sum_samples (map_to_list m) = samples v + sum_samples (map_to_list (delete k m)).
Proof. intros Hk. by rewrite <- (map_to_list_delete m k v Hk). Qed.

Lemma sum_samples_insert m k v :
  sum_samples (map_to_list (<[k:=v]> m))
  = samples v + sum_samples (map_to_list (delete k m)).
Proof.
  rewrite <- (insert_delete_eq m).
  by rewrite map_to_list_insert by apply lookup_delete_eq.
Qed.

Lemma wrap64_small z : 0 <= z < 2 ^ 64 -> wrap64 z = z.
Proof. intros. unfold wrap64. apply Z.mod_small. lia. Qed.

(** One more sample in the table raises the total by one. *)
Lemma bump_counts a sample lbr c :
  counts_ok (table_ a) -> sum_samples (map_to_list (table_ a)) = c ->
  c + 1 < 2 ^ 64 ->
  counts_ok (bump a sample lbr)
  /\ sum_samples (map_to_list (bump a sample lbr)) = c + 1.
Proof.
  intros Hok Hsum Hc. unfold bump.
  set (key := make_key a sample lbr). set (w := sample_weight a sample).
  pose proof (sum_samples_nonneg _ (counts_ok_delete _ key Hok)) as Hrest.
  assert (0 <= samples (slot_of (table_ a) key)
          /\ samples (slot_of (table_ a) key)
             + sum_samples (map_to_list (delete key (table_ a))) = c) as [Hs0 Hs1].
  { unfold slot_of. destruct (table_ a !! key) as [old|] eqn:Hk; simpl.
    - split; [exact (Hok _ _ Hk)|]. by rewrite <- (sum_samples_lookup _ _ _ Hk).
    - rewrite delete_id by done. lia. }
  rewrite sum_samples_insert. simpl.
  rewrite wrap64_small by lia. split; [|lia].
  apply map_Forall_insert_2; [simpl; lia|done].
Qed.

Lemma agg_inv_empty a : table_ a = ∅ -> agg_inv a 0.
Proof.
  intros He. unfold agg_inv, counts_ok. rewrite He.
  split; [apply map_Forall_empty|].
  split; [by rewrite map_to_list_empty|lia].
Qed.

Lemma AddSample_inv a sample lbr c :
  agg_inv a c -> c + 1 < 2 ^ 64 ->
  agg_inv (AddSample sample lbr a) (if sheds a sample lbr then 0 else c + 1).
Proof.
  intros (Hok & Hsum & Hc) Hlt. unfold AddSample.
  destruct (sheds a sample lbr).
  - by apply agg_inv_empty.
  - destruct (bump_counts a sample lbr c Hok Hsum Hlt) as [? ?].
    repeat split; simpl; [done|done|lia].
Qed.

Lemma add_all_inv stream : forall a c,
  agg_inv a c -> c + Z.of_nat (length stream) < 2 ^ 64 ->
  agg_inv (add_all stream a) (retained stream a c)
  /\ retained stream a c <= c + Z.of_nat (length stream).
Proof.
  induction stream as [|[s l] rest IH]; intros a c Hinv Hlen.
  - simpl. split; [done|lia].
  - cbn [length] in Hlen. rewrite Nat2Z.inj_succ in Hlen.
    pose proof Hinv as (_ & _ & Hc).
    assert (agg_inv (AddSample s l a) (if sheds a s l then 0 else c + 1)) as Hstep
      by (apply AddSample_inv; [done|lia]).
    unfold add_all in *. cbn [foldl retained fst snd length].
    destruct (IH (AddSample s l a) (if sheds a s l then 0 else c + 1) Hstep) as [H1 H2].
    { destruct (sheds a s l); lia. }
    split; [done|]. rewrite Nat2Z.inj_succ. destruct (sheds a s l); lia.
Qed.

Lemma retained_never_sheds stream : forall a c,
  never_sheds stream a = true -> retained stream a c = c + Z.of_nat (length stream).
Proof.
  induction stream as [|[s l] rest IH]; intros a c Hn.
  - simpl. lia.
  - cbn [never_sheds fst snd] in Hn. apply andb_prop in Hn as [Hs Hrest].
    apply negb_true_iff in Hs. cbn [retained fst snd]. rewrite Hs.
    rewrite IH by done. cbn [length]. lia.
Qed.

(** The wrapping accumulation of [Flush] is the exact sum while it stays
    below [2^64]. *)
Lemma flush_loop_exact (l : list (AggregationKey * AggregatedValue)) : forall acc,
  Forall (fun kv => 0 <= samples kv.2) l ->
  0 <= acc -> acc + sum_samples l < 2 ^ 64 ->
  foldl (fun acc kv => wrap64 (acc + samples kv.2)) acc l = acc + sum_samples l.
Proof.
  induction l as [|[k v] l IH]; intros acc Hl Hacc Hlt; simpl in *.
  - lia.
  - inversion Hl as [|? ? Hv Hl']; subst; simpl in *.
    assert (0 <= sum_samples l).
    { clear -Hl'. induction Hl' as [|[??] ? ? ? IH']; simpl in *; lia. }
    rewrite wrap64_small by lia.
    rewrite IH by (done || lia). lia.
Qed.

(** What [Flush] returns after a stream fed to an empty table. *)
Lemma Flush_after_stream stream a :
  table_ a = ∅ -> Z.of_nat (length stream) < 2 ^ 64 ->
  (Flush (add_all stream a)).1.2 = sum_samples (map_to_list (table_ (add_all stream a)))
  /\ (Flush (add_all stream a)).1.2 = retained stream a 0.
Proof.
  intros Hempty Hlen.
  destruct (add_all_inv stream a 0 (agg_inv_empty a Hempty) ltac:(lia))
    as [(Hok & Hsum & Hc) Hle].
  unfold Flush. cbn [fst snd].
  rewrite flush_loop_exact.
  - lia.
  - apply map_Forall_to_list in Hok.
    eapply Forall_impl; [exact Hok|]. by intros [??].
  - lia.
  - lia.
Qed.

End AggregatorFacts.

Section AggregatorFlush.

Import Aggregator.

(** C1, as stated, fails: with [max_entries = 1] two samples of different
    flows are both taken by [AddSample], the second one trips the overflow
    guard and the table is shed, so the following [Flush] returns 0, not 2. *)
Lemma C1_shed_samples_are_not_flushed :
  ~ (forall (stream : list (Sample * LbrStack)) (a : Aggregator.t),
        table_ a = ∅ ->
        (Flush (add_all stream a)).1.2 = Z.of_nat (length stream)).
Proof.
  intros H.
  specialize (H [(sample_of_flow 1 1, []); (sample_of_flow 2 1, [])]
                (make {| time_window_ns := 100; max_entries := 1 |}) eq_refl).
  vm_compute in H. discriminate H.
Qed.

(** C1 (amended).  For every stream of samples added to an aggregator whose
    table is empty (as a flush leaves it), [Flush] hands the callback every
    entry of the table exactly once, leaves an empty table behind, and
    returns the sum of [samples] over the entries it emitted; that sum is
    the number of samples added since the overflow guard last shed the
    table, and the number of all samples added since the previous flush
    whenever the guard never fired in between. *)
Theorem C1_flush_returns_retained_samples
    (stream : list (Sample * LbrStack)) (a : Aggregator.t) :
  table_ a = ∅ ->
  Z.of_nat (length stream) < 2 ^ 64 ->
  (forall k v, (k, v) ∈ (Flush (add_all stream a)).1.1
               <-> table_ (add_all stream a) !! k = Some v)
  /\ NoDup ((Flush (add_all stream a)).1.1).*1
  /\ table_ (Flush (add_all stream a)).2 = ∅
  /\ (Flush (add_all stream a)).1.2 = sum_samples (Flush (add_all stream a)).1.1
  /\ (Flush (add_all stream a)).1.2 = retained stream a 0
  /\ (never_sheds stream a = true ->
      (Flush (add_all stream a)).1.2 = Z.of_nat (length stream)).
Proof.
  intros Hempty Hlen.
  destruct (Flush_after_stream stream a Hempty Hlen) as [Hsum Hret].
  split; [|split; [|split; [|split; [|split]]]].
  - intros k v. unfold Flush. cbn [fst snd]. apply elem_of_map_to_list.
  - unfold Flush. cbn [fst snd]. apply NoDup_fst_map_to_list.
  - reflexivity.
  - exact Hsum.
  - exact Hret.
  - intros Hn. rewrite Hret, retained_never_sheds by done. lia.
Qed.

(** The amended C1 at a concrete stream: three samples, two of one flow. *)
Lemma C1_flush_returns_retained_samples_witness :
  let stream := [(sample_of_flow 7 4, []); (sample_of_flow 7 1, []);
                 (sample_of_flow 9 1, [])] in
  let a := make {| time_window_ns := 100; max_entries := 200000 |} in
  table_ a = ∅
  /\ Z.of_nat (length stream) < 2 ^ 64
  /\ (Flush (add_all stream a)).1.2 = 3.
Proof.
  intros stream a.
  assert (table_ a = ∅) as H1 by reflexivity.
  assert (Z.of_nat (length stream) < 2 ^ 64) as H2 by (vm_compute; reflexivity).
  split; [exact H1|split; [exact H2|]].
  destruct (C1_flush_returns_retained_samples stream a H1 H2)
    as (_ & _ & _ & _ & _ & Hall).
  rewrite Hall; reflexivity.
Defined.

End AggregatorFlush.

Section AggregatorCost.

Import Aggregator.

Lemma slot_bound a key c :
  counts_ok (table_ a) -> sum_samples (map_to_list (table_ a)) = c ->
  0 <= samples (slot_of (table_ a) key) <= c.
Proof.
  intros Hok Hsum.
  pose proof (sum_samples_nonneg _ (counts_ok_delete _ key Hok)) as Hrest.
  unfold slot_of. destruct (table_ a !! key) as [old|] eqn:Hk; simpl.
  - rewrite (sum_samples_lookup _ _ _ Hk) in Hsum.
    pose proof (Hok _ _ Hk) as H0. simpl in H0. lia.
  - rewrite delete_id in Hrest by done. lia.
Qed.

Lemma slot_cost m key :
  costs_ok m -> norm_cost (slot_of m key) = B64.of_Z (samples (slot_of m key)).
Proof.
  intros Hm. unfold slot_of. destruct (m !! key) as [old|] eqn:Hk; simpl.
  - exact (Hm _ _ Hk).
  - reflexivity.
Qed.

(** The weight in the form of the specification. *)
Lemma sample_weight_spec a sample :
  B64.valid (sample_scale_ a) = true ->
  sample_weight a sample
  = B64.div (sample_scale_ a) (B64.of_Z (Z.max (Common.gso_segs sample) 1)).
Proof.
  intros Hv. unfold sample_weight.
  destruct (Common.gso_segs sample >? 1) eqn:Hg.
  - apply Z.gtb_lt in Hg. by rewrite Z.max_l by lia.
  - assert (Common.gso_segs sample <= 1)
      by (rewrite Z.gtb_ltb in Hg; apply Z.ltb_ge in Hg; lia).
    rewrite Z.max_r by lia.
    change (B64.of_Z 1) with B64.one. by rewrite div_one.
Qed.

Lemma AddSample_scale sample lbr a :
  sample_scale_ (AddSample sample lbr a) = sample_scale_ a.
Proof. unfold AddSample. by destruct (sheds a sample lbr). Qed.

Lemma add_all_costs stream : forall a c,
  agg_inv a c -> costs_ok (table_ a) -> sample_scale_ a = B64.one ->
  Forall (fun sl : Sample * LbrStack => Common.gso_segs sl.1 = 1) stream ->
  c + Z.of_nat (length stream) < 2 ^ 53 ->
  costs_ok (table_ (add_all stream a)).
Proof.
  induction stream as [|[s l] rest IH]; intros a c Hinv Hcost Hscale Hgso Hlen.
  - exact Hcost.
  - cbn [length] in Hlen. rewrite Nat2Z.inj_succ in Hlen.
    inversion Hgso as [|? ? Hg Hgso']; subst. cbn [fst] in Hg.
    pose proof Hinv as (Hok & Hsum & Hc).
    assert (2 ^ 53 < 2 ^ 64) by (vm_compute; reflexivity).
    unfold add_all in *. cbn [foldl fst snd].
    apply (IH _ (if sheds a s l then 0 else c + 1)).
    + apply AddSample_inv; [done|lia].
    + unfold AddSample. destruct (sheds a s l); simpl; [apply map_Forall_empty|].
      unfold bump. apply map_Forall_insert_2; [|done]. simpl.
      pose proof (slot_bound a (make_key a s l) c Hok Hsum) as Hb.
      rewrite slot_cost by done.
      unfold sample_weight. rewrite Hg, Hscale. simpl.
      change B64.one with (B64.of_Z 1).
      rewrite add_of_Z by lia.
      by rewrite wrap64_small by lia.
    + by rewrite AddSample_scale.
    + done.
    + destruct (sheds a s l); lia.
Qed.

(** Summing integer-valued costs in binary64 is exact below [2^53]. *)
Lemma sum_norm_cost_exact (l : list (AggregationKey * AggregatedValue)) : forall acc,
  Forall (fun kv => 0 <= samples kv.2 /\ norm_cost kv.2 = B64.of_Z (samples kv.2)) l ->
  0 <= acc -> acc + sum_samples l < 2 ^ 53 ->
  foldl (fun x kv => B64.add x (norm_cost kv.2)) (B64.of_Z acc) l
  = B64.of_Z (acc + sum_samples l).
Proof.
  induction l as [|[k v] l IH]; intros acc Hl Hacc Hlt; simpl in *.
  - by rewrite Z.add_0_r.
  - inversion Hl as [|? ? [Hv0 Hv] Hl']; subst; simpl in *.
    assert (0 <= sum_samples l).
    { clear -Hl'. induction Hl' as [|[??] ? [? ?] ? IH']; simpl in *; lia. }
    rewrite Hv, add_of_Z by lia.
    rewrite IH by (done || lia). f_equal. lia.
Qed.

(** C2.  The weight [AddSample] adds to the norm_cost of the sample's entry
    is [sample_scale / max(gso_segs, 1)], computed in binary64 from the
    scale stored at the time of the call (unless the overflow guard sheds
    the table); and for every stream of samples with [gso_segs = 1] added
    at scale [1.0] from an empty table, every flushed entry has a norm_cost
    equal to its sample count, so the total norm_cost flushed equals the
    total number of samples flushed. *)
Theorem C2_norm_cost_is_scale_over_segments
    (a : Aggregator.t) (sample : Sample) (lbr : LbrStack)
    (stream : list (Sample * LbrStack)) (a0 : Aggregator.t) :
  B64.valid (sample_scale_ a) = true ->
  table_ a0 = ∅ ->
  sample_scale_ a0 = B64.one ->
  Forall (fun sl : Sample * LbrStack => Common.gso_segs sl.1 = 1) stream ->
  Z.of_nat (length stream) < 2 ^ 53 ->
  table_ (AddSample sample lbr a)
  = (if sheds a sample lbr then ∅
     else <[make_key a sample lbr :=
              {| samples := wrap64 (samples (slot_of (table_ a) (make_key a sample lbr)) + 1);
                 norm_cost :=
                   B64.add (norm_cost (slot_of (table_ a) (make_key a sample lbr)))
                           (B64.div (sample_scale_ a)
                                    (B64.of_Z (Z.max (Common.gso_segs sample) 1))) |}]>
            (table_ a))
  /\ Forall (fun kv => norm_cost kv.2 = B64.of_Z (samples kv.2))
            (Flush (add_all stream a0)).1.1
  /\ sum_norm_cost (Flush (add_all stream a0)).1.1
     = B64.of_Z (sum_samples (Flush (add_all stream a0)).1.1)
  /\ sum_samples (Flush (add_all stream a0)).1.1 = (Flush (add_all stream a0)).1.2.
Proof.
  intros Hv Hempty Hscale Hgso Hlen.
  assert (2 ^ 53 < 2 ^ 64) as Hpow by (vm_compute; reflexivity).
  split.
  { unfold AddSample. destruct (sheds a sample lbr); [reflexivity|].
    unfold with_table, bump. cbn [table_]. by rewrite sample_weight_spec. }
  destruct (add_all_inv stream a0 0 (agg_inv_empty a0 Hempty) ltac:(lia))
    as [(Hok & Hsum & Hc) Hle].
  assert (costs_ok (table_ (add_all stream a0))) as Hcost.
  { apply (add_all_costs stream a0 0); [by apply agg_inv_empty| |done|done|lia].
    rewrite Hempty. apply map_Forall_empty. }
  destruct (Flush_after_stream stream a0 Hempty ltac:(lia)) as [Hret _].
  unfold Flush in *. cbn [fst snd] in *.
  split; [|split].
  - apply map_Forall_to_list in Hcost.
    eapply Forall_impl; [exact Hcost|]. by intros [??].
  - unfold sum_norm_cost. change B64.zero with (B64.of_Z 0).
    rewrite sum_norm_cost_exact; [f_equal; lia| |lia|lia].
    apply map_Forall_to_list in Hcost, Hok.
    apply Forall_forall. intros [k v] Hin. split.
    + by apply (proj1 (Forall_forall _ _) Hok (k, v)).
    + by apply (proj1 (Forall_forall _ _) Hcost (k, v)).
  - by rewrite Hret.
Qed.

End AggregatorCost.

Section AggregatorExamples.

Import Aggregator.

(** The amended C2 at a concrete aggregator and stream. *)
Lemma C2_norm_cost_is_scale_over_segments_witness :
  let a := make {| time_window_ns := 100; max_entries := 200000 |} in
  let stream := [(sample_of_flow 7 1, []); (sample_of_flow 7 1, []);
                 (sample_of_flow 9 1, [])] in
  B64.valid (sample_scale_ a) = true
  /\ table_ a = ∅
  /\ sample_scale_ a = B64.one
  /\ Forall (fun sl : Sample * LbrStack => Common.gso_segs sl.1 = 1) stream
  /\ Z.of_nat (length stream) < 2 ^ 53
  /\ sum_norm_cost (Flush (add_all stream a)).1.1 = B64.of_Z 3.
Proof.
  intros a stream.
  assert (B64.valid (sample_scale_ a) = true) as H1 by reflexivity.
  assert (table_ a = ∅) as H2 by reflexivity.
  assert (sample_scale_ a = B64.one) as H3 by reflexivity.
  assert (Forall (fun sl : Sample * LbrStack => Common.gso_segs sl.1 = 1) stream) as H4
    by (repeat constructor).
  assert (Z.of_nat (length stream) < 2 ^ 53) as H5 by (vm_compute; reflexivity).
  repeat (split; [assumption|]).
  destruct (C2_norm_cost_is_scale_over_segments a (sample_of_flow 7 4) [] stream a
              H1 H2 H3 H4 H5) as (_ & _ & Hsum & Hret).
  rewrite Hsum, Hret. reflexivity.
Defined.

(** Scenario S1: one sample with four GSO segments at scale 1.0 yields one
    rollup with one sample and a norm_cost of exactly 0.25. *)
Example S1_gso_normalization :
  (Flush (AddSample (sample_of_flow 7 4) []
            (make {| time_window_ns := 100; max_entries := 200000 |}))).1
  = ([({| flow_id := 7; function_hash := 4660; callstack_id := 4660;
          data_object_id := 0; pmu_event := 1; numa_node := 0;
          interference_class := 0; direction := 0; bucket := 10 |},
       {| samples := 1; norm_cost := B64.lit 1 4 |})], 1).
Proof. vm_compute. reflexivity. Qed.

End AggregatorExamples.

(** ** Mode controller *)

Section ModeControllerFacts.

Import ModeController.

Lemma NotifyAnomaly_mode now signal c :
  mode_ (NotifyAnomaly now signal c)
  = if crosses_trigger (thresholds_ c) signal then Diagnostic else mode_ c.
Proof. unfold NotifyAnomaly, crosses_trigger. by destruct (type signal). Qed.


Lemma NotifyAnomaly_thresholds now signal c :
  thresholds_ (NotifyAnomaly now signal c) = thresholds_ c.
Proof. unfold NotifyAnomaly. by destruct (type signal). Qed.

(** C3, as stated, fails: a ThroughputDrop whose ratio is 0.0 (throughput
    fell to nothing) is below the trigger 0.8, yet the controller stays in
    Sentinel, because the code also requires the ratio to be positive. *)
Lemma C3_zero_throughput_ratio_does_not_trigger :
  ~ (forall (c : ModeController.t) (now : Z) (signal : AnomalySignal),
        type signal = ThroughputDrop ->
        B64.ltb (ratio signal) (throughput_ratio_trigger (thresholds_ c)) = true ->
        mode_ (NotifyAnomaly now signal c) = Diagnostic).
Proof.
  intros H.
  specialize (H (make test_thresholds) 1000 (signal_of ThroughputDrop B64.zero 0)
                eq_refl eq_refl).
  vm_compute in H. discriminate H.
Qed.

(** C3 (amended).  On [Update(load_ratio)], Sentinel changes to Diagnostic iff
    [load_ratio > sentinel_to_diag]; Diagnostic changes to Sentinel iff the
    anomaly hold is not active and [load_ratio < diag_to_sentinel]; on
    [NotifyAnomaly], a ThroughputDrop signal with
    [0 < ratio < throughput_ratio_trigger], or a LatencySpike signal with
    [ratio > latency_ratio_trigger], sets the mode to Diagnostic, and any
    other signal leaves the mode as it is. *)
Theorem C3_mode_transitions
    (c : ModeController.t) (now : Z) (load_ratio : spec_float) (signal : AnomalySignal) :
  (mode_ c = Sentinel ->
     (mode_ (Update now load_ratio c) = Diagnostic
      <-> B64.ltb (sentinel_to_diag (thresholds_ c)) load_ratio = true))
  /\ (mode_ c = Diagnostic ->
     (mode_ (Update now load_ratio c) = Sentinel
      <-> AnomalyHoldActive now c = false
          /\ B64.ltb load_ratio (diag_to_sentinel (thresholds_ c)) = true))
  /\ (type signal = ThroughputDrop ->
      B64.ltb B64.zero (ratio signal) = true ->
      B64.ltb (ratio signal) (throughput_ratio_trigger (thresholds_ c)) = true ->
      mode_ (NotifyAnomaly now signal c) = Diagnostic)
  /\ (type signal = LatencySpike ->
      B64.ltb (latency_ratio_trigger (thresholds_ c)) (ratio signal) = true ->
      mode_ (NotifyAnomaly now signal c) = Diagnostic)
  /\ (crosses_trigger (thresholds_ c) signal = false ->
      mode_ (NotifyAnomaly now signal c) = mode_ c).
Proof.
  split; [|split; [|split; [|split]]].
  - intros Hm. unfold Update. rewrite Hm.
    destruct (B64.ltb _ load_ratio); simpl; [done|].
    rewrite Hm. split; congruence.
  - intros Hm. unfold Update. rewrite Hm.
    destruct (AnomalyHoldActive now c); simpl.
    + rewrite Hm. split; [congruence|]. intros [? _]. congruence.
    + destruct (B64.ltb load_ratio _); simpl; [done|].
      rewrite Hm. split; [congruence|]. intros [_ ?]. congruence.
  - intros Hty H0 H1. rewrite NotifyAnomaly_mode. unfold crosses_trigger.
    by rewrite Hty, H0, H1.
  - intros Hty H1. rewrite NotifyAnomaly_mode. unfold crosses_trigger.
    by rewrite Hty, H1.
  - intros Hc. by rewrite NotifyAnomaly_mode, Hc.
Qed.

(** Scenario S2 with explicit clock readings (nanoseconds): the hysteresis
    run of the unit test. *)
Example S2_mode_hysteresis :
  let c1 := Update 1000000 (B64.lit 12 10) (make test_thresholds) in
  let c2 := Update 2000000 (B64.of_Z 1) c1 in
  let c3 := NotifyAnomaly 3000000 (signal_of ThroughputDrop (B64.lit 6 10) 0) c2 in
  let c4 := Update 23000000 (B64.lit 5 10) c3 in
  let c5 := NotifyAnomaly 24000000 (signal_of LatencySpike (B64.lit 15 10) 0) c4 in
  (mode_ c1, mode_ c2, mode_ c3, mode_ c4, mode_ c5)
  = (Diagnostic, Sentinel, Diagnostic, Sentinel, Diagnostic).
Proof. vm_compute. reflexivity. Qed.







End ModeControllerFacts.

(** ** Target filter *)

Section TargetFilterFacts.

Import MonitoringTargetManager.

Variable read_procs : string -> list Z.

Lemma flow_matches_accepts sample flow :
  flow_matches sample flow = true <-> flow_accepts flow sample.
Proof.
  unfold flow_matches, flow_accepts.
  rewrite andb_true_iff, !orb_true_iff, !Z.eqb_eq. reflexivity.
Qed.

(** While the loop runs [allow_all] is false; it can only end with
    [allow_all] set by a [TargetType::All] spec, which resets both filters. *)
Lemma update_loop_allow_all specs : forall l,
  allow_all l = false ->
  allow_all (update_loop read_procs specs l) = true ->
  has_pid (update_loop read_procs specs l) = false
  /\ has_flow (update_loop read_procs specs l) = false.
Proof.
  induction specs as [|spec rest IH]; intros l Hl Hr; simpl in *.
  - congruence.
  - destruct (allow_all (apply_spec read_procs spec l)) eqn:Ha.
    + unfold apply_spec in *. destruct (type spec); simpl in *; try congruence. done.
    + by apply IH.
Qed.

Lemma Update_allow_all specs m0 :
  allow_all_ (Update read_procs specs m0) = true ->
  has_pid_filter_ (Update read_procs specs m0) = false
  /\ has_flow_filter_ (Update read_procs specs m0) = false.
Proof.
  unfold Update. cbn [allow_all_ has_pid_filter_ has_flow_filter_].
  destruct specs as [|spec rest].
  - done.
  - apply update_loop_allow_all. reflexivity.
Qed.

(** C4, as stated, fails: a PID filter can be present with an empty pid set
    (a process target with pid 0, a cgroup without readable processes).  The
    PID rule of the claim rejects nothing then, and a flow target matches the
    sample, yet [Allow] rejects it. *)
Lemma C4_empty_pid_set_rejects_everything :
  ~ (forall (specs : list TargetSpec) (m0 : MonitoringTargetManager.t) (sample : Sample),
        has_flow_filter_ (Update no_cgroups specs m0) = true ->
        (Allow sample (Update no_cgroups specs m0) = true
         <-> ~ (has_pid_filter_ (Update no_cgroups specs m0) = true
                /\ allowed_pids_ (Update no_cgroups specs m0) <> ∅
                /\ Common.pid sample ∉ allowed_pids_ (Update no_cgroups specs m0))
             /\ exists flow, flow ∈ flow_targets_ (Update no_cgroups specs m0)
                             /\ flow_accepts flow sample)).
Proof.
  intros H.
  specialize (H [process_spec 0; flow_spec 2 0] MonitoringTargetManager.make
                (sample_of 123 2 6) eq_refl).
  assert (Allow (sample_of 123 2 6)
            (Update no_cgroups [process_spec 0; flow_spec 2 0]
               MonitoringTargetManager.make) = true) as Hallow.
  { apply H. split.
    - intros (_ & Hne & _). apply Hne. reflexivity.
    - exists {| ingress_ifindex := 2; l4_proto := 0 |}. split.
      + apply list_elem_of_In. left. reflexivity.
      + split; [right|left]; reflexivity. }
  vm_compute in Hallow. discriminate Hallow.
Qed.

(** C4 (amended).  [Allow] accepts every sample when the target list is empty
    (and in the freshly constructed manager); otherwise a sample is rejected
    when a PID filter is present and the sample's pid is not in the pid set,
    whether or not that set is empty; and when a flow filter is present a
    sample is accepted iff it passed that PID test and some flow target
    matches on interface and protocol, a zero field matching anything. *)
Theorem C4_allow_filters
    (specs : list TargetSpec) (m0 : MonitoringTargetManager.t) (sample : Sample) :
  Allow sample MonitoringTargetManager.make = true
  /\ (specs = [] -> Allow sample (Update read_procs specs m0) = true)
  /\ (has_pid_filter_ (Update read_procs specs m0) = true ->
      Common.pid sample ∉ allowed_pids_ (Update read_procs specs m0) ->
      Allow sample (Update read_procs specs m0) = false)
  /\ (has_flow_filter_ (Update read_procs specs m0) = true ->
      (Allow sample (Update read_procs specs m0) = true
       <-> (has_pid_filter_ (Update read_procs specs m0) = true ->
            Common.pid sample ∈ allowed_pids_ (Update read_procs specs m0))
           /\ exists flow, flow ∈ flow_targets_ (Update read_procs specs m0)
                           /\ flow_accepts flow sample)).
Proof.
  pose proof (Update_allow_all specs m0) as Hall.
  split; [reflexivity|split; [by intros ->|]].
  generalize dependent (Update read_procs specs m0). intros m Hall.
  split.
  - intros Hp Hnot. unfold Allow, pid_ok.
    destruct (allow_all_ m); [destruct Hall; congruence|].
    rewrite Hp, bool_decide_eq_false_2 by done. reflexivity.
  - intros Hf. unfold Allow, pid_ok.
    destruct (allow_all_ m); [destruct Hall; congruence|].
    rewrite Hf. simpl.
    assert (existsb (flow_matches sample) (flow_targets_ m) = true
            <-> exists flow, flow ∈ flow_targets_ m /\ flow_accepts flow sample) as Hex.
    { rewrite existsb_exists. split; intros (flow & Hin & Hm); exists flow.
      - split; [by apply list_elem_of_In|by apply flow_matches_accepts].
      - split; [by apply list_elem_of_In|by apply flow_matches_accepts]. }
    destruct (has_pid_filter_ m).
    + destruct (bool_decide_reflect (Common.pid sample ∈ allowed_pids_ m)) as [Hin|Hout];
        simpl.
      * rewrite Hex. split; [intros He; split; [done|exact He]|by intros [_ He]].
      * split; [done|]. intros [Hp _]. destruct Hout. by apply Hp.
    + simpl. rewrite Hex. split; [intros He; split; [done|exact He]|by intros [_ He]].
Qed.

(** Scenario S5 (without the cgroup step): the transitions of the unit test,
    and a lone flow target on interface 2 rejecting interface 8. *)
Example S5_target_transitions :
  let m0 := MonitoringTargetManager.make in
  let m1 := Update no_cgroups [process_spec 123] m0 in
  let m2 := Update no_cgroups [process_spec 123; flow_spec 2 0] m1 in
  let m3 := Update no_cgroups [flow_spec 2 0] m2 in
  (Allow (sample_of 123 2 6) m0,
   Allow (sample_of 123 2 6) m1, Allow (sample_of 999 2 6) m1,
   Allow (sample_of 123 2 6) m2, Allow (sample_of 123 8 6) m2,
   Allow (sample_of 999 2 6) m3, Allow (sample_of 999 8 6) m3)
  = (true, true, false, true, false, true, false).
Proof. vm_compute. reflexivity. Qed.

End TargetFilterFacts.

(** ** Skew adjuster *)

Section SkewAdjusterFacts.

Import SkewAdjuster.

Implicit Types (b d : Bundle) (w es : list Bundle).

(** *** One directional scan *)

(** The code's [AbsDiff] is the distance between the two timestamps. *)
Lemma AbsDiff_distance (a b : Z) : AbsDiff a b = timestamp_distance a b.
Proof.
  unfold AbsDiff, timestamp_distance.
  destruct (Z.gtb_spec a b); lia.
Qed.

Lemma scan_reachable tol tsc candidates : forall bst,
  scan tol tsc candidates bst
  = foldl (pick tsc) bst (reachable_donors tol tsc candidates).
Proof.
  unfold reachable_donors.
  induction candidates as [|c rest IH]; intros bst; [reflexivity|].
  cbn [scan List.filter]. unfold is_donor at 1.
  destruct (flow_of c =? 0); cbn [negb]; [apply IH|].
  cbn [take_while]. unfold in_tolerance at 1.
  rewrite AbsDiff_distance, Z.gtb_ltb, Z.ltb_antisym, Z.leb_antisym.
  destruct (tol <? timestamp_distance (tsc_of c) tsc); cbn [negb foldl]; [reflexivity|].
  unfold pick at 2, delta_to.
  destruct (timestamp_distance (tsc_of c) tsc <? best_delta bst); apply IH.
Qed.

Lemma elem_of_take_while {A} (p : A -> bool) (l : list A) x :
  x ∈ take_while p l -> x ∈ l /\ p x = true.
Proof.
  induction l as [|y l IH]; simpl; [by intros ?%elem_of_nil|].
  destruct (p y) eqn:Hy; [|by intros ?%elem_of_nil].
  intros [->|Hin]%elem_of_cons.
  - split; [left|done].
  - destruct (IH Hin). split; [by right|done].
Qed.

Lemma reachable_donors_spec tol tsc direction d :
  d ∈ reachable_donors tol tsc direction ->
  d ∈ direction /\ flow_of d <> 0 /\ delta_to tsc d <= tol.
Proof.
  unfold reachable_donors. intros [Hin Htol]%elem_of_take_while.
  apply list_elem_of_In, filter_In in Hin as [Hin Hd].
  unfold is_donor in Hd. unfold in_tolerance in Htol.
  split; [by apply list_elem_of_In|]. split.
  - intros Hz. rewrite Hz in Hd. discriminate Hd.
  - unfold delta_to. by apply Z.leb_le.
Qed.

(** Folding [pick] keeps the first donor of least distance, when one beats
    the starting distance. *)
Lemma foldl_pick_min tsc l : forall bst,
  (foldl (pick tsc) bst l = bst
   /\ forall d, d ∈ l -> best_delta bst <= delta_to tsc d)
  \/ (exists d, d ∈ l
       /\ foldl (pick tsc) bst l
          = {| best_flow := flow_of d; best_delta := delta_to tsc d |}
       /\ delta_to tsc d < best_delta bst
       /\ forall d', d' ∈ l -> delta_to tsc d <= delta_to tsc d').
Proof.
  induction l as [|x rest IH]; intros bst.
  - left. split; [reflexivity|]. by intros d ?%elem_of_nil.
  - cbn [foldl]. unfold pick at 2 4.
    destruct (Z.ltb_spec (delta_to tsc x) (best_delta bst)) as [Hlt|Hge].
    + right.
      destruct (IH {| best_flow := flow_of x; best_delta := delta_to tsc x |})
        as [[Heq Hall]|(d & Hin & Heq & Hd & Hall)]; cbn [best_delta] in *.
      * exists x. split; [left|]. split; [exact Heq|]. split; [exact Hlt|].
        intros d' [->|Hin']%elem_of_cons; [lia|by apply Hall].
      * exists d. split; [by right|]. split; [exact Heq|]. split; [lia|].
        intros d' [->|Hin']%elem_of_cons; [lia|by apply Hall].
    + destruct (IH bst) as [[Heq Hall]|(d & Hin & Heq & Hd & Hall)].
      * left. split; [exact Heq|].
        intros d' [->|Hin']%elem_of_cons; [lia|by apply Hall].
      * right. exists d. split; [by right|]. split; [exact Heq|]. split; [exact Hd|].
        intros d' [->|Hin']%elem_of_cons; [lia|by apply Hall].
Qed.

(** *** One iteration of the outer loop *)

Lemma adjust_entry_length tol es i : length (adjust_entry tol es i) = length es.
Proof.
  unfold adjust_entry. destruct (es !! i) as [b|]; [|reflexivity].
  destruct (flow_of b =? 0); [|reflexivity].
  destruct (best_flow _ =? 0); [reflexivity|]. apply length_insert.
Qed.

Lemma adjust_entry_other tol es i j : i <> j -> adjust_entry tol es i !! j = es !! j.
Proof.
  intros Hij. unfold adjust_entry. destruct (es !! i) as [b|]; [|reflexivity].
  destruct (flow_of b =? 0); [|reflexivity].
  destruct (best_flow _ =? 0); [reflexivity|]. by apply list_lookup_insert_ne.
Qed.

(** What the iteration for index [i] leaves at index [i]. *)
Lemma adjust_entry_at tol es i b :
  tol < UINT64_MAX -> es !! i = Some b ->
  (flow_of b <> 0 -> adjust_entry tol es i !! i = Some b)
  /\ (flow_of b = 0 ->
      (donors tol es es i b = [] /\ adjust_entry tol es i !! i = Some b)
      \/ (exists d, d ∈ donors tol es es i b
           /\ adjust_entry tol es i !! i = Some (with_flow (flow_of d) b)
           /\ forall d', d' ∈ donors tol es es i b ->
                         delta_to (tsc_of b) d <= delta_to (tsc_of b) d')).
Proof.
  intros Htol Hb. unfold adjust_entry. rewrite Hb. split.
  - intros Hf. apply Z.eqb_neq in Hf. by rewrite Hf.
  - intros Hf. rewrite Hf. cbn [Z.eqb].
    rewrite !scan_reachable, <- foldl_app. fold (donors tol es es i b).
    assert (forall d, d ∈ donors tol es es i b ->
                      flow_of d <> 0 /\ delta_to (tsc_of b) d <= tol) as Hdon.
    { intros d [Hin|Hin]%elem_of_app;
        apply reachable_donors_spec in Hin as (_ & ? & ?); done. }
    destruct (foldl_pick_min (tsc_of b) (donors tol es es i b)
                {| best_flow := 0; best_delta := UINT64_MAX |})
      as [[Heq Hall]|(d & Hin & Heq & _ & Hall)]; rewrite Heq; cbn [best_flow best_delta] in *.
    + left. split; [|exact Hb].
      destruct (donors tol es es i b) as [|d l]; [reflexivity|].
      specialize (Hall d ltac:(left)). destruct (Hdon d ltac:(left)). lia.
    + right. exists d. destruct (Hdon d Hin) as [Hfd _].
      apply Z.eqb_neq in Hfd. rewrite Hfd.
      split; [exact Hin|]. split; [|exact Hall].
      apply list_lookup_insert_eq. by eapply lookup_lt_Some.
Qed.

(** *** The outer loop *)

Lemma rescan_prefix_S tol w n :
  rescan_prefix tol w (S n) = adjust_entry tol (rescan_prefix tol w n) n.
Proof. unfold rescan_prefix. by rewrite seq_S, foldl_app. Qed.

Lemma rescan_prefix_length tol w n : length (rescan_prefix tol w n) = length w.
Proof.
  induction n as [|n IH]; [reflexivity|].
  by rewrite rescan_prefix_S, adjust_entry_length.
Qed.

(** Entries the loop has not reached are still the original ones. *)
Lemma rescan_prefix_ahead tol w n j : (n <= j)%nat -> rescan_prefix tol w n !! j = w !! j.
Proof.
  induction n as [|n IH]; intros Hj; [reflexivity|].
  rewrite rescan_prefix_S, adjust_entry_other by lia. apply IH. lia.
Qed.

(** Entries the loop has passed are final. *)
Lemma rescan_prefix_behind tol w j n :
  (j < n)%nat -> rescan_prefix tol w n !! j = rescan_prefix tol w (S j) !! j.
Proof.
  induction n as [|n IH]; intros Hj; [lia|].
  destruct (decide (j = n)) as [->|Hne]; [reflexivity|].
  rewrite rescan_prefix_S, adjust_entry_other by lia. apply IH. lia.
Qed.

Lemma AdjustWindow_rescan tol w : AdjustWindow tol w = rescan_prefix tol w (length w).
Proof.
  unfold AdjustWindow. destruct (Nat.ltb_spec (length w) 2) as [Hlt|]; [|reflexivity].
  destruct w as [|b [|b' w]]; [reflexivity| |simpl in Hlt; lia].
  unfold rescan_prefix. cbn [length seq foldl]. unfold adjust_entry. simpl.
  by destruct (flow_of b =? 0).
Qed.

(** The window seen when the loop is at [i]: rescanned before [i], original
    from [i] on. *)
Lemma take_rescan tol w i :
  (i <= length w)%nat ->
  take i (rescan_prefix tol w i) = take i (rescan_prefix tol w (length w)).
Proof.
  intros Hi. apply list_eq. intros j.
  destruct (decide (j < i)%nat) as [Hj|Hj].
  - rewrite !lookup_take_lt by done.
    by rewrite (rescan_prefix_behind tol w j i), (rescan_prefix_behind tol w j (length w))
      by lia.
  - by rewrite !lookup_take_ge by lia.
Qed.

Lemma drop_rescan tol w i : drop (S i) (rescan_prefix tol w i) = drop (S i) w.
Proof.
  apply list_eq. intros j. rewrite !lookup_drop. apply rescan_prefix_ahead. lia.
Qed.

Lemma donors_rescan tol w i b :
  (i <= length w)%nat ->
  donors tol (rescan_prefix tol w i) (rescan_prefix tol w i) i b
  = donors tol (AdjustWindow tol w) w i b.
Proof.
  intros Hi. unfold donors.
  by rewrite AdjustWindow_rescan, take_rescan, drop_rescan.
Qed.

Lemma AdjustWindow_at tol w i :
  (i < length w)%nat ->
  AdjustWindow tol w !! i = adjust_entry tol (rescan_prefix tol w i) i !! i.
Proof.
  intros Hi. rewrite AdjustWindow_rescan, rescan_prefix_behind by done.
  by rewrite rescan_prefix_S.
Qed.

(** C5, as stated, fails at the largest tolerance.  With
    [tolerance_ns = 2^64 - 1] the entry at tsc 0 with flow_id 0 has the
    attributed neighbour at tsc [2^64 - 1] within tolerance, but the
    neighbour's distance [2^64 - 1] is not below the initial [best_delta]
    (the same value), so the entry keeps flow_id 0 though a donor is in
    reach. *)
Lemma C5_farthest_donor_is_not_adopted :
  ~ (forall (tol : Z) (w : list Bundle) (i : nat) (b : Bundle),
       0 <= tol <= UINT64_MAX ->
       Forall (fun e => 0 <= tsc_of e <= UINT64_MAX) w ->
       w !! i = Some b ->
       flow_of b = 0 ->
       (donors tol (AdjustWindow tol w) w i b = [] /\ AdjustWindow tol w !! i = Some b)
       \/ (exists d, d ∈ donors tol (AdjustWindow tol w) w i b
            /\ AdjustWindow tol w !! i = Some (with_flow (flow_of d) b))).
Proof.
  intros H.
  pose (w := [bundle_at 0 0 0; bundle_at 0 UINT64_MAX 42]).
  assert (0 <= UINT64_MAX <= UINT64_MAX) as Htol by (vm_compute; split; discriminate).
  assert (Forall (fun e => 0 <= tsc_of e <= UINT64_MAX) w) as Hw
    by (repeat constructor; vm_compute; discriminate).
  assert (AdjustWindow UINT64_MAX w = w) as Hsame by (vm_compute; reflexivity).
  assert (donors UINT64_MAX w w 0 (bundle_at 0 0 0) = [bundle_at 0 UINT64_MAX 42]) as Hdonors
    by (vm_compute; reflexivity).
  destruct (H UINT64_MAX w 0%nat (bundle_at 0 0 0) Htol Hw eq_refl eq_refl)
    as [[Hnone _]|(d & Hin & Hadopt)]; rewrite Hsame, Hdonors in *.
  - discriminate Hnone.
  - apply list_elem_of_singleton in Hin. subst d.
    vm_compute in Hadopt. discriminate Hadopt.
Qed.

(** C5 (amended).  With a tolerance below the largest 64-bit value, the
    rescan leaves every attributed entry alone and gives every entry whose
    flow_id is 0 the flow_id of the nearest attributed neighbour among those
    the two directional searches reach: backwards over the entries already
    rescanned and forwards over the rest, each search skipping unattributed
    entries and stopping at the first attributed neighbour whose timestamp
    differs by more than the tolerance, distances being absolute differences
    of timestamps.  With no such neighbour the entry keeps flow_id
    0.  In particular pushing [{cpu=0,tsc=100,flow=0}] then
    [{cpu=0,tsc=120,flow=42}] with tolerance 2000 and flushing emits
    [{tsc=100,flow=42}] then [{tsc=120,flow=42}], in insertion order. *)
Theorem C5_rescan_adopts_nearest_flow
    (tol : Z) (w : list Bundle) (i : nat) (b : Bundle) :
  tol < UINT64_MAX ->
  w !! i = Some b ->
  (flow_of b <> 0 -> AdjustWindow tol w !! i = Some b)
  /\ (flow_of b = 0 ->
      (donors tol (AdjustWindow tol w) w i b = [] /\ AdjustWindow tol w !! i = Some b)
      \/ (exists d, d ∈ donors tol (AdjustWindow tol w) w i b
           /\ AdjustWindow tol w !! i = Some (with_flow (flow_of d) b)
           /\ forall d', d' ∈ donors tol (AdjustWindow tol w) w i b ->
                         delta_to (tsc_of b) d <= delta_to (tsc_of b) d'))
  /\ (let p1 := Process (sample_at 0 100 0) [] (SkewAdjuster.make 2000 4) in
      let p2 := Process (sample_at 0 120 42) [] p1.1 in
      let p3 := SkewAdjuster.Flush p2.1 in
      (p1.2, p2.2, p3.2) = ([], [bundle_at 0 100 42], [bundle_at 0 120 42])).
Proof.
  intros Htol Hb.
  assert (i < length w)%nat as Hi by (by eapply lookup_lt_Some).
  assert (rescan_prefix tol w i !! i = Some b) as Hcur
    by (by rewrite rescan_prefix_ahead).
  destruct (adjust_entry_at tol (rescan_prefix tol w i) i b Htol Hcur) as [Hkeep Hfill].
  rewrite donors_rescan, <- AdjustWindow_at in Hfill by lia.
  rewrite <- AdjustWindow_at in Hkeep by lia.
  split; [exact Hkeep|]. split; [exact Hfill|].
  vm_compute. reflexivity.
Qed.

(** C5 at the window of the unit test: the unattributed entry at tsc 100
    adopts flow 42 from its neighbour at tsc 120. *)
Lemma C5_rescan_adopts_nearest_flow_witness :
  let w := [bundle_at 0 100 0; bundle_at 0 120 42] in
  2000 < UINT64_MAX
  /\ w !! 0%nat = Some (bundle_at 0 100 0)
  /\ AdjustWindow 2000 w !! 0%nat = Some (bundle_at 0 100 42).
Proof.
  intros w.
  assert (2000 < UINT64_MAX) as H1 by reflexivity.
  assert (w !! 0%nat = Some (bundle_at 0 100 0)) as H2 by reflexivity.
  split; [exact H1|]. split; [exact H2|].
  destruct (C5_rescan_adopts_nearest_flow 2000 w 0 (bundle_at 0 100 0) H1 H2)
    as (_ & Hfill & _).
  destruct (Hfill eq_refl) as [[Hnone _]|(d & Hin & Hd & _)].
  - vm_compute in Hnone. discriminate Hnone.
  - reflexivity.
Defined.

(** Scenario S3, second part: two CPUs; the entry of CPU 0 adopts the flow of
    its later neighbour on the same CPU, the entry of CPU 1 keeps its own. *)
Example S3_two_cpus :
  let p1 := Process (sample_at 0 1000 0) [] (SkewAdjuster.make 2000 4) in
  let p2 := Process (sample_at 1 1010 77) [] p1.1 in
  let p3 := Process (sample_at 0 1040 99) [] p2.1 in
  let p4 := SkewAdjuster.Flush p3.1 in
  (p1.2, p2.2, p3.2, p4.2)
  = ([], [], [bundle_at 0 1000 99], [bundle_at 0 1040 99; bundle_at 1 1010 77]).
Proof. vm_compute. reflexivity. Qed.

(** *** The back-fill touches nothing but the flow identifier *)

Lemma adjust_entry_erase tol es i :
  erase_flow <$> adjust_entry tol es i = erase_flow <$> es.
Proof.
  unfold adjust_entry. destruct (es !! i) as [b|] eqn:Hb; [|reflexivity].
  destruct (flow_of b =? 0); [|reflexivity].
  destruct (best_flow _ =? 0); [reflexivity|].
  rewrite list_fmap_insert. apply list_insert_id.
  by rewrite list_lookup_fmap, Hb.
Qed.

Lemma AdjustWindow_erase tol w : erase_flow <$> AdjustWindow tol w = erase_flow <$> w.
Proof.
  rewrite AdjustWindow_rescan. generalize (length w). intros n.
  induction n as [|n IH]; [reflexivity|].
  by rewrite rescan_prefix_S, adjust_entry_erase.
Qed.

Lemma erase_flow_eq b b' : erase_flow b' = erase_flow b -> b' = with_flow (flow_of b') b.
Proof.
  destruct b as [[] ?], b' as [[] ?]. unfold erase_flow, with_flow, flow_of. simpl.
  intros H. injection H as -> -> -> -> -> -> -> -> -> -> -> -> -> -> -> ->. reflexivity.
Qed.

Lemma drain_to_one_app es : forall out,
  (drain_to_one es out).2 ++ (drain_to_one es out).1 = out ++ es.
Proof.
  induction es as [|front rest IH]; intros out; [reflexivity|].
  destruct rest as [|next rest]; [reflexivity|].
  change (drain_to_one (front :: next :: rest) out)
    with (drain_to_one (next :: rest) (out ++ [front])).
  rewrite IH. by rewrite <- app_assoc.
Qed.

Lemma DrainReady_app max_window es out :
  (DrainReady max_window es out).2 ++ (DrainReady max_window es out).1 = out ++ es.
Proof.
  unfold DrainReady. pose proof (drain_to_one_app es out) as H.
  destruct (drain_to_one es out) as [es' out']. cbn [fst snd] in H.
  destruct (Z.of_nat (length es') >? max_window); cbn [fst snd]; [|exact H].
  rewrite <- H, <- app_assoc. f_equal. by destruct es'.
Qed.

Lemma EnsureCpu_lookup cpu (per_cpu : list (list Bundle)) :
  0 <= cpu ->
  EnsureCpu cpu per_cpu !! Z.to_nat cpu = Some (default [] (per_cpu !! Z.to_nat cpu)).
Proof.
  intros Hc. unfold EnsureCpu.
  destruct (Z.geb_spec cpu (Z.of_nat (length per_cpu))) as [Hge|Hlt].
  - rewrite lookup_resize_new by lia.
    by rewrite (lookup_ge_None_2 per_cpu) by lia.
  - destruct (lookup_lt_is_Some_2 per_cpu (Z.to_nat cpu) ltac:(lia)) as [x Hx].
    by rewrite Hx.
Qed.

(** What [Process] emits and keeps is the rescanned window, in order. *)
Lemma Process_window s stk a :
  0 <= Common.cpu s ->
  (Process s stk a).2 ++ window_of (Common.cpu s) (Process s stk a).1
  = AdjustWindow (tolerance_ns_ a)
      (window_of (Common.cpu s) a ++ [ {| sample := s; stack := stk |} ]).
Proof.
  intros Hc. unfold Process, window_of.
  rewrite EnsureCpu_lookup by done. cbn [default].
  set (es := AdjustWindow _ _).
  pose proof (DrainReady_app (max_window_ a) es []) as H.
  destruct (DrainReady (max_window_ a) es []) as [es' ready].
  cbn [fst snd per_cpu_] in *.
  rewrite list_lookup_insert_eq; [exact H|].
  apply lookup_lt_is_Some. rewrite EnsureCpu_lookup by done. eauto.
Qed.

(** C6.  The rescan changes no field other than flow_id: position by
    position the rescanned window equals the enqueued one once the flow_id is
    blanked, so each rescanned bundle is the enqueued bundle (its tsc, cpu,
    pid, ip, every other field and its branch stack) with at most the
    flow_id replaced; and what [Process] emits and keeps is, in order and up
    to flow_id, what was queued followed by the new sample. *)
Theorem C6_backfill_changes_only_flow_id
    (tol : Z) (w : list Bundle) (s : Sample) (stk : LbrStack) (a : SkewAdjuster.t) :
  0 <= Common.cpu s ->
  erase_flow <$> AdjustWindow tol w = erase_flow <$> w
  /\ (forall i b b', w !! i = Some b -> AdjustWindow tol w !! i = Some b' ->
                     b' = with_flow (flow_of b') b)
  /\ erase_flow <$> ((Process s stk a).2 ++ window_of (Common.cpu s) (Process s stk a).1)
     = erase_flow <$> (window_of (Common.cpu s) a ++ [ {| sample := s; stack := stk |} ]).
Proof.
  intros Hc. split; [apply AdjustWindow_erase|]. split.
  - intros i b b' Hb Hb'. apply erase_flow_eq.
    pose proof (AdjustWindow_erase tol w) as He.
    apply (f_equal (fun l => l !! i)) in He.
    rewrite !list_lookup_fmap, Hb, Hb' in He. cbn [fmap option_fmap option_map] in He.
    congruence.
  - by rewrite Process_window, AdjustWindow_erase.
Qed.

(** C6 at the run of the unit test: the emitted sample keeps its timestamp
    and CPU and differs from the enqueued one in flow_id only. *)
Lemma C6_backfill_changes_only_flow_id_witness :
  let a := (Process (sample_at 0 100 0) [] (SkewAdjuster.make 2000 4)).1 in
  let s := sample_at 0 120 42 in
  0 <= Common.cpu s
  /\ erase_flow <$> ((Process s [] a).2 ++ window_of (Common.cpu s) (Process s [] a).1)
     = [erase_flow (bundle_at 0 100 0); erase_flow (bundle_at 0 120 42)].
Proof.
  intros a s.
  assert (0 <= Common.cpu s) as H1 by (vm_compute; discriminate).
  split; [exact H1|].
  destruct (C6_backfill_changes_only_flow_id 2000 [] s [] a H1) as (_ & _ & H).
  rewrite H. reflexivity.
Defined.

End SkewAdjusterFacts.

(** ** Token-bucket update *)

Section BucketUpdateFacts.

Import BucketUpdate.

(** A request that does not set the diagnostic budget keeps
    [diagnostic >= sentinel], and establishes it when it sets the sentinel
    budget. *)
Lemma ApplyBucketUpdate_keeps_order req mode st :
  diagnostic_changed req = false ->
  sentinel_changed req = true \/ sentinel_budget st <= diagnostic_budget st ->
  sentinel_budget (ApplyBucketUpdate req mode st).2
  <= diagnostic_budget (ApplyBucketUpdate req mode st).2.
Proof.
  intros Hd Hs. unfold ApplyBucketUpdate. cbn [snd sentinel_budget diagnostic_budget].
  rewrite Hd. cbn [negb andb].
  destruct (sentinel_changed req); cbn [andb].
  - destruct (Z.ltb_spec (diagnostic_budget st) (req_sentinel_budget req)); lia.
  - destruct Hs; [discriminate|lia].
Qed.

Lemma apply_all_keeps_order post : forall st,
  Forall (fun rm : BucketUpdateRequest * AgentMode => diagnostic_changed rm.1 = false) post ->
  sentinel_budget st <= diagnostic_budget st ->
  sentinel_budget (apply_all post st) <= diagnostic_budget (apply_all post st).
Proof.
  induction post as [|[r m] post IH]; intros st Hpost Hst; [exact Hst|].
  inversion Hpost as [|? ? Hr Hpost']; subst. cbn [fst] in Hr.
  unfold apply_all in *. cbn [foldl fst snd].
  apply IH; [exact Hpost'|].
  apply ApplyBucketUpdate_keeps_order; [exact Hr|by right].
Qed.

(** C7, as stated, fails.  After a sentinel-only request a later
    diagnostic-only request may set the diagnostic budget below the sentinel
    budget: the last request that changed the sentinel budget carried no
    diagnostic update, yet the final state has diagnostic 100 < sentinel
    1500.  And a request that rewrites the stored hard-drop value asks for a
    reprogram although no value changed. *)
Lemma C7_later_diagnostic_update_breaks_order :
  ~ (forall (pre post : list (BucketUpdateRequest * AgentMode))
            (r : BucketUpdateRequest) (mode : AgentMode) (st : BucketState),
        sentinel_changed r = true -> diagnostic_changed r = false ->
        Forall (fun rm : BucketUpdateRequest * AgentMode => sentinel_changed rm.1 = false) post ->
        sentinel_budget (apply_all (pre ++ (r, mode) :: post) st)
        <= diagnostic_budget (apply_all (pre ++ (r, mode) :: post) st))
  /\ (reprogram_required (ApplyBucketUpdate (hard_drop_request 8000) Sentinel test_state).1 = true
      /\ (ApplyBucketUpdate (hard_drop_request 8000) Sentinel test_state).2 = test_state).
Proof.
  split; [|split; reflexivity].
  intros H.
  specialize (H [] [(diagnostic_request 100, Sentinel)] (sentinel_request 1500) Sentinel
                test_state eq_refl eq_refl).
  assert (Forall (fun rm : BucketUpdateRequest * AgentMode => sentinel_changed rm.1 = false)
                 [(diagnostic_request 100, Sentinel)]) as Hpost by (repeat constructor).
  specialize (H Hpost). vm_compute in H. apply H. reflexivity.
Qed.

(** C7 (amended).  For every sequence of bucket-update requests, the state
    after the sequence satisfies [diagnostic_budget >= sentinel_budget]
    whenever some request of the sequence set the sentinel budget without an
    accompanying diagnostic update and no request after it set the diagnostic
    budget.  [reprogram_required] is true iff the request carried an accepted
    value (flag set, value positive) for the hard-drop threshold or for the
    budget of the active mode's arm, or lifted the diagnostic budget while
    Diagnostic is active; in particular it is true whenever the hard-drop
    value or the active arm's budget actually changes. *)
Theorem C7_bucket_update_order_and_reprogram
    (pre post : list (BucketUpdateRequest * AgentMode))
    (r : BucketUpdateRequest) (mode : AgentMode) (st : BucketState)
    (req : BucketUpdateRequest) (m : AgentMode) (st0 : BucketState) :
  sentinel_changed r = true ->
  diagnostic_changed r = false ->
  Forall (fun rm : BucketUpdateRequest * AgentMode => diagnostic_changed rm.1 = false) post ->
  sentinel_budget (apply_all (pre ++ (r, mode) :: post) st)
  <= diagnostic_budget (apply_all (pre ++ (r, mode) :: post) st)
  /\ reprogram_required (ApplyBucketUpdate req m st0).1
     = (drop_changed req
        || match m with
           | Sentinel => sentinel_changed req
           | Diagnostic =>
               diagnostic_changed req
               || (sentinel_changed req
                   && (diagnostic_budget st0 <? req_sentinel_budget req))
           end)
  /\ active_budget (ApplyBucketUpdate req m st0).1
     = arm_budget m (ApplyBucketUpdate req m st0).2
  /\ (hard_drop_ns (ApplyBucketUpdate req m st0).2 <> hard_drop_ns st0
      \/ arm_budget m (ApplyBucketUpdate req m st0).2 <> arm_budget m st0 ->
      reprogram_required (ApplyBucketUpdate req m st0).1 = true).
Proof.
  intros Hs Hd Hpost. split; [|split; [|split]].
  - unfold apply_all. rewrite foldl_app. cbn [foldl fst snd].
    apply apply_all_keeps_order; [exact Hpost|].
    apply ApplyBucketUpdate_keeps_order; [exact Hd|by left].
  - unfold ApplyBucketUpdate. cbn [fst reprogram_required]. f_equal.
    destruct m; [reflexivity|].
    destruct (diagnostic_changed req), (sentinel_changed req); reflexivity.
  - unfold ApplyBucketUpdate. by destruct m.
  - unfold ApplyBucketUpdate, arm_budget.
    cbn [fst snd reprogram_required hard_drop_ns sentinel_budget diagnostic_budget].
    destruct (drop_changed req); [reflexivity|]. cbn [orb].
    intros [Hh|Ha]; [congruence|].
    destruct m.
    + destruct (sentinel_changed req); [reflexivity|congruence].
    + destruct (diagnostic_changed req); [reflexivity|]. cbn [negb andb orb] in *.
      destruct (sentinel_changed req); cbn [andb] in *; [|congruence].
      destruct (diagnostic_budget st0 <? req_sentinel_budget req); [reflexivity|congruence].
Qed.

(** The amended C7 at the requests of the unit test: raising the sentinel
    budget to 5000 lifts the diagnostic budget with it, and a later hard-drop
    request keeps the order. *)
Lemma C7_bucket_update_order_and_reprogram_witness :
  let post := [(hard_drop_request 2000, Sentinel)] in
  sentinel_changed (sentinel_request 5000) = true
  /\ diagnostic_changed (sentinel_request 5000) = false
  /\ Forall (fun rm : BucketUpdateRequest * AgentMode => diagnostic_changed rm.1 = false) post
  /\ sentinel_budget
       (apply_all ([(diagnostic_request 6000, Sentinel)]
                   ++ (sentinel_request 5000, Diagnostic) :: post) test_state)
     <= diagnostic_budget
          (apply_all ([(diagnostic_request 6000, Sentinel)]
                      ++ (sentinel_request 5000, Diagnostic) :: post) test_state).
Proof.
  intros post.
  assert (Forall (fun rm : BucketUpdateRequest * AgentMode => diagnostic_changed rm.1 = false)
                 post) as H3 by (repeat constructor).
  split; [reflexivity|]. split; [reflexivity|]. split; [exact H3|].
  apply (C7_bucket_update_order_and_reprogram
           [(diagnostic_request 6000, Sentinel)] post (sentinel_request 5000) Diagnostic
           test_state empty_request Sentinel test_state eq_refl eq_refl H3).
Defined.

(** Scenario S4: the bucket updates of the unit test. *)
Example S4_bucket_updates :
  let u1 := ApplyBucketUpdate (sentinel_request 1500) Sentinel test_state in
  let u2 := ApplyBucketUpdate (diagnostic_request 6000) Sentinel u1.2 in
  let u3 := ApplyBucketUpdate (diagnostic_request 6000) Diagnostic u2.2 in
  let u4 := ApplyBucketUpdate (hard_drop_request 2000) Sentinel u3.2 in
  (u1.1, diagnostic_budget u1.2, u2.1, u3.1, reprogram_required u4.1, hard_drop_ns u4.2)
  = ({| reprogram_required := true; active_budget := 1500 |}, 4000,
     {| reprogram_required := false; active_budget := 1500 |},
     {| reprogram_required := true; active_budget := 6000 |}, true, 2000).
Proof. vm_compute. reflexivity. Qed.

End BucketUpdateFacts.

(** ** False-sharing detector *)

Section FalseSharingFacts.

Import FalseSharingDetector.

(** Every finding comes from a line that was evicted by the unsigned window
    test and passed the three filters. *)
Lemma Flush_findings_pass_filters now d finding :
  finding ∈ (FalseSharingDetector.Flush now d).2 ->
  exists line stats,
    table_ d !! line = Some stats
    /\ finding = finding_of d line stats (map_to_list (pid_hits stats))
    /\ wrap64 (now - last_tsc stats) > window_ns_ d
    /\ threshold_ d <= total_hits stats
    /\ 2 <= (cpu_summary (cpu_hits stats)).1
    /\ B64.leb (B64.lit 9 10) (dominance stats) = false.
Proof.
  unfold FalseSharingDetector.Flush, Flush_visiting. cbn [snd].
  intros ([line stats] & Hin & Hf)%list_elem_of_omap. cbn [fst snd] in Hf.
  apply elem_of_map_to_list, map_lookup_filter_Some in Hin as [Hlook Hexp].
  cbn [snd] in Hexp.
  destruct (passes_filters (threshold_ d) stats) eqn:Hp; [|discriminate Hf].
  injection Hf as <-. exists line, stats.
  unfold passes_filters in Hp.
  apply andb_prop in Hp as [Hp Hdom]. apply andb_prop in Hp as [Hthr Hact].
  apply negb_true_iff in Hthr, Hact, Hdom.
  apply Z.ltb_ge in Hthr, Hact. unfold expired in Hexp. apply Z.gtb_lt in Hexp.
  repeat split; [done| |done|done|done]. lia.
Qed.

(** C8: the code departs from the claim.  A line last hit one microsecond
    AFTER the flush timestamp is not older than the window, but the unsigned
    difference [now_tsc - last_tsc] wraps to a huge value, so the line is
    evicted and, having two hits on two CPUs, reported. *)
Lemma C8_line_hit_after_now_is_reported :
  let d := Observe (hitm_sample 1 11 4100 1000001000)
             (Observe (hitm_sample 0 10 4096 1000001000)
                (FalseSharingDetector.make None 50000000 2)) in
  last_tsc <$> (table_ d !! 4096) = Some 1000001000
  /\ (FalseSharingDetector.Flush 1000000000 d).2
     = [ {| line_addr := 4096; finding_total_hits := 2; finding_cpu_hits := [1; 1];
            dominant_pid := 11; object := Symbolizer.empty_DataObject |} ]
  /\ table_ (FalseSharingDetector.Flush 1000000000 d).1 = ∅.
Proof. vm_compute. repeat split. Qed.

End FalseSharingFacts.

(** ** Time calibrator *)

Section TscCalibratorFacts.

Import TscCalibrator.

Lemma EnsureModel_lookup cpu (models : list CpuModel) :
  0 <= cpu ->
  EnsureModel cpu models !! Z.to_nat cpu
  = Some (default default_model (EnsureModel cpu models !! Z.to_nat cpu)).
Proof.
  intros Hc. unfold EnsureModel.
  destruct (Z.geb_spec cpu (Z.of_nat (length models))) as [Hge|Hlt].
  - by rewrite lookup_resize_new by lia.
  - destruct (lookup_lt_is_Some_2 models (Z.to_nat cpu) ltac:(lia)) as [x Hx].
    by rewrite Hx.
Qed.

Lemma EnsureModel_insert cpu (models : list CpuModel) m :
  0 <= cpu ->
  EnsureModel cpu (<[Z.to_nat cpu := m]> (EnsureModel cpu models)) !! Z.to_nat cpu
  = Some m.
Proof.
  intros Hc.
  assert (Z.to_nat cpu < length (EnsureModel cpu models))%nat as Hlen
    by (apply lookup_lt_is_Some; rewrite EnsureModel_lookup by done; eauto).
  unfold EnsureModel at 1. rewrite length_insert.
  destruct (Z.geb_spec cpu (Z.of_nat (length (EnsureModel cpu models)))); [lia|].
  by apply list_lookup_insert_eq.
Qed.

Lemma EnsureModel_idem cpu (models : list CpuModel) :
  0 <= cpu -> EnsureModel cpu (EnsureModel cpu models) = EnsureModel cpu models.
Proof.
  intros Hc.
  assert (Z.to_nat cpu < length (EnsureModel cpu models))%nat as Hlen
    by (apply lookup_lt_is_Some; rewrite EnsureModel_lookup by done; eauto).
  unfold EnsureModel at 1.
  by destruct (Z.geb_spec cpu (Z.of_nat (length (EnsureModel cpu models)))); [lia|].
Qed.

(** C9, as stated, fails.  A calibrator is initialised on CPU 0 by a sample
    with raw timestamp 1000 at wall time 1 s.  Two further samples arrive at
    that same wall time with raw timestamps 2000 and 2001: the first
    normalises to 1000000950, the second to 1000000903, because each call
    drags the offset towards the wall clock. *)
Lemma C9_affine_mode_goes_backwards :
  ~ (forall (c : TscCalibrator.t) (ref_ns cpu raw1 raw2 n1 n2 : Z),
        raw1 < raw2 ->
        (Normalize ref_ns cpu raw1 c).1 = Some n1 ->
        (Normalize ref_ns cpu raw2 (Normalize ref_ns cpu raw1 c).2).1 = Some n2 ->
        n1 <= n2).
Proof.
  intros H.
  specialize (H (Normalize 1000000000 0 1000 (make default_config)).2
                1000000000 0 2000 2001 1000000950 1000000903 eq_refl).
  assert (1000000950 <= 1000000903) as Habs.
  { apply H; vm_compute; reflexivity. }
  vm_compute in Habs. apply Habs. reflexivity.
Qed.

(** C9 (amended).  Where [Normalize] returns the raw timestamp (calibration
    disabled, or the CPU's model a steady-clock passthrough, including the
    call that initialises it as one) it is monotone per CPU: two consecutive
    samples on the same CPU with [raw2 > raw1] normalise to [raw1] and
    [raw2], whatever the wall time of the two calls.  Nothing is claimed for
    the affine mode. *)
Theorem C9_normalize_monotone_where_raw_is_returned
    (c : TscCalibrator.t) (ref1 ref2 cpu raw1 raw2 : Z) :
  0 <= cpu ->
  raw1 < raw2 ->
  returns_raw ref1 cpu raw1 c = true ->
  (Normalize ref1 cpu raw1 c).1 = Some raw1
  /\ (Normalize ref2 cpu raw2 (Normalize ref1 cpu raw1 c).2).1 = Some raw2
  /\ (forall n1 n2,
        (Normalize ref1 cpu raw1 c).1 = Some n1 ->
        (Normalize ref2 cpu raw2 (Normalize ref1 cpu raw1 c).2).1 = Some n2 ->
        n1 <= n2).
Proof.
  intros Hc Hraw Hret.
  assert ((Normalize ref1 cpu raw1 c).1 = Some raw1
          /\ (Normalize ref2 cpu raw2 (Normalize ref1 cpu raw1 c).2).1 = Some raw2)
    as [H1 H2].
  { unfold returns_raw, model_of in Hret. unfold Normalize at 1 3.
    destruct (enabled (cfg_ c)) eqn:He; cbn [negb orb] in *.
    - destruct (initialized (default default_model (EnsureModel cpu (models_ c) !! Z.to_nat cpu)))
        eqn:Hi; cbn [negb].
      + rewrite Hret. cbn [fst snd]. split; [reflexivity|].
        unfold Normalize. cbn [cfg_ models_]. rewrite He. cbn [negb].
        rewrite EnsureModel_idem, Hi, Hret by done. reflexivity.
      + rewrite Hret. cbn [fst snd]. split; [reflexivity|].
        unfold Normalize. cbn [cfg_ models_]. rewrite He. cbn [negb].
        rewrite EnsureModel_insert by done. reflexivity.
    - cbn [fst snd]. split; [reflexivity|].
      unfold Normalize. rewrite He. reflexivity. }
  split; [exact H1|]. split; [exact H2|].
  intros n1 n2 Hn1 Hn2. rewrite H1 in Hn1. rewrite H2 in Hn2.
  injection Hn1 as <-. injection Hn2 as <-. lia.
Qed.

(** The amended C9 on a fresh calibrator whose first sample already is in
    steady-clock nanoseconds. *)
Lemma C9_normalize_monotone_where_raw_is_returned_witness :
  let c := make default_config in
  0 <= 3
  /\ 1000000000 < 1000000500
  /\ returns_raw 1000000200 3 1000000000 c = true
  /\ (Normalize 1000000200 3 1000000500 (Normalize 1000000200 3 1000000000 c).2).1
     = Some 1000000500.
Proof.
  intros c.
  assert (0 <= 3) as H1 by (vm_compute; discriminate).
  assert (1000000000 < 1000000500) as H2 by reflexivity.
  assert (returns_raw 1000000200 3 1000000000 c = true) as H3 by (vm_compute; reflexivity).
  repeat (split; [assumption|]).
  apply (C9_normalize_monotone_where_raw_is_returned c 1000000200 1000000200 3
           1000000000 1000000500 H1 H2 H3).
Defined.

(** The run of the unit test: with smoothing factors 0.2 and 0.5, a second
    sample 10000 raw units and 1 ms later normalises to a later time. *)
Example unit_test_calibration :
  let c := make {| enabled := true; slope_alpha := B64.lit 2 10;
                   offset_alpha := B64.lit 5 10 |} in
  let p1 := Normalize 5000000000 0 1000000 c in
  let p2 := Normalize 5001000000 0 1010000 p1.2 in
  (p1.1, p2.1) = (Some 5000000000, Some 5000505000).
Proof. vm_compute. reflexivity. Qed.

End TscCalibratorFacts.

(** ** Order of binary64 values *)

Section B64Order.

Ltac order_cases :=
  repeat match goal with
         | |- context [Z.compare ?a ?b] =>
             destruct (Z.compare_spec a b); subst
         | H : context [Z.compare ?a ?b] |- _ =>
             destruct (Z.compare_spec a b); subst
         | |- context [Pos.compare_cont Eq ?a ?b] =>
             change (Pos.compare_cont Eq a b) with (Pos.compare a b);
             destruct (Pos.compare_spec a b); subst
         | H : context [Pos.compare_cont Eq ?a ?b] |- _ =>
             change (Pos.compare_cont Eq a b) with (Pos.compare a b) in H;
             destruct (Pos.compare_spec a b); subst
         | _ => progress cbn [CompOpp] in *
         end;
  try discriminate; try reflexivity; try lia.

Lemma ltb_irrefl a : B64.ltb a a = false.
Proof.
  unfold B64.ltb, SFltb.
  destruct a as [s|s| |s m e]; try (destruct s; reflexivity); try reflexivity.
  cbn. destruct s; rewrite Z.compare_refl, Pos.compare_cont_refl; reflexivity.
Qed.

Lemma ltb_trans a b c : B64.ltb a b = true -> B64.ltb b c = true -> B64.ltb a c = true.
Proof.
  unfold B64.ltb, SFltb.
  destruct a as [[]|[]| |[] m1 e1], b as [[]|[]| |[] m2 e2], c as [[]|[]| |[] m3 e3];
    cbn; try discriminate; try reflexivity;
    intros H1 H2; order_cases.
Qed.

Lemma ltb_leb_false a b : B64.ltb a b = true -> B64.leb b a = false.
Proof.
  unfold B64.ltb, B64.leb, SFltb, SFleb.
  destruct a as [[]|[]| |[] m1 e1], b as [[]|[]| |[] m2 e2];
    cbn; try discriminate; try reflexivity;
    intros H1; order_cases.
Qed.

Lemma ltb_leb a b : B64.ltb a b = true -> B64.leb a b = true.
Proof.
  unfold B64.ltb, B64.leb, SFltb, SFleb.
  destruct (SFcompare a b) as [[]|]; try discriminate; reflexivity.
Qed.

Lemma ltb_leb_trans a b c : B64.ltb a b = true -> B64.leb b c = true -> B64.ltb a c = true.
Proof.
  unfold B64.ltb, B64.leb, SFltb, SFleb.
  destruct a as [[]|[]| |[] m1 e1], b as [[]|[]| |[] m2 e2], c as [[]|[]| |[] m3 e3];
    cbn; try discriminate; try reflexivity;
    intros H1 H2; order_cases.
Qed.

Lemma leb_ltb_trans a b c : B64.leb a b = true -> B64.ltb b c = true -> B64.ltb a c = true.
Proof.
  unfold B64.ltb, B64.leb, SFltb, SFleb.
  destruct a as [[]|[]| |[] m1 e1], b as [[]|[]| |[] m2 e2], c as [[]|[]| |[] m3 e3];
    cbn; try discriminate; try reflexivity;
    intros H1 H2; order_cases.
Qed.

End B64Order.

(** ** Aggregator: bounds, per-key counts and buckets *)

Section AggregatorMore.

Import Aggregator AggregatorRuns.

Implicit Types (a : Aggregator.t) (m : gmap AggregationKey AggregatedValue).

Lemma AddSample_cfg sample lbr a : cfg_ (AddSample sample lbr a) = cfg_ a.
Proof. unfold AddSample. by destruct (sheds a sample lbr). Qed.

Lemma AddSample_size sample lbr a :
  0 <= max_entries (cfg_ a) ->
  Z.of_nat (size (table_ (AddSample sample lbr a))) <= max_entries (cfg_ a).
Proof.
  intros Hmax. unfold AddSample.
  destruct (sheds a sample lbr) eqn:Hs; cbn [with_table table_].
  - rewrite map_size_empty. exact Hmax.
  - unfold sheds in Hs. rewrite Z.gtb_ltb in Hs. apply Z.ltb_ge in Hs. exact Hs.
Qed.

(** X1.  The overflow guard bounds the table: after any stream of samples
    the table holds at most [max_entries] keys (given that it did before
    and that the bound is not negative), and the configuration is never
    touched. *)
Theorem X1_table_never_exceeds_max_entries
        (stream : list (Sample * LbrStack)) (a : Aggregator.t) :
  0 <= max_entries (cfg_ a) ->
  Z.of_nat (size (table_ a)) <= max_entries (cfg_ a) ->
  Z.of_nat (size (table_ (add_all stream a))) <= max_entries (cfg_ a)
  /\ cfg_ (add_all stream a) = cfg_ a.
Proof.
  revert a. induction stream as [|[s l] rest IH]; intros a Hmax Hsz; [done|].
  cbn [add_all foldl fst snd].
  destruct (IH (AddSample s l a)) as [H1 H2].
  - by rewrite AddSample_cfg.
  - rewrite AddSample_cfg. by apply AddSample_size.
  - unfold add_all in *. rewrite AddSample_cfg in H1, H2. done.
Qed.

Lemma X1_table_never_exceeds_max_entries_witness :
  let a := make {| time_window_ns := 100; max_entries := 1 |} in
  let stream := [(sample_of_flow 7 1, []); (sample_of_flow 8 1, []); (sample_of_flow 9 1, [])] in
  Z.of_nat (size (table_ (add_all stream a))) <= 1
  /\ cfg_ (add_all stream a) = cfg_ a.
Proof.
  intros a stream.
  apply (X1_table_never_exceeds_max_entries stream a); vm_compute; discriminate.
Defined.

Lemma make_key_AddSample s l a sample lbr :
  make_key (AddSample s l a) sample lbr = make_key a sample lbr.
Proof. unfold AddSample. by destruct (sheds a s l). Qed.

Lemma key_count_AddSample s l a k stream :
  key_count (AddSample s l a) k stream = key_count a k stream.
Proof.
  unfold key_count. f_equal. f_equal.
  induction stream as [|x rest IH]; [done|].
  cbn [List.filter]. by rewrite make_key_AddSample, IH.
Qed.

Lemma key_count_bounds a k stream :
  0 <= key_count a k stream <= Z.of_nat (length stream).
Proof.
  unfold key_count. split; [lia|].
  apply Nat2Z.inj_le, List.filter_length_le.
Qed.

Lemma slot_of_bump a sample lbr k :
  slot_of (bump a sample lbr) k
  = if bool_decide (make_key a sample lbr = k)
    then {| samples := wrap64 (samples (slot_of (table_ a) k) + 1);
            norm_cost := B64.add (norm_cost (slot_of (table_ a) k))
                                 (sample_weight a sample) |}
    else slot_of (table_ a) k.
Proof.
  unfold bump, slot_of. case_bool_decide as Hk.
  - subst k. by rewrite lookup_insert_eq.
  - by rewrite lookup_insert_ne.
Qed.

Lemma add_all_key_count stream : forall a k,
  0 <= samples (slot_of (table_ a) k) ->
  samples (slot_of (table_ a) k) + Z.of_nat (length stream) < 2 ^ 64 ->
  never_sheds stream a = true ->
  samples (slot_of (table_ (add_all stream a)) k)
  = samples (slot_of (table_ a) k) + key_count a k stream.
Proof.
  induction stream as [|[s l] rest IH]; intros a k H0 Hlen Hns.
  - unfold key_count. cbn. lia.
  - cbn [never_sheds fst snd] in Hns. apply andb_prop in Hns as [Hs Hns].
    apply negb_true_iff in Hs.
    cbn [add_all foldl fst snd]. cbn [length] in Hlen.
    assert (table_ (AddSample s l a) = bump a s l) as Htbl
      by (unfold AddSample; by rewrite Hs).
    pose proof (slot_of_bump a s l k) as Hslot.
    unfold add_all in IH. rewrite IH; [|rewrite Htbl, Hslot..|done].
    + rewrite Htbl, Hslot, key_count_AddSample.
      unfold key_count. cbn [List.filter fst snd].
      case_bool_decide; cbn [samples length]; [rewrite wrap64_small by lia|]; lia.
    + case_bool_decide; cbn [samples]; [rewrite wrap64_small by lia|]; lia.
    + case_bool_decide; cbn [samples]; [rewrite wrap64_small by lia|]; lia.
Qed.

Lemma add_all_lookup_None stream : forall a k,
  never_sheds stream a = true ->
  table_ (add_all stream a) !! k = None
  <-> table_ a !! k = None /\ key_count a k stream = 0.
Proof.
  induction stream as [|[s l] rest IH]; intros a k Hns.
  - unfold key_count. cbn. tauto.
  - cbn [never_sheds fst snd] in Hns. apply andb_prop in Hns as [Hs Hns].
    apply negb_true_iff in Hs.
    cbn [add_all foldl fst snd].
    assert (table_ (AddSample s l a) = bump a s l) as Htbl
      by (unfold AddSample; by rewrite Hs).
    unfold add_all in IH. rewrite IH by done.
    rewrite Htbl, key_count_AddSample. unfold bump, key_count.
    cbn [List.filter fst snd]. rewrite lookup_insert_None.
    case_bool_decide; cbn [length]; intuition (try lia; try congruence).
Qed.

(** X2.  Between flushes the table counts samples per key: starting from
    an empty table and as long as the overflow guard does not fire, the
    [samples] field under a key is the number of samples of the stream whose
    key it is, and a key has an entry exactly when at least one sample fell
    under it. *)
Theorem X2_rollup_counts_samples_per_key
        (stream : list (Sample * LbrStack)) (a : Aggregator.t) (k : AggregationKey) :
  table_ a = ∅ ->
  Z.of_nat (length stream) < 2 ^ 64 ->
  never_sheds stream a = true ->
  samples (slot_of (table_ (add_all stream a)) k) = key_count a k stream
  /\ (table_ (add_all stream a) !! k = None <-> key_count a k stream = 0).
Proof.
  intros He Hlen Hns.
  pose proof (add_all_key_count stream a k) as H.
  assert (slot_of (table_ a) k = {| samples := 0; norm_cost := B64.zero |}) as Hslot
    by (unfold slot_of; by rewrite He, lookup_empty).
  rewrite Hslot in H. cbn [samples] in H.
  specialize (H ltac:(lia) ltac:(lia) Hns).
  split; [exact H|].
  rewrite add_all_lookup_None by done. rewrite He, lookup_empty. tauto.
Qed.

Lemma X2_rollup_counts_samples_per_key_witness :
  let a := make {| time_window_ns := 100; max_entries := 200000 |} in
  let stream := [(sample_of_flow 7 4, []); (sample_of_flow 8 1, []); (sample_of_flow 7 1, [])] in
  let k := make_key a (sample_of_flow 7 1) [] in
  samples (slot_of (table_ (add_all stream a)) k) = key_count a k stream
  /\ (table_ (add_all stream a) !! k = None <-> key_count a k stream = 0).
Proof.
  intros a stream k.
  apply (X2_rollup_counts_samples_per_key stream a k); vm_compute; reflexivity.
Defined.

(** X3.  The bucket of a timestamp is the index of the window it falls
    in: with a window of [w > 0] nanoseconds the bucket is [b] exactly when
    [b * w <= tsc < (b + 1) * w]; with a zero window the bucket is the
    timestamp itself. *)
Theorem X3_bucket_is_the_window_index (a : Aggregator.t) (tsc : Z) :
  (time_window_ns (cfg_ a) = 0 -> Bucketize a tsc = tsc)
  /\ (0 < time_window_ns (cfg_ a) ->
      forall b, Bucketize a tsc = b
                <-> b * time_window_ns (cfg_ a) <= tsc < (b + 1) * time_window_ns (cfg_ a)).
Proof.
  unfold Bucketize. split.
  - intros ->. reflexivity.
  - intros Hw b. destruct (Z.eqb_spec (time_window_ns (cfg_ a)) 0) as [?|_]; [lia|].
    set (w := time_window_ns (cfg_ a)) in *.
    pose proof (Z.div_mod tsc w ltac:(lia)) as Hdm.
    pose proof (Z.mod_pos_bound tsc w Hw) as Hm.
    split; [intros <-; nia|intros Hb].
    symmetry. apply (Z.div_unique tsc w b (tsc - w * b)); [left; nia|lia].
Qed.


End AggregatorMore.

(** ** Mode hysteresis, target filter and token bucket: further properties *)

Section ModeControllerMore.

Import ModeController.

Lemma store_mode_thresholds m c : thresholds_ (store_mode m c) = thresholds_ c.
Proof. reflexivity. Qed.

(** X4.  Hysteresis: when the return threshold does not exceed the entry
    threshold, a load ratio that has just moved the controller to the other
    mode cannot move it back, whatever the clock reads at the next call. *)
Theorem X4_load_ratio_cannot_flap
        (c : ModeController.t) (now1 now2 : Z) (load_ratio : spec_float) :
  B64.leb (diag_to_sentinel (thresholds_ c)) (sentinel_to_diag (thresholds_ c)) = true ->
  Mode (Update now1 load_ratio c) <> Mode c ->
  Update now2 load_ratio (Update now1 load_ratio c) = Update now1 load_ratio c.
Proof.
  intros Hord Hchg.
  assert (exists m, Update now1 load_ratio c = store_mode m c /\ m <> mode_ c
                    /\ match m with
                       | Diagnostic =>
                           B64.ltb (sentinel_to_diag (thresholds_ c)) load_ratio = true
                       | Sentinel =>
                           B64.ltb load_ratio (diag_to_sentinel (thresholds_ c)) = true
                       end) as (m & -> & Hm & Hcross).
  { unfold Mode, Update in *. destruct (mode_ c) eqn:Hc.
    - destruct (B64.ltb (sentinel_to_diag (thresholds_ c)) load_ratio) eqn:Hup;
        [|by rewrite Hc in Hchg].
      by exists Diagnostic.
    - destruct (negb (AnomalyHoldActive now1 c)
                && B64.ltb load_ratio (diag_to_sentinel (thresholds_ c))) eqn:Hdown;
        [|by rewrite Hc in Hchg].
      apply andb_prop in Hdown as [_ Hdown]. by exists Sentinel. }
  unfold Update. cbn [store_mode mode_ thresholds_]. destruct m.
  - destruct (B64.ltb (sentinel_to_diag (thresholds_ c)) load_ratio) eqn:Hup; [|done].
    pose proof (ltb_leb_trans _ _ _ Hcross Hord) as Hlt.
    apply ltb_leb_false in Hlt. apply ltb_leb in Hup. congruence.
  - destruct (B64.ltb load_ratio (diag_to_sentinel (thresholds_ c))) eqn:Hdown;
      [|by rewrite andb_false_r].
    pose proof (ltb_trans _ _ _ Hcross Hdown) as Hlt.
    apply ltb_leb_false in Hlt. congruence.
Qed.

Lemma X4_load_ratio_cannot_flap_witness :
  let c := make test_thresholds in
  Update 2000000 (B64.lit 12 10) (Update 1000000 (B64.lit 12 10) c)
  = Update 1000000 (B64.lit 12 10) c.
Proof.
  intros c.
  apply (X4_load_ratio_cannot_flap c 1000000 2000000 (B64.lit 12 10));
    vm_compute; [reflexivity|discriminate].
Defined.

End ModeControllerMore.

Section TargetFilterMore.

Import MonitoringTargetManager.

Variable read_procs : string -> list Z.

Lemma LoadCgroupPids_no_zero path dest :
  0 ∉ dest -> 0 ∉ LoadCgroupPids read_procs path dest.
Proof.
  unfold LoadCgroupPids. generalize (read_procs (procs_path path)).
  intros l. revert dest. induction l as [|p l IH]; intros dest Hd; [done|].
  cbn [foldl]. apply IH. destruct (Z.eqb_spec p 0); [done|].
  intros [?%elem_of_singleton| ?]%elem_of_union; [lia|done].
Qed.

Lemma apply_spec_no_zero spec l :
  0 ∉ next_pids l -> 0 ∉ next_pids (apply_spec read_procs spec l).
Proof.
  intros Hl. unfold apply_spec. destruct (type spec); cbn [next_pids].
  - set_solver.
  - destruct (path spec); [done|]. by apply LoadCgroupPids_no_zero.
  - destruct (Z.eqb_spec (pid spec) 0); [done|].
    intros [?%elem_of_singleton| ?]%elem_of_union; [lia|done].
  - done.
Qed.

Lemma update_loop_no_zero specs : forall l,
  0 ∉ next_pids l -> 0 ∉ next_pids (update_loop read_procs specs l).
Proof.
  induction specs as [|spec rest IH]; intros l Hl; [done|].
  cbn [update_loop]. pose proof (apply_spec_no_zero spec l Hl).
  destruct (allow_all (apply_spec read_procs spec l)); [done|]. by apply IH.
Qed.

(** X5.  Process id 0 is never on the allow list, so once a PID filter is
    active every sample with pid 0 is rejected, whatever the target list
    and whatever the cgroup files contain. *)
Theorem X5_pid_zero_never_passes_a_pid_filter
        (specs : list TargetSpec) (m0 : MonitoringTargetManager.t) (sample : Sample) :
  allow_all_ (Update read_procs specs m0) = false ->
  has_pid_filter_ (Update read_procs specs m0) = true ->
  Common.pid sample = 0 ->
  Allow sample (Update read_procs specs m0) = false.
Proof.
  intros Hall Hpid Hz. unfold Allow, pid_ok. rewrite Hall, Hpid, Hz.
  rewrite bool_decide_eq_false_2; [done|].
  unfold Update. cbn [allowed_pids_]. apply update_loop_no_zero. cbn. set_solver.
Qed.

Lemma update_loop_All pre spec post : forall l,
  type spec = All ->
  allow_all (update_loop read_procs (pre ++ spec :: post) l) = true.
Proof.
  induction pre as [|x pre IH]; intros l Hs.
  - cbn [app update_loop]. unfold apply_spec. rewrite Hs. reflexivity.
  - cbn [app update_loop].
    destruct (allow_all (apply_spec read_procs x l)) eqn:Hx; [done|]. by apply IH.
Qed.

(** X6.  A target of type All anywhere in the list switches filtering off:
    every sample is accepted, whatever the other targets say. *)
Theorem X6_all_target_accepts_everything
        (pre post : list TargetSpec) (path : string) (pid : Z) (flow : FlowTarget)
        (m0 : MonitoringTargetManager.t) (sample : Sample) :
  let spec := {| type := All; path := path; pid := pid; flow := flow |} in
  Allow sample (Update read_procs (pre ++ spec :: post) m0) = true.
Proof.
  intros spec. unfold Allow, Update. cbn [allow_all_].
  by rewrite update_loop_All.
Qed.

End TargetFilterMore.

Section TargetFilterMoreExamples.

Import MonitoringTargetManager.

Lemma X5_pid_zero_never_passes_a_pid_filter_witness :
  Allow (sample_of 0 3 6) (Update no_cgroups [process_spec 0; process_spec 42] make) = false.
Proof.
  apply (X5_pid_zero_never_passes_a_pid_filter no_cgroups); reflexivity.
Defined.

End TargetFilterMoreExamples.

Section BucketUpdateMore.

Import BucketUpdate BucketUpdateRuns.

(** X7.  Applying the same request twice leaves the state and the active
    budget the first application produced: the automatic lift of the
    diagnostic budget does not compound. *)
Theorem X7_bucket_update_is_idempotent
        (req : BucketUpdateRequest) (mode : AgentMode) (state : BucketState) :
  let once := ApplyBucketUpdate req mode state in
  let twice := ApplyBucketUpdate req mode once.2 in
  twice.2 = once.2 /\ active_budget twice.1 = active_budget once.1.
Proof.
  intros once twice. subst once twice. unfold ApplyBucketUpdate. cbn [fst snd].
  cbn [sentinel_budget diagnostic_budget hard_drop_ns active_budget].
  destruct (sentinel_changed req), (diagnostic_changed req), (drop_changed req);
    cbn [negb andb orb];
    try (destruct (diagnostic_budget state <? req_sentinel_budget req) eqn:Hlt);
    rewrite ?Z.ltb_irrefl; try rewrite Hlt; destruct mode; done.
Qed.

Lemma ApplyBucketUpdate_positive req mode st :
  positive_state st -> positive_state (ApplyBucketUpdate req mode st).2.
Proof.
  intros (Hs & Hd & Hh). unfold ApplyBucketUpdate, positive_state. cbn [snd].
  cbn [sentinel_budget diagnostic_budget hard_drop_ns].
  unfold sentinel_changed, diagnostic_changed, drop_changed.
  destruct (has_sentinel req), (has_diagnostic req), (has_hard_drop req);
    cbn [negb andb orb];
    repeat match goal with
           | |- context [?a >? 0] => destruct (Z.gtb_spec a 0)
           | |- context [?a <? ?b] => destruct (Z.ltb_spec a b)
           end; cbn [negb andb orb]; lia.
Qed.

(** X8.  A budget or drop interval never becomes zero: from a state with
    positive fields, any sequence of requests (including requests that carry
    zero values) leaves all three fields, and hence the active budget of
    either mode, positive. *)
Theorem X8_budgets_stay_positive
        (reqs : list (BucketUpdateRequest * AgentMode)) (state : BucketState) :
  0 < sentinel_budget state -> 0 < diagnostic_budget state -> 0 < hard_drop_ns state ->
  0 < sentinel_budget (apply_all reqs state)
  /\ 0 < diagnostic_budget (apply_all reqs state)
  /\ 0 < hard_drop_ns (apply_all reqs state)
  /\ forall mode, 0 < arm_budget mode (apply_all reqs state).
Proof.
  intros Hs Hd Hh.
  assert (positive_state (apply_all reqs state)) as (H1 & H2 & H3).
  { assert (positive_state state) as Hp by done. clear Hs Hd Hh.
    revert state Hp. induction reqs as [|[req mode] rest IH]; intros st Hp; [done|].
    cbn [apply_all foldl fst snd]. apply IH. by apply ApplyBucketUpdate_positive. }
  repeat split; try done. by intros [].
Qed.

Lemma X8_budgets_stay_positive_witness :
  let reqs := [(sentinel_request 0, Sentinel); (diagnostic_request 0, Diagnostic);
               (sentinel_request 9000, Diagnostic); (hard_drop_request 0, Sentinel)] in
  0 < sentinel_budget (apply_all reqs test_state)
  /\ 0 < diagnostic_budget (apply_all reqs test_state)
  /\ 0 < hard_drop_ns (apply_all reqs test_state)
  /\ forall mode, 0 < arm_budget mode (apply_all reqs test_state).
Proof.
  intros reqs. apply (X8_budgets_stay_positive reqs test_state); reflexivity.
Defined.

End BucketUpdateMore.

(** ** Skew adjuster: windows and conservation *)

Section SkewAdjusterMore.

Import SkewAdjuster SkewAdjusterRuns.

Implicit Types (b d : Bundle) (w es : list Bundle).

Lemma drain_to_one_last es : forall out,
  es <> [] -> exists x, (drain_to_one es out).1 = [x].
Proof.
  induction es as [|x [|y rest] IH]; intros out Hne; [done|by exists x|].
  cbn [drain_to_one]. apply IH. done.
Qed.

Lemma DrainReady_last max_window es out :
  1 <= max_window -> es <> [] -> exists x, (DrainReady max_window es out).1 = [x].
Proof.
  intros Hmax Hne. unfold DrainReady.
  destruct (drain_to_one_last es out Hne) as [x Hx].
  destruct (drain_to_one es out) as [es' ready]. cbn [fst] in Hx. subst es'.
  cbn [length]. destruct (Z.gtb_spec (Z.of_nat 1) max_window); [lia|]. by exists x.
Qed.

Lemma AdjustWindow_length tol w : length (AdjustWindow tol w) = length w.
Proof.
  pose proof (f_equal length (AdjustWindow_erase tol w)) as H.
  by rewrite !length_fmap in H.
Qed.

(** X9.  Between calls a CPU's window holds exactly one sample.  After
    [Process] (with [max_window_ >= 1], which the constructor ensures) the
    window of the sample's CPU is the new sample alone, flow_id aside, and
    what was queued before has been emitted, flow_id aside: the capacity
    test of [DrainReady] never fires. *)
Theorem X9_window_keeps_only_the_newest_sample
        (s : Sample) (stk : LbrStack) (a : SkewAdjuster.t) :
  0 <= Common.cpu s ->
  1 <= max_window_ a ->
  exists b,
    window_of (Common.cpu s) (Process s stk a).1 = [b]
    /\ erase_flow b = erase_flow {| sample := s; stack := stk |}
    /\ erase_flow <$> (Process s stk a).2 = erase_flow <$> window_of (Common.cpu s) a.
Proof.
  intros Hc Hmax.
  pose proof (Process_window s stk a Hc) as Hw.
  assert (exists b, window_of (Common.cpu s) (Process s stk a).1 = [b]) as [b Hb].
  { unfold Process, window_of. rewrite EnsureCpu_lookup by done. cbn [default].
    set (es := AdjustWindow _ _).
    destruct (DrainReady_last (max_window_ a) es [] Hmax) as [x Hx].
    { intros He. apply (f_equal length) in He. subst es.
      rewrite AdjustWindow_length, length_app in He. cbn [length] in He. lia. }
    destruct (DrainReady (max_window_ a) es []) as [es' ready].
    cbn [fst snd per_cpu_] in *. subst es'. exists x.
    rewrite list_lookup_insert_eq; [done|].
    apply lookup_lt_is_Some. rewrite EnsureCpu_lookup by done. eauto. }
  exists b. split; [exact Hb|].
  apply (f_equal (fmap erase_flow)) in Hw.
  rewrite AdjustWindow_erase, Hb, !fmap_app in Hw. cbn [fmap list_fmap] in Hw.
  apply app_inj_tail in Hw as [H1 H2]. done.
Qed.

Lemma X9_window_keeps_only_the_newest_sample_witness :
  let a := (Process (sample_at 0 100 7) [] (SkewAdjuster.make 2000 4)).1 in
  exists b,
    window_of 0 (Process (sample_at 0 120 0) [] a).1 = [b]
    /\ erase_flow b = erase_flow (bundle_at 0 120 0)
    /\ erase_flow <$> (Process (sample_at 0 120 0) [] a).2 = erase_flow <$> window_of 0 a.
Proof.
  intros a.
  apply (X9_window_keeps_only_the_newest_sample (sample_at 0 120 0) [] a);
    vm_compute; discriminate.
Defined.

Lemma EnsureCpu_window cpu (per_cpu : list (list Bundle)) (i : nat) :
  default [] (EnsureCpu cpu per_cpu !! i) = default [] (per_cpu !! i).
Proof.
  unfold EnsureCpu.
  destruct (Z.geb_spec cpu (Z.of_nat (length per_cpu))) as [Hge|Hlt]; [|done].
  destruct (decide (i < length per_cpu)%nat) as [Hi|Hi].
  - rewrite lookup_resize by lia. done.
  - rewrite (lookup_ge_None_2 per_cpu) by lia.
    destruct (decide (i < Z.to_nat cpu + 1)%nat).
    + by rewrite lookup_resize_new by lia.
    + by rewrite lookup_resize_old by lia.
Qed.

Lemma Process_other_window s stk a (i : nat) :
  i <> Z.to_nat (Common.cpu s) ->
  default [] (per_cpu_ (Process s stk a).1 !! i) = default [] (per_cpu_ a !! i).
Proof.
  intros Hi. unfold Process.
  destruct (DrainReady _ _ _) as [es' ready]. cbn [fst per_cpu_].
  rewrite list_lookup_insert_ne by done. apply EnsureCpu_window.
Qed.

Lemma Flush_ready (l : list (list Bundle)) : forall ready,
  foldl (fun ready window => (DrainAll window ready).2) ready l = ready ++ concat l.
Proof.
  induction l as [|w l IH]; intros ready; cbn [foldl concat].
  - by rewrite app_nil_r.
  - rewrite IH. unfold DrainAll. cbn [snd]. by rewrite app_assoc.
Qed.

(** X10.  [Process] touches only the window of the sample's own CPU.
    [Flush] emits every queued bundle, CPU by CPU in queue order, leaves
    every window empty, and a second [Flush] emits nothing. *)
Theorem X10_process_and_flush_touch_the_right_windows
        (s : Sample) (stk : LbrStack) (a : SkewAdjuster.t) (other : Z) :
  (0 <= Common.cpu s -> 0 <= other -> other <> Common.cpu s ->
   window_of other (Process s stk a).1 = window_of other a)
  /\ (SkewAdjuster.Flush a).2 = concat (per_cpu_ a)
  /\ window_of other (SkewAdjuster.Flush a).1 = []
  /\ (SkewAdjuster.Flush (SkewAdjuster.Flush a).1).2 = [].
Proof.
  split; [|split; [|split]].
  - intros Hc Ho Hne. unfold window_of. apply Process_other_window. lia.
  - unfold SkewAdjuster.Flush. cbn [snd]. by rewrite Flush_ready.
  - unfold SkewAdjuster.Flush, window_of. cbn [fst per_cpu_].
    rewrite list_lookup_fmap. by destruct (per_cpu_ a !! Z.to_nat other).
  - unfold SkewAdjuster.Flush. cbn [fst snd per_cpu_]. rewrite Flush_ready.
    cbn [app]. induction (per_cpu_ a) as [|w l IH]; [done|]. cbn. exact IH.
Qed.

Lemma cpu_of_erase b : cpu_of (erase_flow b) = cpu_of b.
Proof. reflexivity. Qed.

Lemma on_cpu_erase c w : erase_flow <$> on_cpu c w = on_cpu c (erase_flow <$> w).
Proof.
  unfold on_cpu. induction w as [|b w IH]; [done|].
  cbn [List.filter fmap list_fmap]. rewrite cpu_of_erase.
  destruct (cpu_of b =? c); cbn [fmap list_fmap]; by rewrite <- IH.
Qed.

Lemma on_cpu_app c w1 w2 : on_cpu c (w1 ++ w2) = on_cpu c w1 ++ on_cpu c w2.
Proof. unfold on_cpu. apply List.filter_app. Qed.

Lemma on_cpu_all c w : Forall (fun b => cpu_of b = c) w -> on_cpu c w = w.
Proof.
  unfold on_cpu. induction 1 as [|b w Hb _ IH]; [done|].
  cbn [List.filter]. rewrite Hb, Z.eqb_refl. by rewrite IH.
Qed.

Lemma on_cpu_none c c' w : c' <> c -> Forall (fun b => cpu_of b = c') w -> on_cpu c w = [].
Proof.
  intros Hne. unfold on_cpu. induction 1 as [|b w Hb _ IH]; [done|].
  cbn [List.filter]. rewrite Hb. by destruct (Z.eqb_spec c' c).
Qed.

Lemma Forall_cpu_erase c w w' :
  erase_flow <$> w' = erase_flow <$> w ->
  Forall (fun b => cpu_of b = c) w -> Forall (fun b => cpu_of b = c) w'.
Proof.
  revert w'. induction w as [|b w IH]; intros [|b' w'] He Hw; try done.
  rewrite !fmap_cons in He.
  assert (erase_flow b' = erase_flow b) as Hb by congruence.
  assert (erase_flow <$> w' = erase_flow <$> w) as Ht by congruence.
  apply Forall_cons in Hw as [Hc Hw]. constructor; [|by apply IH].
  change (cpu_of b') with (cpu_of (erase_flow b')). rewrite Hb. exact Hc.
Qed.

Lemma on_cpu_concat c (l : list (list Bundle)) : forall first,
  0 <= c ->
  windows_sorted l first ->
  on_cpu c (concat l)
  = if (first <=? Z.to_nat c)%nat then default [] (l !! (Z.to_nat c - first)%nat) else [].
Proof.
  induction l as [|w l IH]; intros first Hc Hs.
  - cbn. by destruct (first <=? Z.to_nat c)%nat.
  - cbn [concat]. rewrite on_cpu_app.
    pose proof (Hs 0%nat w eq_refl) as Hw. rewrite Nat.add_0_r in Hw.
    rewrite (IH (S first) Hc).
    2:{ intros i w' Hi. specialize (Hs (S i) w' Hi).
        by replace (S first + i)%nat with (first + S i)%nat by lia. }
    destruct (Nat.leb_spec first (Z.to_nat c)) as [Hle|Hgt].
    + destruct (decide (first = Z.to_nat c)) as [->|Hne].
      * rewrite on_cpu_all by (by rewrite Z2Nat.id in Hw).
        destruct (Nat.leb_spec (S (Z.to_nat c)) (Z.to_nat c)); [lia|].
        rewrite Nat.sub_diag. cbn. by rewrite app_nil_r.
      * rewrite (on_cpu_none c (Z.of_nat first)) by (done || lia).
        destruct (Nat.leb_spec (S first) (Z.to_nat c)); [|lia].
        replace (Z.to_nat c - first)%nat with (S (Z.to_nat c - S first)) by lia.
        done.
    + rewrite (on_cpu_none c (Z.of_nat first)) by (done || lia).
      by destruct (Nat.leb_spec (S first) (Z.to_nat c)); [lia|].
Qed.

Lemma EnsureCpu_sorted cpu (per_cpu : list (list Bundle)) :
  windows_sorted per_cpu 0 -> windows_sorted (EnsureCpu cpu per_cpu) 0.
Proof.
  intros Hs i w Hi.
  pose proof (EnsureCpu_window cpu per_cpu i) as He. rewrite Hi in He. cbn in He.
  destruct (per_cpu !! i) as [w'|] eqn:Hp; cbn in He; subst w; [by eapply Hs|done].
Qed.

(** One call: what is emitted for a CPU and what its window keeps is, up
    to flow_id, what the window held followed by the new sample. *)
Lemma Process_on_cpu c s stk a :
  0 <= c -> 0 <= Common.cpu s ->
  windows_sorted (per_cpu_ a) 0 ->
  windows_sorted (per_cpu_ (Process s stk a).1) 0
  /\ erase_flow <$> (on_cpu c (Process s stk a).2 ++ window_of c (Process s stk a).1)
     = erase_flow <$> (window_of c a ++ on_cpu c [ {| sample := s; stack := stk |} ]).
Proof.
  intros Hc Hs Hsorted.
  pose proof (Process_window s stk a Hs) as Hw.
  apply (f_equal (fmap erase_flow)) in Hw. rewrite AdjustWindow_erase in Hw.
  set (new := {| sample := s; stack := stk |}) in *.
  assert (Forall (fun b => cpu_of b = Common.cpu s) (window_of (Common.cpu s) a ++ [new]))
    as Hall.
  { apply Forall_app. split; [|by repeat constructor].
    unfold window_of. destruct (per_cpu_ a !! Z.to_nat (Common.cpu s)) as [w|] eqn:Hp; [|done].
    specialize (Hsorted _ _ Hp). cbn in Hsorted |- *.
    eapply Forall_impl; [exact Hsorted|]. intros b ->. lia. }
  pose proof (Forall_cpu_erase _ _ _ Hw Hall) as Hall'.
  apply Forall_app in Hall' as [Hready Hkept]. apply Forall_app in Hall as [Hold _].
  split.
  - intros i w Hi. destruct (decide (i = Z.to_nat (Common.cpu s))) as [->|Hne].
    + unfold window_of in Hkept. rewrite Hi in Hkept. cbn in Hkept |- *.
      eapply Forall_impl; [exact Hkept|]. intros b ->. lia.
    + pose proof (Process_other_window s stk a i Hne) as Ho. rewrite Hi in Ho. cbn in Ho.
      destruct (per_cpu_ a !! i) as [w'|] eqn:Hp; cbn in Ho; subst w;
        [by eapply Hsorted|constructor].
  - destruct (decide (c = Common.cpu s)) as [->|Hne].
    + rewrite (on_cpu_all _ _ Hready), on_cpu_all by (by repeat constructor). exact Hw.
    + rewrite (on_cpu_none c (Common.cpu s) _ ltac:(congruence) Hready).
      rewrite (on_cpu_none c (Common.cpu s)) by (congruence || by repeat constructor).
      unfold window_of. rewrite Process_other_window by lia.
      cbn [app]. by rewrite app_nil_r.
Qed.

Lemma process_all_on_cpu c inputs : forall a out,
  0 <= c ->
  Forall (fun b => 0 <= cpu_of b) inputs ->
  windows_sorted (per_cpu_ a) 0 ->
  let final := foldl process_step (a, out) inputs in
  windows_sorted (per_cpu_ final.1) 0
  /\ erase_flow <$> (on_cpu c final.2 ++ window_of c final.1)
     = erase_flow <$> (on_cpu c out ++ window_of c a ++ on_cpu c inputs).
Proof.
  induction inputs as [|b rest IH]; intros a out Hc Hin Hs.
  - cbn. split; [done|]. by rewrite app_nil_r.
  - apply Forall_cons in Hin as [Hb Hin]. cbn [foldl].
    destruct (Process_on_cpu c (sample b) (stack b) a Hc Hb Hs) as [Hs1 He1].
    assert (process_step (a, out) b
            = ((Process (sample b) (stack b) a).1,
               out ++ (Process (sample b) (stack b) a).2)) as ->.
    { unfold process_step. cbn [fst snd]. by destruct (Process _ _ _). }
    set (P := Process (sample b) (stack b) a) in *.
    destruct (IH P.1 (out ++ P.2) Hc Hin Hs1) as [Hs2 He2].
    split; [exact Hs2|]. rewrite He2.
    rewrite on_cpu_app, !fmap_app in *.
    change (b :: rest) with ([b] ++ rest). rewrite on_cpu_app, fmap_app.
    rewrite <- !app_assoc. f_equal.
    rewrite !app_assoc. f_equal. rewrite He1.
    by destruct b.
Qed.

(** X11.  Nothing is lost, duplicated or reordered.  Feeding any stream
    to a fresh adjuster and flushing at the end emits, for every CPU, the
    samples of that CPU in arrival order, each unchanged except possibly for
    its flow_id. *)
Theorem X11_nothing_is_lost_or_reordered_per_cpu
        (tolerance_ns max_window c : Z) (inputs : list Bundle) :
  0 <= c ->
  Forall (fun b => 0 <= cpu_of b) inputs ->
  let run := process_all inputs (SkewAdjuster.make tolerance_ns max_window) in
  erase_flow <$> on_cpu c (run.2 ++ (SkewAdjuster.Flush run.1).2)
  = erase_flow <$> on_cpu c inputs.
Proof.
  intros Hc Hin run. subst run. unfold process_all.
  destruct (process_all_on_cpu c inputs (SkewAdjuster.make tolerance_ns max_window) []
              Hc Hin) as [Hs He].
  { intros i w Hi. unfold SkewAdjuster.make in Hi. cbn [per_cpu_] in Hi.
    by rewrite lookup_nil in Hi. }
  cbn zeta in Hs, He.
  rewrite on_cpu_app, fmap_app.
  assert ((SkewAdjuster.Flush (foldl process_step
             (SkewAdjuster.make tolerance_ns max_window, []) inputs).1).2
          = concat (per_cpu_ (foldl process_step
             (SkewAdjuster.make tolerance_ns max_window, []) inputs).1)) as ->
    by (unfold SkewAdjuster.Flush; cbn [snd]; by rewrite Flush_ready).
  rewrite (on_cpu_concat c _ 0%nat Hc Hs). cbn [Nat.leb]. rewrite Nat.sub_0_r.
  rewrite fmap_app in He. unfold window_of in He at 1. rewrite He.
  unfold window_of, SkewAdjuster.make. cbn [per_cpu_]. rewrite lookup_nil. done.
Qed.

Lemma X11_nothing_is_lost_or_reordered_per_cpu_witness :
  let inputs := [bundle_at 0 100 0; bundle_at 1 110 9; bundle_at 0 120 42; bundle_at 1 130 0] in
  let run := process_all inputs (SkewAdjuster.make 2000 4) in
  erase_flow <$> on_cpu 0 (run.2 ++ (SkewAdjuster.Flush run.1).2)
  = erase_flow <$> on_cpu 0 inputs.
Proof.
  intros inputs.
  apply (X11_nothing_is_lost_or_reordered_per_cpu 2000 4 0 inputs); [lia|].
  repeat constructor; vm_compute; discriminate.
Defined.

End SkewAdjusterMore.

(** ** False-sharing detector: eviction and accounting *)

Section FalseSharingMore.

Import FalseSharingDetector FalseSharingRuns.

(** The loop over the pids keeps an entry of the largest count, whatever
    the order; it keeps its start [(0, 0)] when no count is positive. *)
Lemma pid_summary_max (visited : list (Z * Z)) :
  (forall ph, ph ∈ visited -> ph.2 <= (pid_summary visited).2)
  /\ ((pid_summary visited ∈ visited /\ 0 < (pid_summary visited).2)
      \/ pid_summary visited = (0, 0)).
Proof.
  unfold pid_summary.
  assert (forall acc : Z * Z,
             let r := foldl (fun acc ph => if ph.2 >? acc.2 then (ph.1, ph.2) else acc)
                            acc visited in
             acc.2 <= r.2
             /\ (forall ph, ph ∈ visited -> ph.2 <= r.2)
             /\ ((r ∈ visited /\ acc.2 < r.2) \/ r = acc)) as Hgen.
  { induction visited as [|[p h] rest IH]; intros acc; cbn [foldl fst snd].
    - split; [lia|]. split; [by intros ph ?%elem_of_nil|by right].
    - destruct (Z.gtb_spec h acc.2) as [Hgt|Hle].
      + destruct (IH (p, h)) as (H1 & H2 & H3). cbn [snd] in *.
        split; [lia|]. split.
        * intros ph [->|Hin]%elem_of_cons; [cbn; lia|by apply H2].
        * left. destruct H3 as [[H3 H4]|H3].
          -- split; [by right|lia].
          -- rewrite H3. split; [left|cbn; lia].
      + destruct (IH acc) as (H1 & H2 & H3).
        split; [lia|]. split.
        * intros ph [->|Hin]%elem_of_cons; [cbn; lia|by apply H2].
        * destruct H3 as [[H3 H4]|H3]; [left; split; [by right|done]|by right]. }
  destruct (Hgen (0, 0)) as (H1 & H2 & H3). cbn [snd] in H3. done.
Qed.

Lemma traversal_lookup {V} (order : gmap Z V -> list (Z * V)) (m : gmap Z V) k v :
  traversal order -> (k, v) ∈ order m <-> m !! k = Some v.
Proof. intros Ho. by rewrite (Ho m), elem_of_map_to_list. Qed.

Lemma traversal_empty {V} (order : gmap Z V -> list (Z * V)) :
  traversal order -> order ∅ = [].
Proof.
  intros Ho. apply Permutation_nil_r. by rewrite (Ho ∅), map_to_list_empty.
Qed.

(** The lines of the findings are among the lines traversed, in order. *)
Lemma finding_lines_sublist (d : FalseSharingDetector.t)
      (pids_order : Z -> gmap Z Z -> list (Z * Z)) (l : list (Z * Stats)) :
  line_addr <$> omap (fun kv => if passes_filters (threshold_ d) kv.2
                                then Some (finding_of d kv.1 kv.2
                                             (pids_order kv.1 (pid_hits kv.2)))
                                else None) l
  `sublist_of` l.*1.
Proof.
  induction l as [|[line stats] l IH]; [done|].
  cbn [omap list_omap fst snd]. rewrite fmap_cons. cbn [fst].
  destruct (passes_filters (threshold_ d) stats).
  - rewrite fmap_cons. cbn [line_addr finding_of]. by apply sublist_skip.
  - by apply sublist_cons.
Qed.

(** X12.  What [Flush] reports and evicts, whatever the order in which the
    unordered maps are traversed.  The findings are exactly those built for
    the lines the unsigned window test selects and the three filters pass,
    one finding per line.  A finding carries the line's total and per-CPU
    hits; its dominant pid is a pid with the largest hit count of the line
    (which one, among several with that count, depends on the traversal),
    and 0 when no pid has a positive count.  Every selected line is evicted,
    reported or not, every other line is kept unchanged, and a second
    [Flush] at the same time reports nothing and changes nothing. *)
Theorem X12_flush_reports_and_evicts_expired_lines
        (lines_order lines_again : gmap Z Stats -> list (Z * Stats))
        (pids_order pids_again : Z -> gmap Z Z -> list (Z * Z))
        (now : Z) (d : FalseSharingDetector.t) :
  traversal lines_order ->
  (forall line, traversal (pids_order line)) ->
  traversal lines_again ->
  let flushed := Flush_visiting lines_order pids_order now d in
  (forall finding,
      finding ∈ flushed.2
      <-> exists line stats,
            table_ d !! line = Some stats
            /\ expired now (window_ns_ d) stats = true
            /\ passes_filters (threshold_ d) stats = true
            /\ finding = finding_of d line stats (pids_order line (pid_hits stats)))
  /\ NoDup (line_addr <$> flushed.2)
  /\ (forall finding,
         finding ∈ flushed.2 ->
         exists stats,
           table_ d !! line_addr finding = Some stats
           /\ finding_total_hits finding = total_hits stats
           /\ finding_cpu_hits finding = cpu_hits stats
           /\ (forall pid hits,
                  pid_hits stats !! pid = Some hits -> 0 < hits ->
                  exists top,
                    pid_hits stats !! dominant_pid finding = Some top
                    /\ forall other count,
                         pid_hits stats !! other = Some count -> count <= top)
           /\ ((forall pid hits, pid_hits stats !! pid = Some hits -> hits <= 0) ->
               dominant_pid finding = 0))
  /\ (forall line stats,
         table_ flushed.1 !! line = Some stats
         <-> table_ d !! line = Some stats /\ expired now (window_ns_ d) stats = false)
  /\ Flush_visiting lines_again pids_again now flushed.1 = (flushed.1, []).
Proof.
  intros Hlines Hpids Hagain flushed.
  assert (forall finding,
             finding ∈ flushed.2
             <-> exists line stats,
                   table_ d !! line = Some stats
                   /\ expired now (window_ns_ d) stats = true
                   /\ passes_filters (threshold_ d) stats = true
                   /\ finding = finding_of d line stats (pids_order line (pid_hits stats)))
    as Hreported.
  { intros finding. subst flushed. unfold Flush_visiting. cbn [snd].
    rewrite list_elem_of_omap. split.
    - intros ([line stats] & Hin & Hf). cbn [fst snd] in Hf.
      apply (traversal_lookup lines_order), map_lookup_filter_Some in Hin as [Hlook Hexp];
        [|done].
      cbn [snd] in Hexp.
      destruct (passes_filters (threshold_ d) stats) eqn:Hp; [|discriminate Hf].
      injection Hf as <-. by exists line, stats.
    - intros (line & stats & Hlook & Hexp & Hp & ->). exists (line, stats). split.
      + apply (traversal_lookup lines_order); [done|].
        apply map_lookup_filter_Some. done.
      + cbn [fst snd]. by rewrite Hp. }
  split; [exact Hreported|]. split; [|split; [|split]].
  - subst flushed. unfold Flush_visiting. cbn [snd].
    eapply sublist_NoDup; [|apply finding_lines_sublist].
    rewrite (Hlines _). apply NoDup_fst_map_to_list.
  - intros finding (line & stats & Hlook & _ & _ & ->)%Hreported.
    exists stats. cbn [line_addr finding_total_hits finding_cpu_hits dominant_pid finding_of].
    split; [exact Hlook|]. split; [reflexivity|]. split; [reflexivity|].
    destruct (pid_summary_max (pids_order line (pid_hits stats))) as [Hmax Hpick].
    destruct (pid_summary (pids_order line (pid_hits stats))) as [p h] eqn:Hs.
    cbn [fst snd] in *. split.
    + intros pid hits Hpid Hpos.
      apply (traversal_lookup (pids_order line)) in Hpid; [|done].
      pose proof (Hmax _ Hpid) as Hle. cbn [snd] in Hle.
      destruct Hpick as [[Hin _]|[= -> ->]]; [|lia].
      exists h. split; [by apply (traversal_lookup (pids_order line)) in Hin|].
      intros other count Hother.
      apply (traversal_lookup (pids_order line)) in Hother; [|done].
      exact (Hmax _ Hother).
    + intros Hnone. destruct Hpick as [[Hin Hpos]|[= -> ->]]; [|reflexivity].
      apply (traversal_lookup (pids_order line)) in Hin; [|done].
      specialize (Hnone _ _ Hin). lia.
  - intros line stats. subst flushed. unfold Flush_visiting. cbn [fst table_].
    rewrite map_lookup_filter_Some. cbn [snd].
    by destruct (expired now (window_ns_ d) stats); intuition.
  - subst flushed. unfold Flush_visiting.
    cbn [fst snd table_ window_ns_ threshold_ symbolizer_].
    f_equal.
    + f_equal. apply map_eq. intros line. apply option_eq. intros stats.
      rewrite !map_lookup_filter_Some. cbn [snd]. tauto.
    + assert (filter (fun kv : Z * Stats => expired now (window_ns_ d) kv.2 = true)
                (filter (fun kv : Z * Stats => expired now (window_ns_ d) kv.2 <> true)
                   (table_ d)) = ∅) as ->; [|by rewrite traversal_empty].
      apply map_eq. intros line. rewrite lookup_empty. apply option_eq. intros stats.
      rewrite !map_lookup_filter_Some. cbn [snd]. split; [tauto|done].
Qed.

(** X12 on a line hit once by each of two pids and traversed against the
    order of the model's maps: the line is reported once, with pid 10, the
    first of the two the traversal meets. *)
Lemma X12_flush_reports_and_evicts_expired_lines_witness :
  let d := Observe (hitm_sample 1 11 4100 1000)
             (Observe (hitm_sample 0 10 4096 1000)
                (FalseSharingDetector.make None 500 2)) in
  let lines_order := fun m : gmap Z Stats => reverse (map_to_list m) in
  let pids_order := fun (_ : Z) (m : gmap Z Z) => reverse (map_to_list m) in
  traversal lines_order
  /\ (forall line, traversal (pids_order line))
  /\ (Flush_visiting lines_order pids_order 2000 d).2
     = [ {| line_addr := 4096; finding_total_hits := 2; finding_cpu_hits := [1; 1];
            dominant_pid := 10; object := Symbolizer.empty_DataObject |} ]
  /\ NoDup (line_addr <$> (Flush_visiting lines_order pids_order 2000 d).2)
  /\ Flush_visiting map_to_list pids_order 2000
       (Flush_visiting lines_order pids_order 2000 d).1
     = ((Flush_visiting lines_order pids_order 2000 d).1, []).
Proof.
  intros d lines_order pids_order.
  assert (traversal lines_order) as H1 by (intros m; apply reverse_Permutation).
  assert (forall line, traversal (pids_order line)) as H2
    by (intros line m; apply reverse_Permutation).
  assert (traversal (map_to_list : gmap Z Stats -> list (Z * Stats))) as H3
    by (intros m; reflexivity).
  destruct (X12_flush_reports_and_evicts_expired_lines
              lines_order map_to_list pids_order pids_order 2000 d H1 H2 H3)
    as (_ & Hnodup & _ & _ & Hagain).
  split; [exact H1|]. split; [exact H2|]. split; [vm_compute; reflexivity|].
  split; [exact Hnodup|exact Hagain].
Defined.

#[local] Instance sum_hits_perm : Proper ((≡ₚ) ==> (=)) sum_hits.
Proof. intros l1 l2 Hp. unfold sum_hits. induction Hp; simpl; lia. Qed.

Lemma sum_hits_app l1 l2 : sum_hits (l1 ++ l2) = sum_hits l1 + sum_hits l2.
Proof. unfold sum_hits. induction l1; simpl; lia. Qed.

Lemma sum_hits_replicate n : sum_hits (replicate n 0) = 0.
Proof. unfold sum_hits. induction n; simpl; lia. Qed.

Lemma sum_hits_insert (l : list Z) : forall i v v',
  l !! i = Some v -> sum_hits (<[i := v']> l) = sum_hits l - v + v'.
Proof.
  induction l as [|x l IH]; intros [|i] v v' Hi; try done.
  - cbn in Hi. injection Hi as ->. unfold sum_hits. cbn. lia.
  - change (<[S i := v']> (x :: l)) with (x :: <[i := v']> l).
    change (sum_hits (x :: <[i := v']> l)) with (x + sum_hits (<[i := v']> l)).
    change (sum_hits (x :: l)) with (x + sum_hits l).
    rewrite (IH i v v' Hi). lia.
Qed.

Lemma sum_hits_bound (l : list Z) : forall i v,
  Forall (fun h => 0 <= h) l -> l !! i = Some v -> 0 <= v <= sum_hits l.
Proof.
  unfold sum_hits. induction l as [|x l IH]; intros [|i] v Hl Hi; try done;
    apply Forall_cons in Hl as [Hx Hl]; cbn in Hi |- *.
  - injection Hi as ->.
    assert (0 <= foldr Z.add 0 l) by (clear -Hl; induction Hl; simpl; lia). lia.
  - specialize (IH i v Hl Hi). lia.
Qed.

Lemma sum_pid_hits_insert (m : gmap Z Z) k v :
  sum_pid_hits (<[k := v]> m) = v + sum_pid_hits (delete k m).
Proof.
  unfold sum_pid_hits. rewrite <- (insert_delete_eq m).
  rewrite map_to_list_insert by apply lookup_delete_eq. done.
Qed.

Lemma sum_pid_hits_lookup (m : gmap Z Z) k :
  sum_pid_hits m = default 0 (m !! k) + sum_pid_hits (delete k m).
Proof.
  unfold sum_pid_hits. destruct (m !! k) as [v|] eqn:Hk; cbn.
  - by rewrite <- (map_to_list_delete m k v Hk).
  - by rewrite delete_id.
Qed.

Lemma sum_pid_hits_nonneg (m : gmap Z Z) :
  map_Forall (fun _ h => 0 <= h) m -> 0 <= sum_pid_hits m.
Proof.
  intros Hm. apply map_Forall_to_list in Hm. unfold sum_pid_hits, sum_hits.
  induction Hm as [|[k v] l Hv _ IH]; [done|].
  rewrite fmap_cons. cbn [foldr snd]. cbn in Hv. lia.
Qed.

Lemma stats_ok_mono n n' st : n <= n' -> stats_ok n st -> stats_ok n' st.
Proof. intros Hn (H1 & H2). split; [lia|done]. Qed.

Lemma stats_ok_empty n : 0 <= n -> stats_ok n empty_Stats.
Proof.
  intros Hn. unfold stats_ok, empty_Stats. cbn.
  repeat split; try lia; try done; apply map_Forall_empty.
Qed.

(** One observation keeps the three counters of its line in step. *)
Lemma Observe_stats_ok n s d :
  0 <= n -> n + 1 < 2 ^ 64 ->
  map_Forall (fun _ st => stats_ok n st) (table_ d) ->
  map_Forall (fun _ st => stats_ok (n + 1) st) (table_ (Observe s d)).
Proof.
  intros Hn Hb Hok. unfold Observe.
  destruct (Common.pmu_event s =? Common.MS_EVT_XSNP_HITM); cbn [negb].
  2:{ eapply map_Forall_impl; [exact Hok|]. intros ? st ?. by apply (stats_ok_mono n); [lia|]. }
  cbn [table_]. apply map_Forall_insert_2.
  2:{ eapply map_Forall_impl; [exact Hok|]. intros ? st ?. by apply (stats_ok_mono n); [lia|]. }
  set (stats := default empty_Stats (table_ d !! line_of (Common.data_addr s))).
  assert (stats_ok n stats) as (Ht & Hc & Hcs & Hp & Hps).
  { subst stats. destruct (table_ d !! line_of (Common.data_addr s)) as [st|] eqn:Hl; cbn.
    - by eapply Hok.
    - by apply stats_ok_empty. }
  set (cpu := Z.to_nat (Common.cpu s)).
  set (hits := if (length (cpu_hits stats) <=? cpu)%nat
               then resize (cpu + 1) 0 (cpu_hits stats) else cpu_hits stats).
  assert (Forall (fun h => 0 <= h) hits /\ sum_hits hits = total_hits stats
          /\ (cpu < length hits)%nat) as (Hh & Hhs & Hlen).
  { subst hits. destruct (Nat.leb_spec (length (cpu_hits stats)) cpu) as [Hle|Hgt].
    - rewrite resize_ge by lia. rewrite sum_hits_app, sum_hits_replicate.
      split; [|split; [lia|]].
      + apply Forall_app. split; [done|]. by apply Forall_replicate.
      + rewrite length_app, length_replicate. lia.
    - done. }
  destruct (lookup_lt_is_Some_2 hits cpu Hlen) as [h Hlook].
  pose proof (sum_hits_bound hits cpu h Hh Hlook) as Hhb.
  pose proof (sum_pid_hits_lookup (pid_hits stats) (Common.pid s)) as Hsplit.
  pose proof (sum_pid_hits_nonneg (delete (Common.pid s) (pid_hits stats))
                ltac:(by apply map_Forall_delete)) as Hrest.
  assert (0 <= default 0 (pid_hits stats !! Common.pid s)) as Hp0.
  { destruct (pid_hits stats !! Common.pid s) as [v|] eqn:Hv; cbn; [|lia].
    exact (Hp _ _ Hv). }
  unfold stats_ok. cbn [total_hits cpu_hits pid_hits].
  rewrite Hlook. cbn [default]. change (id h) with h.
  rewrite !wrap64_small by lia.
  split; [lia|]. split; [|split; [|split]].
  - apply Forall_insert; [done|lia].
  - rewrite (sum_hits_insert hits cpu h) by done. lia.
  - apply map_Forall_insert_2; [lia|done].
  - rewrite sum_pid_hits_insert. lia.
Qed.

Lemma observe_all_stats_ok stream : forall n d,
  0 <= n -> n + Z.of_nat (length stream) < 2 ^ 64 ->
  map_Forall (fun _ st => stats_ok n st) (table_ d) ->
  map_Forall (fun _ st => stats_ok (n + Z.of_nat (length stream)) st)
             (table_ (observe_all stream d)).
Proof.
  induction stream as [|s rest IH]; intros n d Hn Hb Hok.
  - cbn. by rewrite Z.add_0_r.
  - cbn [length] in *. cbn [observe_all foldl].
    replace (n + Z.of_nat (S (length rest))) with (n + 1 + Z.of_nat (length rest)) by lia.
    apply IH; [lia|lia|]. apply Observe_stats_ok; [done|lia|done].
Qed.

Lemma cpu_summary_zeros (l : list Z) :
  Forall (fun h => h = 0) l -> cpu_summary l = (0, 0).
Proof.
  intros Hl. unfold cpu_summary. generalize (0, 0).
  induction Hl as [|x l -> _ IH]; intros acc; [done|]. cbn [foldl]. apply IH.
Qed.

(** X13.  The counters of a reported line agree.  For a detector fed from
    its initial state (fewer than 2^64 samples, CPU numbers for which
    [cpu + 1] does not wrap), every finding's per-CPU hits are non-negative,
    add up to its total, none exceeds the total, and the total is positive
    and at most the number of samples observed. *)
Theorem X13_reported_hits_add_up
        (symbolizer : option Symbolizer.t) (window_ns threshold now : Z)
        (stream : list Sample) (finding : FalseSharingFinding) :
  Z.of_nat (length stream) < 2 ^ 64 ->
  Forall (fun s => 0 <= Common.cpu s < 4294967295) stream ->
  finding ∈ (FalseSharingDetector.Flush now
               (observe_all stream (FalseSharingDetector.make symbolizer window_ns threshold))).2 ->
  sum_hits (finding_cpu_hits finding) = finding_total_hits finding
  /\ 0 < finding_total_hits finding <= Z.of_nat (length stream)
  /\ Forall (fun h => 0 <= h <= finding_total_hits finding) (finding_cpu_hits finding).
Proof.
  intros Hlen _ Hin.
  set (d := observe_all stream _) in *.
  assert (map_Forall (fun _ st => stats_ok (Z.of_nat (length stream)) st) (table_ d)) as Hok.
  { pose proof (observe_all_stats_ok stream 0
                  (FalseSharingDetector.make symbolizer window_ns threshold)) as H.
    rewrite Z.add_0_l in H. apply H; [lia|lia|]. cbn. apply map_Forall_empty. }
  unfold FalseSharingDetector.Flush, Flush_visiting in Hin. cbn [snd] in Hin.
  apply list_elem_of_omap in Hin as ([line stats] & Hin & Hf). cbn [fst snd] in Hf.
  apply elem_of_map_to_list, map_lookup_filter_Some in Hin as [Hlook _].
  destruct (passes_filters (threshold_ d) stats) eqn:Hp; [|discriminate Hf].
  injection Hf as <-. cbn [finding_cpu_hits finding_total_hits finding_of].
  destruct (Hok _ _ Hlook) as (Ht & Hc & Hcs & _).
  split; [exact Hcs|]. split.
  - split; [|lia].
    unfold passes_filters in Hp. apply andb_prop in Hp as [Hp _].
    apply andb_prop in Hp as [_ Hact]. apply negb_true_iff, Z.ltb_ge in Hact.
    destruct (Z.eq_dec (total_hits stats) 0) as [H0|]; [|lia].
    exfalso.
    assert (Forall (fun h => h = 0) (cpu_hits stats)) as Hz.
    { rewrite H0 in Hcs. clear -Hc Hcs. induction Hc as [|x l Hx Hl IH]; [done|].
      unfold sum_hits in *. cbn in Hcs.
      assert (0 <= foldr Z.add 0 l) by (clear -Hl; induction Hl; simpl; lia).
      constructor; [lia|apply IH; lia]. }
    assert (cpu_summary (cpu_hits stats) = (0, 0)) as Hs
      by (by apply cpu_summary_zeros).
    rewrite Hs in Hact. cbn in Hact. lia.
  - apply Forall_lookup. intros i h Hi.
    pose proof (sum_hits_bound _ i h Hc Hi). lia.
Qed.

Lemma X13_reported_hits_add_up_witness :
  let stream := [hitm_sample 0 10 4096 1000; hitm_sample 1 11 4100 1010;
                 hitm_sample 0 10 4104 1020] in
  let finding :=
    {| line_addr := 4096; finding_total_hits := 3; finding_cpu_hits := [2; 1];
       dominant_pid := 10; object := Symbolizer.empty_DataObject |} in
  sum_hits (finding_cpu_hits finding) = finding_total_hits finding
  /\ 0 < finding_total_hits finding <= Z.of_nat (length stream)
  /\ Forall (fun h => 0 <= h <= finding_total_hits finding) (finding_cpu_hits finding).
Proof.
  intros stream finding.
  apply (X13_reported_hits_add_up None 1000 2 2000000 stream finding);
    [vm_compute; reflexivity|repeat constructor; vm_compute; congruence|].
  vm_compute. apply list_elem_of_here.
Defined.

End FalseSharingMore.

(** ** Time calibrator: locality, passthrough and smoothing factors *)

Section TscCalibratorMore.

Import TscCalibrator TscCalibratorRuns.

Lemma EnsureModel_default cpu (models : list CpuModel) (i : nat) :
  default default_model (EnsureModel cpu models !! i) = default default_model (models !! i).
Proof.
  unfold EnsureModel.
  destruct (Z.geb_spec cpu (Z.of_nat (length models))) as [Hge|Hlt]; [|done].
  destruct (decide (i < length models)%nat) as [Hi|Hi].
  - by rewrite lookup_resize by lia.
  - rewrite (lookup_ge_None_2 models) by lia.
    destruct (decide (i < Z.to_nat cpu + 1)%nat).
    + by rewrite lookup_resize_new by lia.
    + by rewrite lookup_resize_old by lia.
Qed.

Lemma model_of_lookup cpu c :
  model_of cpu c = default default_model (models_ c !! Z.to_nat cpu).
Proof. unfold model_of. apply EnsureModel_default. Qed.

(** The vector of models after a call: untouched, grown, or grown with the
    addressed slot rewritten. *)
Lemma Normalize_models ref_ns cpu raw_tsc c :
  models_ (Normalize ref_ns cpu raw_tsc c).2 = models_ c
  \/ models_ (Normalize ref_ns cpu raw_tsc c).2 = EnsureModel cpu (models_ c)
  \/ exists m, models_ (Normalize ref_ns cpu raw_tsc c).2
               = <[Z.to_nat cpu := m]> (EnsureModel cpu (models_ c)).
Proof.
  unfold Normalize. destruct (enabled (cfg_ c)); cbn [negb]; [|by left].
  destruct (initialized _); cbn [negb].
  - destruct (passthrough_steady_ns _); [by right; left|].
    destruct (affine_step _ _ _ _ _) as [m' n]. right; right. by eexists.
  - destruct (looks_steady ref_ns raw_tsc); right; right; by eexists.
Qed.

Lemma Normalize_other_model ref_ns cpu raw_tsc c other :
  0 <= cpu -> 0 <= other -> other <> cpu ->
  model_of other (Normalize ref_ns cpu raw_tsc c).2 = model_of other c.
Proof.
  intros Hc Ho Hne. rewrite !model_of_lookup.
  destruct (Normalize_models ref_ns cpu raw_tsc c) as [->| [->| [m ->]]].
  - done.
  - apply EnsureModel_default.
  - rewrite list_lookup_insert_ne by lia. apply EnsureModel_default.
Qed.

(** X14.  [Normalize] works on one CPU's model: the model of every other
    CPU is left as it was, the configuration is unchanged and the vector of
    models never shrinks. *)
Theorem X14_normalize_touches_one_cpu_model
        (c : TscCalibrator.t) (ref_ns cpu raw_tsc other : Z) :
  0 <= cpu -> 0 <= other -> other <> cpu ->
  model_of other (Normalize ref_ns cpu raw_tsc c).2 = model_of other c
  /\ cfg_ (Normalize ref_ns cpu raw_tsc c).2 = cfg_ c
  /\ (length (models_ c) <= length (models_ (Normalize ref_ns cpu raw_tsc c).2))%nat.
Proof.
  intros Hc Ho Hne. split; [|split].
  - by apply Normalize_other_model.
  - unfold Normalize. destruct (enabled (cfg_ c)); cbn [negb]; [|done].
    destruct (initialized _); cbn [negb].
    + destruct (passthrough_steady_ns _); [done|].
      by destruct (affine_step _ _ _ _ _).
    + by destruct (looks_steady ref_ns raw_tsc).
  - assert (length (models_ c) <= length (EnsureModel cpu (models_ c)))%nat as Hlen.
    { unfold EnsureModel.
      destruct (Z.geb_spec cpu (Z.of_nat (length (models_ c)))); [|done].
      rewrite length_resize. lia. }
    destruct (Normalize_models ref_ns cpu raw_tsc c) as [->| [->| [m ->]]];
      [done|done|by rewrite length_insert].
Qed.

Lemma X14_normalize_touches_one_cpu_model_witness :
  let c := (Normalize 1000000000 3 1000 (make default_config)).2 in
  model_of 3 (Normalize 2000000000 0 5000 c).2 = model_of 3 c
  /\ cfg_ (Normalize 2000000000 0 5000 c).2 = cfg_ c
  /\ (length (models_ c) <= length (models_ (Normalize 2000000000 0 5000 c).2))%nat.
Proof.
  intros c. apply (X14_normalize_touches_one_cpu_model c 2000000000 0 5000 3); lia.
Defined.

Lemma Normalize_passthrough ref_ns cpu raw_tsc c :
  0 <= cpu ->
  initialized (model_of cpu c) = true ->
  passthrough_steady_ns (model_of cpu c) = true ->
  (Normalize ref_ns cpu raw_tsc c).1 = Some raw_tsc
  /\ model_of cpu (Normalize ref_ns cpu raw_tsc c).2 = model_of cpu c.
Proof.
  intros Hc Hi Hp. unfold Normalize.
  destruct (enabled (cfg_ c)); cbn [negb]; [|done].
  fold (model_of cpu c). rewrite Hi, Hp. cbn [negb fst snd]. split; [done|].
  unfold model_of. cbn [models_]. by rewrite EnsureModel_idem.
Qed.

Lemma Normalize_keeps_passthrough ref_ns cpu raw_tsc c other :
  0 <= cpu -> 0 <= other ->
  initialized (model_of other c) = true ->
  passthrough_steady_ns (model_of other c) = true ->
  model_of other (Normalize ref_ns cpu raw_tsc c).2 = model_of other c.
Proof.
  intros Hc Ho Hi Hp. destruct (Z.eq_dec other cpu) as [->|Hne].
  - by apply Normalize_passthrough.
  - by apply Normalize_other_model.
Qed.

Lemma normalize_all_keeps_passthrough calls : forall c other,
  0 <= other ->
  Forall (fun k => 0 <= call_cpu k) calls ->
  initialized (model_of other c) = true ->
  passthrough_steady_ns (model_of other c) = true ->
  model_of other (normalize_all calls c) = model_of other c.
Proof.
  induction calls as [|k rest IH]; intros c other Ho Hcalls Hi Hp; [done|].
  apply Forall_cons in Hcalls as [Hk Hrest]. cbn [normalize_all foldl].
  pose proof (Normalize_keeps_passthrough (call_ref_ns k) (call_cpu k) (call_raw_tsc k)
                c other Hk Ho Hi Hp) as Hstep.
  unfold normalize_all in IH. rewrite IH; [done|done|done|by rewrite Hstep..].
Qed.

(** X15.  Passthrough is permanent.  Once a CPU's model is initialised as
    a steady-clock passthrough, every later [Normalize] on that CPU returns
    the raw timestamp unchanged and leaves the model as it is, whatever
    calls (on this or other CPUs) happen in between. *)
Theorem X15_passthrough_is_permanent
        (c : TscCalibrator.t) (cpu ref_ns raw_tsc : Z) (calls : list call) :
  0 <= cpu ->
  Forall (fun k => 0 <= call_cpu k) calls ->
  initialized (model_of cpu c) = true ->
  passthrough_steady_ns (model_of cpu c) = true ->
  (Normalize ref_ns cpu raw_tsc (normalize_all calls c)).1 = Some raw_tsc
  /\ model_of cpu (Normalize ref_ns cpu raw_tsc (normalize_all calls c)).2 = model_of cpu c.
Proof.
  intros Hc Hcalls Hi Hp.
  pose proof (normalize_all_keeps_passthrough calls c cpu Hc Hcalls Hi Hp) as Hrun.
  destruct (Normalize_passthrough ref_ns cpu raw_tsc (normalize_all calls c) Hc)
    as [H1 H2]; [by rewrite Hrun..|].
  split; [exact H1|]. by rewrite H2.
Qed.

Lemma X15_passthrough_is_permanent_witness :
  let c := (Normalize 1000000000 0 1000000100 (make default_config)).2 in
  let calls := [ {| call_ref_ns := 1000000500; call_cpu := 1; call_raw_tsc := 77 |};
                 {| call_ref_ns := 1000000900; call_cpu := 0; call_raw_tsc := 5 |} ] in
  (Normalize 2000000000 0 42 (normalize_all calls c)).1 = Some 42
  /\ model_of 0 (Normalize 2000000000 0 42 (normalize_all calls c)).2 = model_of 0 c.
Proof.
  intros c calls.
  apply (X15_passthrough_is_permanent c 0 2000000000 42 calls);
    [lia|repeat constructor; vm_compute; discriminate|vm_compute; reflexivity..].
Defined.

(** X16.  The smoothing factors are confined.  The calibrator's clamped
    alpha is never below 0.001 nor above 0.5 and the anomaly monitor's never
    below 0.01 nor above 0.9; a configured alpha inside the calibrator's
    range is used as it is; a NaN alpha is not clamped but passed on. *)
Theorem X16_smoothing_factors_are_confined (alpha : spec_float) :
  let tsc_alpha := clamp alpha kMinAlpha kMaxAlpha in
  let ewma_alpha := AnomalyMonitor.ewma_alpha alpha in
  B64.ltb tsc_alpha kMinAlpha = false /\ B64.ltb kMaxAlpha tsc_alpha = false
  /\ B64.ltb ewma_alpha (B64.lit 1 100) = false
  /\ B64.ltb (B64.lit 9 10) ewma_alpha = false
  /\ (B64.leb kMinAlpha alpha = true -> B64.leb alpha kMaxAlpha = true ->
      tsc_alpha = alpha)
  /\ (alpha = S754_nan -> tsc_alpha = S754_nan /\ ewma_alpha = S754_nan).
Proof.
  assert (forall lo hi, B64.leb lo hi = true ->
            B64.ltb (clamp alpha lo hi) lo = false
            /\ B64.ltb hi (clamp alpha lo hi) = false) as Hclamp.
  { intros lo hi Hle. unfold clamp.
    destruct (B64.ltb alpha lo) eqn:H1.
    - split; [apply ltb_irrefl|].
      destruct (B64.ltb hi lo) eqn:H2; [|done].
      apply ltb_leb_false in H2. congruence.
    - destruct (B64.ltb hi alpha) eqn:H2; [|done].
      split; [|apply ltb_irrefl].
      destruct (B64.ltb hi lo) eqn:H3; [|done].
      apply ltb_leb_false in H3. congruence. }
  intros tsc_alpha ewma_alpha.
  destruct (Hclamp kMinAlpha kMaxAlpha) as [H1 H2]; [by vm_compute|].
  destruct (Hclamp (B64.lit 1 100) (B64.lit 9 10)) as [H3 H4]; [by vm_compute|].
  repeat split; try done.
  - intros Hlo Hhi. subst tsc_alpha. unfold clamp.
    destruct (B64.ltb alpha kMinAlpha) eqn:Ha.
    { apply ltb_leb_false in Ha. congruence. }
    destruct (B64.ltb kMaxAlpha alpha) eqn:Hb; [|done].
    apply ltb_leb_false in Hb. congruence.
  - by subst tsc_alpha alpha.
  - by subst ewma_alpha alpha.
Qed.

End TscCalibratorMore.

(** ** Remote-DRAM analyzer *)

Section RemoteDramFacts.

Import RemoteDramAnalyzer.

Lemma entry_of_Observe s r k :
  entry_of (table_ (Observe s r)) k
  = if (Common.pmu_event s =? Common.MS_EVT_REMOTE_DRAM) && bool_decide (key_of s = k)
    then {| count := wrap64 (count (entry_of (table_ r) k) + 1);
            last_tsc := Common.tsc s |}
    else entry_of (table_ r) k.
Proof.
  unfold Observe. destruct (Common.pmu_event s =? Common.MS_EVT_REMOTE_DRAM);
    cbn [negb andb]; [|done].
  cbn [table_]. unfold entry_of. case_bool_decide as Hk.
  - subst k. by rewrite lookup_insert_eq.
  - by rewrite lookup_insert_ne.
Qed.

Lemma hits_cons k s stream :
  hits k (s :: stream)
  = (if (Common.pmu_event s =? Common.MS_EVT_REMOTE_DRAM) && bool_decide (key_of s = k)
     then 1 else 0) + hits k stream.
Proof.
  unfold hits. cbn [List.filter].
  destruct ((Common.pmu_event s =? Common.MS_EVT_REMOTE_DRAM) && bool_decide (key_of s = k));
    cbn [length]; lia.
Qed.

Lemma hits_bounds k stream : 0 <= hits k stream <= Z.of_nat (length stream).
Proof.
  unfold hits. split; [lia|]. apply Nat2Z.inj_le, List.filter_length_le.
Qed.

Lemma observe_all_count stream : forall r k,
  0 <= count (entry_of (table_ r) k) ->
  count (entry_of (table_ r) k) + Z.of_nat (length stream) < 2 ^ 64 ->
  count (entry_of (table_ (observe_all stream r)) k)
  = count (entry_of (table_ r) k) + hits k stream.
Proof.
  induction stream as [|s rest IH]; intros r k H0 Hlen.
  - unfold hits. cbn. lia.
  - cbn [observe_all foldl]. cbn [length] in Hlen. unfold observe_all in IH.
    pose proof (entry_of_Observe s r k) as He. rewrite hits_cons.
    destruct ((Common.pmu_event s =? Common.MS_EVT_REMOTE_DRAM)
              && bool_decide (key_of s = k));
      rewrite IH; rewrite He; cbn [count]; rewrite ?wrap64_small by lia; lia.
Qed.

Lemma observe_all_lookup_None stream : forall r k,
  table_ (observe_all stream r) !! k = None
  <-> table_ r !! k = None /\ hits k stream = 0.
Proof.
  induction stream as [|s rest IH]; intros r k.
  - unfold hits. cbn. tauto.
  - cbn [observe_all foldl]. unfold observe_all in IH. rewrite IH, hits_cons.
    pose proof (hits_bounds k rest) as Hb.
    unfold Observe. destruct (Common.pmu_event s =? Common.MS_EVT_REMOTE_DRAM);
      cbn [negb andb table_]; [|intuition lia].
    rewrite lookup_insert_None. case_bool_decide; intuition (try lia; try congruence).
Qed.

(** What a flush with a callback reports and what it keeps. *)
Lemma Flush_spec now r :
  (forall finding,
      finding ∈ (Flush true now r).2
      <-> exists k e, table_ r !! k = Some e
                      /\ expired now (window_ns_ r) e = true
                      /\ count e <> 0
                      /\ finding = finding_of k e)
  /\ (forall k e,
         table_ (Flush true now r).1 !! k = Some e
         <-> table_ r !! k = Some e /\ expired now (window_ns_ r) e = false).
Proof.
  split.
  - intros finding. unfold Flush. cbn [negb snd].
    rewrite list_elem_of_omap. split.
    + intros ([k e] & Hin & Hf). cbn [fst snd] in Hf.
      apply elem_of_map_to_list, map_lookup_filter_Some in Hin as [Hlook Hexp].
      cbn [snd] in Hexp.
      destruct (Z.eqb_spec (count e) 0) as [|Hc]; [discriminate Hf|].
      injection Hf as <-. by exists k, e.
    + intros (k & e & Hlook & Hexp & Hc & ->). exists (k, e). split.
      * apply elem_of_map_to_list, map_lookup_filter_Some. done.
      * cbn [fst snd]. by destruct (Z.eqb_spec (count e) 0).
  - intros k e. unfold Flush. cbn [negb fst table_].
    rewrite map_lookup_filter_Some. cbn [snd].
    by destruct (expired now (window_ns_ r) e); intuition.
Qed.

(** X17.  A remote-DRAM finding counts its samples.  For an analyzer fed
    from its initial state (fewer than 2^64 samples), the [samples] field of
    every finding is the number of remote-DRAM samples of the stream with
    the finding's flow, NUMA node and interface, and it is positive: the
    zero-count test of [Flush] never fires. *)
Theorem X17_remote_dram_finding_counts_its_samples
        (window_ns now : Z) (stream : list Sample) (finding : RemoteDramFinding) :
  Z.of_nat (length stream) < 2 ^ 64 ->
  finding ∈ (Flush true now (observe_all stream (make window_ns))).2 ->
  let k := {| flow_id := finding_flow_id finding;
              numa_node := finding_numa_node finding;
              ifindex := finding_ifindex finding |} in
  samples finding = hits k stream /\ 0 < samples finding.
Proof.
  intros Hlen Hin k.
  apply Flush_spec in Hin as (k' & e & Hlook & _ & _ & ->).
  assert (k = k') as -> by (subst k; by destruct k').
  cbn [samples finding_of].
  pose proof (observe_all_count stream (make window_ns) k') as Hc.
  assert (entry_of (table_ (make window_ns)) k' = {| count := 0; last_tsc := 0 |}) as H0
    by done.
  rewrite H0 in Hc. cbn [count] in Hc. specialize (Hc ltac:(lia) ltac:(lia)).
  unfold entry_of at 1 in Hc. rewrite Hlook in Hc. cbn in Hc.
  split; [lia|].
  assert (hits k' stream <> 0); [|pose proof (hits_bounds k' stream); lia].
  intros Hz.
  assert (table_ (observe_all stream (make window_ns)) !! k' = None) as Hn
    by (by apply observe_all_lookup_None).
  congruence.
Qed.

Lemma X17_remote_dram_finding_counts_its_samples_witness :
  let s1 := {| Common.tsc := 1000; Common.cpu := 0; Common.pid := 1; Common.tid := 1;
               Common.pmu_event := Common.MS_EVT_REMOTE_DRAM; Common.ip := 0;
               Common.data_addr := 0; Common.flow_id := 42; Common.gso_segs := 1;
               Common.ingress_ifindex := 3; Common.numa_node := 1;
               Common.l4_proto := 6; Common.direction := 0; Common.lbr_nr := 0;
               Common.pad0 := 0; Common.lbr := [] |} in
  let stream := [s1; FalseSharingDetector.hitm_sample 0 1 64 1500; s1] in
  let finding := {| finding_flow_id := 42; finding_numa_node := 1;
                    finding_ifindex := 3; samples := 2 |} in
  samples finding
  = hits {| flow_id := 42; numa_node := 1; ifindex := 3 |} stream
  /\ 0 < samples finding.
Proof.
  intros s1 stream finding.
  apply (X17_remote_dram_finding_counts_its_samples 0 100000000 stream finding);
    [vm_compute; reflexivity|].
  vm_compute. apply list_elem_of_here.
Defined.

(** X18.  Without a callback [Flush] does nothing, not even evict.  With
    one it reports exactly the entries the unsigned window test selects
    (those with a non-zero count), keeps exactly the others, and a second
    [Flush] at the same time reports nothing and changes nothing. *)
Theorem X18_remote_dram_flush_evicts_what_expired
        (now : Z) (r : RemoteDramAnalyzer.t) :
  Flush false now r = (r, [])
  /\ (forall finding,
         finding ∈ (Flush true now r).2
         <-> exists k e, table_ r !! k = Some e
                         /\ expired now (window_ns_ r) e = true
                         /\ count e <> 0
                         /\ finding = finding_of k e)
  /\ (forall k e,
         table_ (Flush true now r).1 !! k = Some e
         <-> table_ r !! k = Some e /\ expired now (window_ns_ r) e = false)
  /\ Flush true now (Flush true now r).1 = ((Flush true now r).1, []).
Proof.
  destruct (Flush_spec now r) as [H1 H2].
  split; [done|]. split; [exact H1|]. split; [exact H2|].
  unfold Flush. cbn [negb fst snd table_ window_ns_]. f_equal.
  - f_equal. apply map_eq. intros k. apply option_eq. intros e.
    rewrite !map_lookup_filter_Some. cbn [snd]. tauto.
  - assert (filter (fun kv : Key * Entry => expired now (window_ns_ r) kv.2 = true)
              (filter (fun kv : Key * Entry => expired now (window_ns_ r) kv.2 <> true)
                 (table_ r)) = ∅) as ->; [|by rewrite map_to_list_empty].
    apply map_eq. intros k. rewrite lookup_empty. apply option_eq. intros e.
    rewrite !map_lookup_filter_Some. cbn [snd]. split; [tauto|done].
Qed.

End RemoteDramFacts.

(** ** Anomaly monitor *)

Section AnomalyMonitorFacts.

Import AnomalyMonitor AnomalyMonitorRuns.

Lemma detect_cfg r m : cfg_ (detect r m).1 = cfg_ m.
Proof.
  destruct r; cbn [detect]; unfold MaybeEmitThroughput, MaybeEmitLatency;
    repeat match goal with
           | |- context [if ?b then _ else _] => destruct b
           end; reflexivity.
Qed.

(** One reading: a signal carries the reading's time and moves its
    detector's stamp there; without a signal of a type the stamp of that
    type stays. *)
Lemma detect_stamp r m :
  match (detect r m).2 with
  | Some s =>
      ModeController.timestamp_ns s = reading_time r
      /\ last_emit (ModeController.type s) (detect r m).1 = reading_time r
      /\ refractory_ns (cfg_ m)
         <= wrap64 (reading_time r - last_emit (ModeController.type s) m)
      /\ forall ty, ty <> ModeController.type s ->
                    last_emit ty (detect r m).1 = last_emit ty m
  | None => forall ty, last_emit ty (detect r m).1 = last_emit ty m
  end.
Proof.
  destruct r as [bps now|lat now]; cbn [detect reading_time].
  - unfold MaybeEmitThroughput.
    destruct (has_callback_ m); cbn [negb]; [|done].
    destruct (throughput_ready_ m); cbn [negb]; [|by intros []].
    destruct (B64.ltb _ _); [|by intros []].
    destruct (Z.ltb_spec (wrap64 (now - last_throughput_emit_ m)) (refractory_ns (cfg_ m)));
      [by intros []|].
    cbn. repeat split; try done. by intros [].
  - unfold MaybeEmitLatency.
    destruct (has_callback_ m); cbn [negb]; [|done].
    destruct (latency_ready_ m); cbn [negb]; [|by intros []].
    destruct (B64.ltb _ _); [|by intros []].
    destruct (Z.ltb_spec (wrap64 (now - last_latency_emit_ m)) (refractory_ns (cfg_ m)));
      [by intros []|].
    cbn. repeat split; try done. by intros [].
Qed.

Lemma refractory_ns_bounds cfg : 0 <= refractory_ns cfg < 2 ^ 64.
Proof. unfold refractory_ns, wrap64. apply Z.mod_pos_bound. lia. Qed.

(** Readings inside the refractory window of a stamp raise no signal of
    that stamp's type. *)
Lemma feed_quiet ty readings : forall m out,
  Forall (fun r => last_emit ty m <= reading_time r
                   /\ reading_time r < last_emit ty m + refractory_ns (cfg_ m)) readings ->
  Forall (fun s => ModeController.type s <> ty) out ->
  Forall (fun s => ModeController.type s <> ty) (foldl feed (m, out) readings).2.
Proof.
  induction readings as [|r rest IH]; intros m out Hin Hout; [done|].
  apply Forall_cons in Hin as [[Hlo Hhi] Hin]. cbn [foldl].
  pose proof (detect_stamp r m) as Hst. pose proof (detect_cfg r m) as Hcfg.
  unfold feed at 2. cbn [fst snd]. destruct (detect r m) as [m' [s|]]; cbn [fst snd] in *.
  - destruct Hst as (Hts & Hlast & Hgap & Hother).
    assert (ModeController.type s <> ty) as Hty.
    { intros <-. rewrite wrap64_small in Hgap; [lia|].
      pose proof (refractory_ns_bounds (cfg_ m)). lia. }
    apply IH.
    + rewrite Hcfg, (Hother ty) by done. exact Hin.
    + apply Forall_app. split; [done|]. by repeat constructor.
  - apply IH.
    + rewrite Hcfg, Hst. exact Hin.
    + by rewrite app_nil_r.
Qed.

(** X19.  At most one signal per refractory period.  After a detector has
    raised a signal, no reading whose time lies within the refractory period
    after it raises another signal of that type, whatever the measured
    values are; signals of the other type are not held back. *)
Theorem X19_one_signal_per_refractory_period
        (m : AnomalyMonitor.t) (r : reading) (signal : ModeController.AnomalySignal)
        (readings : list reading) :
  (detect r m).2 = Some signal ->
  Forall (fun r' => reading_time r <= reading_time r'
                    /\ reading_time r' < reading_time r + refractory_ns (cfg_ m))
         readings ->
  Forall (fun s => ModeController.type s <> ModeController.type signal)
         (feed_all readings (detect r m).1).2.
Proof.
  intros Hsig Hin. unfold feed_all.
  pose proof (detect_stamp r m) as Hst. rewrite Hsig in Hst.
  destruct Hst as (_ & Hlast & _ & _).
  apply feed_quiet; [|constructor].
  rewrite detect_cfg, Hlast. exact Hin.
Qed.

Lemma X19_one_signal_per_refractory_period_witness :
  let m := (detect (Throughput (B64.of_Z 1000) 1000000000)
                   (set_callback true (make default_config))).1 in
  let r := Throughput (B64.of_Z 100) 10000000000 in
  let readings := [Throughput (B64.of_Z 90) 10500000000;
                   Latency (B64.of_Z 50) 10500000000;
                   Throughput (B64.of_Z 80) 14999999999] in
  Forall (fun s => ModeController.type s <> ModeController.ThroughputDrop)
         (feed_all readings (detect r m).1).2.
Proof.
  intros m r readings.
  apply (X19_one_signal_per_refractory_period m r
           {| ModeController.type := ModeController.ThroughputDrop;
              ModeController.ratio := B64.div (B64.of_Z 100) (B64.of_Z 910);
              ModeController.value := B64.of_Z 100;
              ModeController.timestamp_ns := 10000000000 |} readings).
  - vm_compute. reflexivity.
  - repeat constructor; vm_compute; congruence.
Defined.

(** A signal crosses the trigger of the detector that raised it. *)
Lemma detect_trigger r m signal :
  (detect r m).2 = Some signal ->
  match ModeController.type signal with
  | ModeController.ThroughputDrop =>
      B64.ltb (ModeController.ratio signal) (throughput_ratio_trigger (cfg_ m)) = true
  | ModeController.LatencySpike =>
      B64.ltb (latency_ratio_trigger (cfg_ m)) (ModeController.ratio signal) = true
  end.
Proof.
  destruct r as [bps now|lat now]; cbn [detect].
  - unfold MaybeEmitThroughput.
    destruct (has_callback_ m); cbn [negb]; [|done].
    destruct (throughput_ready_ m); cbn [negb]; [|done].
    destruct (B64.ltb _ _) eqn:Hr; [|done].
    destruct (_ <? _); [done|]. cbn [snd]. by intros [= <-].
  - unfold MaybeEmitLatency.
    destruct (has_callback_ m); cbn [negb]; [|done].
    destruct (latency_ready_ m); cbn [negb]; [|done].
    destruct (B64.ltb _ _) eqn:Hr; [|done].
    destruct (_ <? _); [done|]. cbn [snd]. by intros [= <-].
Qed.

End AnomalyMonitorFacts.

(** ** PMU rotator *)

Section PmuRotatorFacts.

Import PmuRotator PmuRotatorRuns.

Lemma RefreshState_index_ok o r :
  event_ok (Refresh o) -> index_ok (RefreshState o r).1.
Proof.
  unfold index_ok, RefreshState. cbn [fst group_count_ current_index_ event_ok].
  destruct o as [[c i]|]; [|intros _; cbn; lia].
  intros [Hc Hi]. destruct (Z.eqb_spec c 0); lia.
Qed.

Lemma next_is_successor r :
  index_ok r -> count_fits r -> 1 < group_count_ r ->
  wrap64 (current_index_ r + 1) mod group_count_ r = successor r.
Proof.
  intros (H0 & H1 & _ & H2) Hmax Hgt. specialize (H2 ltac:(lia)).
  unfold count_fits, UINT64_MAX in Hmax. unfold successor.
  rewrite wrap64_small by lia.
  destruct (Z.eqb_spec (current_index_ r + 1) (group_count_ r)) as [->|Hne].
  - apply Z_mod_same_full.
  - apply Z.mod_small. lia.
Qed.

Lemma step_index_ok r r' ev :
  event_ok ev -> undisturbed ev -> index_ok r /\ count_fits r ->
  step r ev = Some r' -> index_ok r' /\ count_fits r'.
Proof.
  intros Hev Hq [Hr Hm]. destruct ev as [o|o ok mw]; cbn [step].
  - intros [= <-]. split; [by apply RefreshState_index_ok|].
    unfold count_fits, RefreshState. cbn [fst group_count_].
    destruct o as [[c i]|]; cbn in Hev |- *; unfold UINT64_MAX in *; lia.
  - cbn in Hq. subst mw. unfold rotate. cbn [foldl].
    destruct (Z.leb_spec (group_count_ r) 1) as [|Hgt]; [by intros [= <-]|].
    rewrite next_is_successor by done.
    destruct o as [[c i]|]; [|by intros [= <-]].
    destruct (ok _); [|done]. intros [= <-]. split; [|exact Hm].
    unfold index_ok, successor. cbn [group_count_ current_index_].
    destruct Hr as (H0 & H1 & _ & H2).
    destruct (Z.eqb_spec (current_index_ r + 1) (group_count_ r)); lia.
Qed.

Lemma run_index_ok events : forall r r',
  Forall event_ok events -> Forall undisturbed events ->
  index_ok r /\ count_fits r ->
  run events r = Some r' -> index_ok r' /\ count_fits r'.
Proof.
  unfold run.
  induction events as [|ev rest IH]; intros r r' Hev Hq Hr; cbn [foldl].
  - by intros [= <-].
  - apply Forall_cons in Hev as [Hev Hrest]. apply Forall_cons in Hq as [Hq Hqrest].
    destruct (step r ev) as [r1|] eqn:Hstep.
    + apply IH; [done|done|]. by eapply step_index_ok.
    + intros Hnone. exfalso. clear -Hnone.
      induction rest as [|e l IHl]; [done|]. by apply IHl.
Qed.

Lemma run_completes events : forall r,
  Forall rotation_accepted events -> is_Some (run events r).
Proof.
  unfold run.
  induction events as [|ev rest IH]; intros r Hacc; cbn [foldl]; [by eexists|].
  apply Forall_cons in Hacc as [Hacc Hrest].
  assert (is_Some (step r ev)) as [r1 ->]; [|by apply IH].
  destruct ev as [o|o ok mw]; cbn [step]; [by eexists|].
  unfold rotate. destruct (_ <=? _); [by eexists|].
  destruct o as [[c i]|]; [|by eexists].
  cbn in Hacc. rewrite Hacc. by eexists.
Qed.

(** X21.  The rotator's index always addresses an active group, and a
    failed rotation stops the rotator.  Take any sequence of refreshes and
    passes of the rotation loop in which no mode update lands while a pass
    has released the mutex.  If the orchestrator accepts every rotation the
    sequence runs to its end.  Whenever it runs to its end, [current_index_]
    is below [group_count_] (0 when there is no group), and with more than
    one group the next pass ends in one of three ways: with an orchestrator
    that accepts, it moves to the next group, wrapping from the last to the
    first, and leaves the group count alone; with an orchestrator that
    refuses, it never completes, because [RefreshState] is called with
    [mu_] held; without an orchestrator it changes nothing. *)
Theorem X21_rotator_index_addresses_a_group (events : list event) :
  Forall event_ok events ->
  Forall undisturbed events ->
  (Forall rotation_accepted events -> is_Some (run events make))
  /\ forall r, run events make = Some r ->
       index_ok r
       /\ forall c i ok, 1 < group_count_ r ->
            (ok (successor r) = true ->
             exists r', rotate (Some (c, i)) ok [] r = Some r'
                        /\ current_index_ r' = successor r
                        /\ group_count_ r' = group_count_ r)
            /\ (ok (successor r) = false ->
                rotate (Some (c, i)) ok [] r = None
                /\ forall more, run (events ++ Rotate (Some (c, i)) ok [] :: more) make = None)
            /\ rotate None ok [] r = Some r.
Proof.
  intros Hev Hq. split; [apply run_completes|].
  intros r Hrun.
  assert (index_ok make /\ count_fits make) as H0
    by (unfold index_ok, count_fits, make, UINT64_MAX; cbn; lia).
  destruct (run_index_ok events make r Hev Hq H0 Hrun) as [Hok Hmax].
  split; [exact Hok|]. intros c i ok Hgt.
  unfold rotate. cbn [foldl].
  destruct (Z.leb_spec (group_count_ r) 1); [lia|].
  rewrite next_is_successor by done.
  split; [|split].
  - intros ->. eexists. split; [reflexivity|]. done.
  - intros Hno. rewrite Hno. split; [reflexivity|]. intros more.
    unfold run in *. rewrite foldl_app, Hrun. cbn [foldl step].
    unfold rotate. cbn [foldl].
    destruct (Z.leb_spec (group_count_ r) 1); [lia|].
    rewrite next_is_successor by done.
    rewrite Hno.
    clear. induction more as [|e l IHl]; [done|]. by apply IHl.
  - reflexivity.
Qed.

(** X21 on a rotator with three groups: the refresh clamps the reported
    index 7 to 2, the accepted rotation wraps to group 0; from there an
    accepted rotation reaches group 1 and a refused one never completes. *)
Lemma X21_rotator_index_addresses_a_group_witness :
  let events := [Refresh (Some (3, 7)); Rotate (Some (3, 2)) (fun _ => true) []] in
  let r := {| mode_ := Sentinel; group_count_ := 3; current_index_ := 0;
              mode_dirty_ := false |} in
  Forall event_ok events
  /\ Forall undisturbed events
  /\ run events make = Some r
  /\ index_ok r
  /\ (exists r', rotate (Some (3, 0)) (fun _ => true) [] r = Some r'
                 /\ current_index_ r' = 1 /\ group_count_ r' = 3)
  /\ rotate (Some (3, 0)) (fun _ => false) [] r = None.
Proof.
  intros events r.
  assert (Forall event_ok events) as Hev
    by (repeat constructor; vm_compute; congruence).
  assert (Forall undisturbed events) as Hq by (repeat constructor).
  assert (run events make = Some r) as Hrun by reflexivity.
  assert (1 < group_count_ r) as Hgt by (cbn; lia).
  destruct (X21_rotator_index_addresses_a_group events Hev Hq) as [_ Hreach].
  destruct (Hreach r Hrun) as [Hok Hnext].
  destruct (Hnext 3 0 (fun _ => true) Hgt) as (Haccept & _ & _).
  destruct (Hnext 3 0 (fun _ => false) Hgt) as (_ & Hrefuse & _).
  split; [exact Hev|]. split; [exact Hq|]. split; [exact Hrun|]. split; [exact Hok|].
  split; [exact (Haccept eq_refl)|exact (proj1 (Hrefuse eq_refl))].
Defined.

(** A mode update that lands while a pass has released the mutex can leave
    the index outside the groups: with three groups and index 1 the pass
    asks for group 2, the update shrinks the rotator to two groups, and the
    pass then stores 2. *)
Example rotate_during_mode_update :
  let r := (RefreshState (Some (3, 1)) make).1 in
  rotate (Some (3, 1)) (fun _ => true) [(Diagnostic, Some (2, 0))] r
  = Some {| mode_ := Diagnostic; group_count_ := 2; current_index_ := 2;
            mode_dirty_ := false |}.
Proof. reflexivity. Qed.

Lemma of_Z_positive n : 0 < n < 2 ^ 53 -> B64.leb (B64.of_Z n) B64.zero = false.
Proof.
  intros Hn. destruct n as [|p|p]; try lia. by rewrite of_Z_pos by lia.
Qed.

(** X22.  The sample scale is the number of active groups.  The scale
    [RefreshState] reports, once stored by [SetSampleScale] as the runtime's
    callback does, is [max(1, count)] as a double, never zero or negative,
    and every sample weighs that scale divided by its segment count. *)
Theorem X22_sample_scale_is_the_group_count
        (orchestrator : option (Z * Z)) (r : PmuRotator.t) (a : Aggregator.t) :
  let count := match orchestrator with Some (c, _) => c | None => 0 end in
  0 <= count < 2 ^ 53 ->
  let a' := Aggregator.SetSampleScale (RefreshState orchestrator r).2 a in
  Aggregator.SampleScale a' = B64.of_Z (Z.max 1 count)
  /\ B64.leb (Aggregator.SampleScale a') B64.zero = false
  /\ forall sample,
       Aggregator.sample_weight a' sample
       = if Common.gso_segs sample >? 1
         then B64.div (B64.of_Z (Z.max 1 count)) (B64.of_Z (Common.gso_segs sample))
         else B64.of_Z (Z.max 1 count).
Proof.
  intros count Hc a'.
  assert (Aggregator.SampleScale a' = B64.of_Z (Z.max 1 count)) as Hs.
  { subst a'. unfold RefreshState, scale_of, Aggregator.SetSampleScale, Aggregator.SampleScale.
    cbn [snd Aggregator.sample_scale_]. fold count.
    destruct (Z.gtb_spec count 0) as [Hgt|Hle].
    - rewrite of_Z_positive by lia. done.
    - replace (Z.max 1 count) with 1 by lia. by vm_compute. }
  split; [exact Hs|]. split.
  - rewrite Hs. apply of_Z_positive. lia.
  - intros sample. unfold Aggregator.sample_weight.
    change (Aggregator.sample_scale_ a') with (Aggregator.SampleScale a'). by rewrite Hs.
Qed.

Lemma X22_sample_scale_is_the_group_count_witness :
  let a' := Aggregator.SetSampleScale (RefreshState (Some (4, 0)) make).2
              (Aggregator.make {| Aggregator.time_window_ns := 100;
                                  Aggregator.max_entries := 10 |}) in
  Aggregator.SampleScale a' = B64.of_Z (Z.max 1 4)
  /\ B64.leb (Aggregator.SampleScale a') B64.zero = false
  /\ forall sample,
       Aggregator.sample_weight a' sample
       = if Common.gso_segs sample >? 1
         then B64.div (B64.of_Z (Z.max 1 4)) (B64.of_Z (Common.gso_segs sample))
         else B64.of_Z (Z.max 1 4).
Proof.
  apply (X22_sample_scale_is_the_group_count (Some (4, 0)) make
           (Aggregator.make {| Aggregator.time_window_ns := 100;
                               Aggregator.max_entries := 10 |})).
  lia.
Defined.

End PmuRotatorFacts.

(** ** Agent runtime *)

Section AgentRuntimeFacts.

Import AgentRuntime AgentRuntimeRuns.

Lemma Update_thresholds now r c :
  ModeController.thresholds_ (ModeController.Update now r c) = ModeController.thresholds_ c.
Proof.
  unfold ModeController.Update.
  destruct (ModeController.mode_ c); [destruct (B64.ltb _ _)|destruct (_ && _)]; reflexivity.
Qed.

Lemma ApplyMode_in_sync th mode rt :
  ModeController.thresholds_ (mode_controller_ rt) = th ->
  sentinel_sample_budget (perf rt) = BucketUpdate.sentinel_budget (bucket_state_ rt) ->
  diagnostic_sample_budget (perf rt) = BucketUpdate.diagnostic_budget (bucket_state_ rt) ->
  hard_drop_ns (perf rt) = BucketUpdate.hard_drop_ns (bucket_state_ rt) ->
  in_sync th (ApplyMode mode rt).
Proof. intros. unfold in_sync, ApplyMode. cbn. done. Qed.

Lemma HandleAnomaly_in_sync th now signal rt :
  in_sync th rt -> in_sync th (HandleAnomaly now signal rt).
Proof.
  intros (Hm & Hth & Hb). unfold HandleAnomaly.
  cbn [with_mode current_mode_]. case_bool_decide as Heq.
  - unfold in_sync. cbn. rewrite NotifyAnomaly_thresholds. done.
  - apply ApplyMode_in_sync; cbn; try tauto. by rewrite NotifyAnomaly_thresholds.
Qed.

Lemma HandleBucketUpdate_in_sync th req rt :
  in_sync th rt -> in_sync th (HandleBucketUpdate req rt).1.
Proof.
  intros (Hm & Hth & Hb). unfold HandleBucketUpdate.
  destruct (BucketUpdate.ApplyBucketUpdate _ _ _) as [outcome st].
  unfold in_sync. cbn. done.
Qed.

Lemma MaybeAdjustSafety_in_sync th ratio rt :
  in_sync th rt -> in_sync th (MaybeAdjustSafety ratio rt).1.
Proof.
  intros Hs. unfold MaybeAdjustSafety. by case_bool_decide.
Qed.

Lemma RunSingleFlushCycle_in_sync th now_ns update_now interval rt :
  in_sync th rt -> in_sync th (RunSingleFlushCycle now_ns update_now interval rt).1.
Proof.
  intros Hs. unfold RunSingleFlushCycle.
  destruct (Aggregator.Flush (aggregator_ rt)) as [[calls flushed] agg].
  set (rt1 := with_sample_path _ agg _ _ rt).
  assert (in_sync th rt1) as Hs1 by exact Hs.
  clearbody rt1.
  set (mid := if flushed >? 0 then _ else _).
  assert (in_sync th mid.1) as Hs2.
  { subst mid. destruct (flushed >? 0); [|exact Hs1].
    pose proof (MaybeAdjustSafety_in_sync th (budget_ratio flushed interval rt1) rt1 Hs1)
      as Hs2.
    destruct (MaybeAdjustSafety (budget_ratio flushed interval rt1) rt1) as [rt2 limit].
    cbn [fst] in Hs2. destruct Hs2 as (Hm & Hth & Hb).
    cbn [with_mode current_mode_ fst]. case_bool_decide as Heq.
    - unfold in_sync. cbn. rewrite Update_thresholds. done.
    - apply ApplyMode_in_sync; cbn; try tauto. by rewrite Update_thresholds. }
  destruct mid as [rt3 limit]. cbn [fst] in Hs2.
  destruct (FalseSharingDetector.Flush now_ns (fs_detector_ rt3)) as [fs found].
  destruct (remote_dram_analyzer_ rt3) as [rd|];
    [destruct (RemoteDramAnalyzer.Flush true now_ns rd) as [rd' found']|];
    exact Hs2.
Qed.

Lemma serve_in_sync th rt r : in_sync th rt -> in_sync th (serve rt r).
Proof.
  intros Hs. destruct r; cbn [serve].
  - destruct Hs as (_ & Hth & H1 & H2 & H3). by apply ApplyMode_in_sync.
  - by apply HandleAnomaly_in_sync.
  - by apply HandleBucketUpdate_in_sync.
  - by apply RunSingleFlushCycle_in_sync.
Qed.

Lemma make_in_sync symbolizer cfg : in_sync (controller_thresholds cfg) (make symbolizer cfg).
Proof. unfold in_sync, make. repeat split; reflexivity. Qed.

Lemma serve_all_in_sync symbolizer cfg requests :
  in_sync (controller_thresholds cfg) (serve_all requests (make symbolizer cfg)).
Proof.
  unfold serve_all. pose proof (make_in_sync symbolizer cfg) as H0. revert H0.
  generalize (make symbolizer cfg).
  induction requests as [|r rest IH]; intros rt Hs; [done|].
  cbn [foldl]. apply IH. by apply serve_in_sync.
Qed.

(** X23.  The runtime never disagrees with its parts.  After the
    constructor and any sequence of mode requests, anomaly signals, budget
    updates and flush cycles, [current_mode_] is the controller's mode, the
    controller still has the thresholds the constructor gave it, and the
    configured budgets mirror the bucket state. *)
Theorem X23_runtime_and_controller_agree_on_the_mode
        (symbolizer : Symbolizer.t) (cfg : AgentConfig) (requests : list request) :
  let rt := serve_all requests (make symbolizer cfg) in
  current_mode_ rt = ModeController.Mode (mode_controller_ rt)
  /\ ModeController.thresholds_ (mode_controller_ rt) = controller_thresholds cfg
  /\ sentinel_sample_budget (perf rt) = BucketUpdate.sentinel_budget (bucket_state_ rt)
  /\ diagnostic_sample_budget (perf rt) = BucketUpdate.diagnostic_budget (bucket_state_ rt)
  /\ hard_drop_ns (perf rt) = BucketUpdate.hard_drop_ns (bucket_state_ rt).
Proof. intros rt. exact (serve_all_in_sync symbolizer cfg requests). Qed.

(** X20.  A signal of the anomaly monitor puts the runtime in Diagnostic
    mode.  The constructor copies the monitor's triggers into the
    controller's thresholds, so a signal the monitor raises under that
    configuration crosses the controller's trigger, and [HandleAnomaly]
    leaves both the runtime and the controller in Diagnostic mode, after any
    history of requests.  (A throughput ratio must be positive, as the
    controller demands; for latency the configured trigger must be.) *)
Theorem X20_monitor_signal_puts_runtime_in_diagnostic
        (symbolizer : Symbolizer.t) (cfg : AgentConfig) (requests : list request)
        (m : AnomalyMonitor.t) (r : AnomalyMonitorRuns.reading)
        (signal : ModeController.AnomalySignal) (now : Z) :
  AnomalyMonitor.cfg_ m = cfg_anomaly cfg ->
  (AnomalyMonitorRuns.detect r m).2 = Some signal ->
  match ModeController.type signal with
  | ModeController.ThroughputDrop => B64.ltb B64.zero (ModeController.ratio signal) = true
  | ModeController.LatencySpike =>
      B64.ltb B64.zero (AnomalyMonitor.latency_ratio_trigger (cfg_anomaly cfg)) = true
  end ->
  let rt := HandleAnomaly now signal (serve_all requests (make symbolizer cfg)) in
  current_mode_ rt = Diagnostic /\ ModeController.Mode (mode_controller_ rt) = Diagnostic.
Proof.
  intros Hcfg Hsig Hpos rt.
  pose proof (serve_all_in_sync symbolizer cfg requests) as Hs.
  pose proof (HandleAnomaly_in_sync _ now signal _ Hs) as (Hm & _). fold rt in Hm.
  rewrite Hm. assert (ModeController.Mode (mode_controller_ rt) = Diagnostic); [|done].
  destruct Hs as (_ & Hth & _).
  pose proof (detect_trigger r m signal Hsig) as Htr. rewrite Hcfg in Htr.
  set (c := mode_controller_ (serve_all requests (make symbolizer cfg))) in *.
  assert (ModeController.Mode (ModeController.NotifyAnomaly now signal c) = Diagnostic)
    as Hd.
  { unfold ModeController.Mode. rewrite NotifyAnomaly_mode, Hth.
    unfold ModeController.crosses_trigger, controller_thresholds.
    cbn [ModeController.throughput_ratio_trigger ModeController.latency_ratio_trigger].
    destruct (ModeController.type signal).
    - rewrite (ltb_trans _ _ _ Hpos Htr), Hpos, Htr. done.
    - rewrite Hpos, Htr. done. }
  subst rt. unfold HandleAnomaly. cbn [with_mode current_mode_ mode_controller_].
  fold c. case_bool_decide; [exact Hd|]. unfold ApplyMode. cbn. exact Hd.
Qed.

Lemma X20_monitor_signal_puts_runtime_in_diagnostic_witness :
  let m := (AnomalyMonitorRuns.detect
              (AnomalyMonitorRuns.Throughput (B64.of_Z 1000) 1000000000)
              (AnomalyMonitor.set_callback true
                 (AnomalyMonitor.make AnomalyMonitor.default_config))).1 in
  let signal :=
    {| ModeController.type := ModeController.ThroughputDrop;
       ModeController.ratio := B64.div (B64.of_Z 100) (B64.of_Z 910);
       ModeController.value := B64.of_Z 100;
       ModeController.timestamp_ns := 10000000000 |} in
  let rt := HandleAnomaly 10000000500 signal
              (serve_all [SetMode Sentinel] (make plain_symbolizer default_config)) in
  current_mode_ rt = Diagnostic /\ ModeController.Mode (mode_controller_ rt) = Diagnostic.
Proof.
  intros m signal.
  apply (X20_monitor_signal_puts_runtime_in_diagnostic plain_symbolizer default_config
           [SetMode Sentinel] m
           (AnomalyMonitorRuns.Throughput (B64.of_Z 100) 10000000000) signal 10000000500);
    vm_compute; reflexivity.
Defined.

Lemma sample_weight_add_all stream : forall a sample,
  Aggregator.sample_weight (Aggregator.add_all stream a) sample
  = Aggregator.sample_weight a sample.
Proof.
  induction stream as [|[s l] rest IH]; intros a sample; [done|].
  cbn [Aggregator.add_all foldl fst snd]. unfold Aggregator.add_all in IH. rewrite IH.
  unfold Aggregator.sample_weight. by rewrite AddSample_scale.
Qed.

(** The target filter as [EmitReadySample] consults it. *)
Lemma accepted_cons tm b rest :
  accepted tm (b :: rest)
  = if match tm with
       | Some tm => MonitoringTargetManager.Allow (SkewAdjuster.sample b) tm
       | None => true
       end
    then b :: accepted tm rest else accepted tm rest.
Proof. reflexivity. Qed.

Lemma EmitReadySample_rejected sample stack rt tm :
  target_manager_ rt = Some tm ->
  MonitoringTargetManager.Allow sample tm = false ->
  EmitReadySample sample stack rt = (rt, []).
Proof. intros Htm Hno. unfold EmitReadySample. by rewrite Htm, Hno. Qed.

Lemma EmitReadySample_accepted sample stack rt :
  match target_manager_ rt with
  | Some tm => MonitoringTargetManager.Allow sample tm
  | None => true
  end = true ->
  EmitReadySample sample stack rt
  = (with_sample_path
       (option_map (RemoteDramAnalyzer.Observe sample) (remote_dram_analyzer_ rt))
       (Aggregator.AddSample sample stack (aggregator_ rt))
       (FalseSharingDetector.Observe sample (fs_detector_ rt))
       (wrap64 (samples_total_ rt + 1)) rt,
     if ch_sink_ rt
     then [ {| row_sample := sample; row_stack := stack;
               row_norm_cost := raw_norm (aggregator_ rt) sample |} ]
     else []).
Proof.
  intros Hok. unfold EmitReadySample.
  destruct (target_manager_ rt) as [tm|]; [by rewrite Hok|done].
Qed.

Lemma wrap64_bounds z : 0 <= wrap64 z < 2 ^ 64.
Proof. unfold wrap64. apply Z.mod_pos_bound. lia. Qed.

(** The calls of a run come after those made before it. *)
Lemma emit_all_from ready : forall rt before,
  foldl (fun acc b =>
           let '(rt, enqueued) :=
             EmitReadySample (SkewAdjuster.sample b) (SkewAdjuster.stack b) acc.1 in
           (rt, acc.2 ++ enqueued))
        (rt, before) ready
  = ((emit_all ready rt).1, before ++ (emit_all ready rt).2).
Proof.
  unfold emit_all.
  induction ready as [|b rest IH]; intros rt before; cbn [foldl fst snd].
  - by rewrite app_nil_r.
  - destruct (EmitReadySample (SkewAdjuster.sample b) (SkewAdjuster.stack b) rt)
      as [rt1 rows]. cbn [app].
    rewrite (IH rt1 (before ++ rows)), (IH rt1 rows). cbn [fst snd].
    by rewrite app_assoc.
Qed.

Lemma emit_all_cons b rest rt :
  emit_all (b :: rest) rt
  = let '(rt1, rows) :=
      EmitReadySample (SkewAdjuster.sample b) (SkewAdjuster.stack b) rt in
    ((emit_all rest rt1).1, rows ++ (emit_all rest rt1).2).
Proof.
  unfold emit_all at 1. cbn [foldl fst snd].
  destruct (EmitReadySample (SkewAdjuster.sample b) (SkewAdjuster.stack b) rt)
    as [rt1 rows]. cbn [app].
  apply emit_all_from.
Qed.

Lemma emit_all_spec ready : forall rt agg0,
  (forall sample, Aggregator.sample_weight (aggregator_ rt) sample
                  = Aggregator.sample_weight agg0 sample) ->
  0 <= samples_total_ rt < 2 ^ 64 ->
  let rt' := (emit_all ready rt).1 in
  let taken := accepted (target_manager_ rt) ready in
  aggregator_ rt' = Aggregator.add_all (pair_of <$> taken) (aggregator_ rt)
  /\ fs_detector_ rt'
     = FalseSharingRuns.observe_all (SkewAdjuster.sample <$> taken) (fs_detector_ rt)
  /\ remote_dram_analyzer_ rt'
     = option_map (RemoteDramAnalyzer.observe_all (SkewAdjuster.sample <$> taken))
                  (remote_dram_analyzer_ rt)
  /\ (emit_all ready rt).2 = (if ch_sink_ rt then row_of agg0 <$> taken else [])
  /\ samples_total_ rt' = wrap64 (samples_total_ rt + Z.of_nat (length taken)).
Proof.
  induction ready as [|b rest IH]; intros rt agg0 Hscale Htotal.
  - cbn. rewrite Z.add_0_r, wrap64_small by done. repeat split; try done.
    + by destruct (remote_dram_analyzer_ rt).
    + by destruct (ch_sink_ rt).
  - rewrite emit_all_cons, accepted_cons.
    destruct (match target_manager_ rt with
              | Some tm => MonitoringTargetManager.Allow (SkewAdjuster.sample b) tm
              | None => true
              end) eqn:Hok.
    + rewrite EmitReadySample_accepted by done.
      set (rt1 := with_sample_path _ _ _ _ rt).
      destruct (IH rt1 agg0) as (H1 & H2 & H3 & H4 & H5).
      { intros sample. subst rt1. cbn [aggregator_ with_sample_path].
        unfold Aggregator.sample_weight. rewrite AddSample_scale. apply Hscale. }
      { subst rt1. cbn [samples_total_ with_sample_path]. apply wrap64_bounds. }
      cbn zeta in *. cbn [fst snd].
      change (target_manager_ rt1) with (target_manager_ rt) in *.
      change (ch_sink_ rt1) with (ch_sink_ rt) in *.
      rewrite H1, H2, H3, H4, H5. subst rt1.
      cbn [aggregator_ fs_detector_ remote_dram_analyzer_ samples_total_
           with_sample_path].
      rewrite !fmap_cons. cbn [length].
      repeat split.
      * by destruct (remote_dram_analyzer_ rt).
      * destruct (ch_sink_ rt); [|done]. cbn [app]. f_equal.
        unfold row_of. f_equal. apply Hscale.
      * unfold wrap64. rewrite Zplus_mod_idemp_l. f_equal. lia.
    + destruct (target_manager_ rt) as [tm|] eqn:Htm; [|done].
      rewrite (EmitReadySample_rejected _ _ rt tm) by done.
      cbn [app]. rewrite <- Htm. by apply IH.
Qed.

(** X24.  Only accepted samples reach the analyzers.  Emitting a list of
    ready bundles feeds the aggregator, the false-sharing detector and the
    remote-DRAM analyzer exactly the bundles the target filter accepts, in
    order; [EnqueueRawSample] is called once per accepted bundle, in the
    same order, with a normalised cost equal to the weight the aggregator
    adds for that bundle, and for no other sample; and the sample counter
    grows by the number of accepted bundles. *)
Theorem X24_only_accepted_samples_reach_the_analyzers
        (rt : AgentRuntime.t) (ready : list SkewAdjuster.Bundle) :
  0 <= samples_total_ rt < 2 ^ 64 ->
  let rt' := (emit_all ready rt).1 in
  let taken := accepted (target_manager_ rt) ready in
  aggregator_ rt' = Aggregator.add_all (pair_of <$> taken) (aggregator_ rt)
  /\ fs_detector_ rt'
     = FalseSharingRuns.observe_all (SkewAdjuster.sample <$> taken) (fs_detector_ rt)
  /\ remote_dram_analyzer_ rt'
     = option_map (RemoteDramAnalyzer.observe_all (SkewAdjuster.sample <$> taken))
                  (remote_dram_analyzer_ rt)
  /\ (emit_all ready rt).2
     = (if ch_sink_ rt then row_of (aggregator_ rt) <$> taken else [])
  /\ samples_total_ rt' = wrap64 (samples_total_ rt + Z.of_nat (length taken)).
Proof. intros Htotal. by apply emit_all_spec. Qed.

Lemma X24_only_accepted_samples_reach_the_analyzers_witness :
  let rt := make plain_symbolizer default_config in
  let ready := [SkewAdjuster.bundle_at 0 100 7; SkewAdjuster.bundle_at 0 120 0] in
  let rt' := (emit_all ready rt).1 in
  let taken := accepted (target_manager_ rt) ready in
  aggregator_ rt' = Aggregator.add_all (pair_of <$> taken) (aggregator_ rt)
  /\ fs_detector_ rt'
     = FalseSharingRuns.observe_all (SkewAdjuster.sample <$> taken) (fs_detector_ rt)
  /\ remote_dram_analyzer_ rt'
     = option_map (RemoteDramAnalyzer.observe_all (SkewAdjuster.sample <$> taken))
                  (remote_dram_analyzer_ rt)
  /\ (emit_all ready rt).2
     = (if ch_sink_ rt then row_of (aggregator_ rt) <$> taken else [])
  /\ samples_total_ rt' = wrap64 (samples_total_ rt + Z.of_nat (length taken)).
Proof.
  intros rt ready.
  apply (X24_only_accepted_samples_reach_the_analyzers rt ready). vm_compute.
  split; congruence.
Defined.

End AgentRuntimeFacts.

(** ** Text escaping *)

Section EscapingFacts.

Import Escaping.

Lemma json_unescape_plain c s :
  c <> backslash -> json_unescape (String c s) = String c (json_unescape s).
Proof.
  intros Hc. destruct s as [|d rest]; [done|].
  cbn [json_unescape]. by destruct (Ascii.eqb_spec c backslash).
Qed.

Lemma json_unescape_escape value : json_unescape (JsonEscape value) = value.
Proof.
  induction value as [|c rest IH]; [done|].
  cbn [JsonEscape].
  destruct (Ascii.eqb_spec c backslash) as [->|Hb]; [cbn; by rewrite IH|].
  destruct (Ascii.eqb_spec c quote) as [->|Hq]; [cbn; by rewrite IH|].
  destruct (Ascii.eqb_spec c newline) as [->|Hn]; [cbn; by rewrite IH|].
  destruct (Ascii.eqb_spec c carriage_return) as [->|Hr]; [cbn; by rewrite IH|].
  destruct (Ascii.eqb_spec c tab) as [->|Ht]; [cbn; by rewrite IH|].
  by rewrite json_unescape_plain, IH.
Qed.

(** X25.  [JsonEscape] loses nothing and leaves no raw delimiter: two
    different strings never escape to the same text, the output contains no
    raw newline, carriage return or tab, and every double quote in it
    follows an escaping backslash. *)
Theorem X25_json_escape_is_lossless (value other : string) :
  (JsonEscape value = JsonEscape other -> value = other)
  /\ occurs newline (JsonEscape value) = false
  /\ occurs carriage_return (JsonEscape value) = false
  /\ occurs tab (JsonEscape value) = false
  /\ quotes_escaped (JsonEscape value) = true.
Proof.
  split.
  { intros He. apply (f_equal json_unescape) in He.
    by rewrite !json_unescape_escape in He. }
  assert (forall c, (c = newline \/ c = carriage_return \/ c = tab) ->
                    occurs c (JsonEscape value) = false) as Hraw.
  { intros c Hc. induction value as [|x rest IH]; [done|].
    cbn [JsonEscape].
    destruct (Ascii.eqb_spec x backslash) as [->|Hb];
      [cbn [occurs]; rewrite IH; by destruct Hc as [->|[->| ->]]|].
    destruct (Ascii.eqb_spec x quote) as [->|Hq];
      [cbn [occurs]; rewrite IH; by destruct Hc as [->|[->| ->]]|].
    destruct (Ascii.eqb_spec x newline) as [->|Hn];
      [cbn [occurs]; rewrite IH; by destruct Hc as [->|[->| ->]]|].
    destruct (Ascii.eqb_spec x carriage_return) as [->|Hr];
      [cbn [occurs]; rewrite IH; by destruct Hc as [->|[->| ->]]|].
    destruct (Ascii.eqb_spec x tab) as [->|Ht];
      [cbn [occurs]; rewrite IH; by destruct Hc as [->|[->| ->]]|].
    cbn [occurs]. rewrite IH, orb_false_r.
    apply Ascii.eqb_neq. destruct Hc as [->|[->| ->]]; congruence. }
  repeat split; try (apply Hraw; tauto).
  clear Hraw. induction value as [|x rest IH]; [done|].
  cbn [JsonEscape].
  destruct (Ascii.eqb_spec x backslash) as [->|Hb]; [exact IH|].
  destruct (Ascii.eqb_spec x quote) as [->|Hq]; [exact IH|].
  destruct (Ascii.eqb_spec x newline) as [->|Hn]; [exact IH|].
  destruct (Ascii.eqb_spec x carriage_return) as [->|Hr]; [exact IH|].
  destruct (Ascii.eqb_spec x tab) as [->|Ht]; [exact IH|].
  cbn [quotes_escaped].
  destruct (Ascii.eqb_spec x quote); [done|].
  destruct (Ascii.eqb_spec x backslash); [done|]. exact IH.
Qed.

Lemma escape_label_clean value :
  quotes_escaped (escape_label value) = true
  /\ forall c, iscntrl c = true -> occurs c (escape_label value) = false.
Proof.
  induction value as [|x rest [IH1 IH2]]; [done|].
  cbn [escape_label]. split.
  - destruct (Ascii.eqb_spec x quote) as [->|Hq]; [exact IH1|].
    destruct (Ascii.eqb_spec x backslash) as [->|Hb]; [exact IH1|].
    cbn [orb]. destruct (iscntrl x); [exact IH1|].
    cbn [quotes_escaped].
    destruct (Ascii.eqb_spec x quote); [done|].
    destruct (Ascii.eqb_spec x backslash); [done|]. exact IH1.
  - intros c Hc.
    assert (occurs c (if iscntrl x then escape_label rest
                      else String x (escape_label rest)) = false) as Hin.
    { destruct (iscntrl x) eqn:Hx; [by apply IH2|].
      cbn [occurs]. rewrite IH2, orb_false_r by done.
      apply Ascii.eqb_neq. intros ->. congruence. }
    destruct (Ascii.eqb x quote || Ascii.eqb x backslash); [|exact Hin].
    cbn [occurs]. rewrite Hin, orb_false_r.
    apply Ascii.eqb_neq. intros ->. by vm_compute in Hc.
Qed.

(** X26.  A Prometheus label value is never empty, contains no control
    character, and every double quote in it follows an escaping
    backslash. *)
Theorem X26_prometheus_label_is_safe (value : string) :
  EscapePromLabel value <> EmptyString
  /\ quotes_escaped (EscapePromLabel value) = true
  /\ forall c, iscntrl c = true -> occurs c (EscapePromLabel value) = false.
Proof.
  destruct (escape_label_clean value) as [H1 H2]. unfold EscapePromLabel.
  destruct (escape_label value) as [|c out] eqn:He.
  - split; [done|]. split; [done|]. intros c Hc.
    destruct c as [[] [] [] [] [] [] [] []]; try discriminate Hc; reflexivity.
  - split; [done|]. split; [exact H1|]. exact H2.
Qed.

End EscapingFacts.

(** ** Ring sizing and budget requests *)

Section PerfConsumerFacts.

Import PerfConsumer.

Lemma shift_pow2 k : 0 <= k < 63 -> wrap64 (Z.shiftl (2 ^ k) 1) = 2 ^ (k + 1).
Proof.
  intros Hk. rewrite Z.shiftl_mul_pow2 by lia. rewrite <- Z.pow_add_r by lia.
  apply wrap64_small. split; [apply Z.pow_nonneg; lia|].
  apply Z.pow_lt_mono_r; lia.
Qed.

Lemma normalize_loop_pow2 fuel : forall k pages,
  0 <= k <= 63 -> (Z.to_nat (63 - k) <= fuel)%nat ->
  pages <= 2 ^ 63 ->
  (k = 0 \/ 2 ^ (k - 1) < pages) ->
  exists j, k <= j <= 63
            /\ normalize_loop fuel (2 ^ k) pages = Some (2 ^ j)
            /\ pages <= 2 ^ j
            /\ (j = 0 \/ 2 ^ (j - 1) < pages).
Proof.
  induction fuel as [|fuel IH]; intros k pages Hk Hfuel Hpages Hleast.
  - assert (k = 63) as -> by lia. exists 63. cbn [normalize_loop].
    destruct (Z.ltb_spec (2 ^ 63) pages); [lia|]. repeat split; try done; lia.
  - cbn [normalize_loop]. destruct (Z.ltb_spec (2 ^ k) pages) as [Hlt|Hge].
    + assert (k < 63) as Hk63.
      { destruct (Z.eq_dec k 63) as [->|]; [lia|lia]. }
      rewrite shift_pow2 by lia.
      destruct (IH (k + 1) pages) as (j & Hj & Hrun & Hle & Hmin); try lia.
      { right. by replace (k + 1 - 1) with k by lia. }
      exists j. repeat split; try done; lia.
    + exists k. repeat split; try done; lia.
Qed.

Lemma normalize_loop_zero fuel pages : 0 < pages -> normalize_loop fuel 0 pages = None.
Proof.
  intros Hp. induction fuel as [|fuel IH]; cbn [normalize_loop];
    destruct (Z.ltb_spec 0 pages); try lia; [done|exact IH].
Qed.

Lemma normalize_loop_diverges fuel : forall k pages,
  0 <= k <= 63 -> 2 ^ 63 < pages -> normalize_loop fuel (2 ^ k) pages = None.
Proof.
  induction fuel as [|fuel IH]; intros k pages Hk Hpages;
    assert (2 ^ k <= 2 ^ 63) by (apply Z.pow_le_mono_r; lia);
    cbn [normalize_loop]; destruct (Z.ltb_spec (2 ^ k) pages); try lia; [done|].
  destruct (Z.eq_dec k 63) as [->|Hne].
  - replace (wrap64 (Z.shiftl (2 ^ 63) 1)) with 0 by (by vm_compute).
    apply normalize_loop_zero. lia.
  - rewrite shift_pow2 by lia. apply IH; lia.
Qed.

(** X27.  The ring size is rounded up to a power of two.  For a request
    of at most 2^63 pages (0 meaning the default of 8) the loop ends, with
    the smallest power of two that is at least the request, given 63
    iterations or more; for a larger request the loop never ends. *)
Theorem X27_ring_pages_round_up_to_a_power_of_two (pages : Z) :
  let wanted := if pages =? 0 then kDefaultRingPages else pages in
  (0 <= pages <= 2 ^ 63 ->
   exists j, 0 <= j <= 63
             /\ (forall fuel, (63 <= fuel)%nat -> NormalizeRingPages fuel pages = Some (2 ^ j))
             /\ wanted <= 2 ^ j
             /\ (j = 0 \/ 2 ^ (j - 1) < wanted))
  /\ (2 ^ 63 < pages -> forall fuel, NormalizeRingPages fuel pages = None).
Proof.
  intros wanted. split.
  - intros Hp.
    assert (wanted <= 2 ^ 63) as Hw.
    { subst wanted. destruct (pages =? 0); [by vm_compute|lia]. }
    destruct (normalize_loop_pow2 63 0 wanted) as (j & Hj & Hrun & Hle & Hmin);
      [lia|done|done|by left|].
    exists j. repeat split; try done; try lia.
    intros fuel Hfuel. unfold NormalizeRingPages. fold wanted.
    destruct (normalize_loop_pow2 fuel 0 wanted) as (j' & Hj' & Hrun' & Hle' & Hmin');
      [lia|cbn; lia|done|by left|].
    change (normalize_loop fuel 1 wanted) with (normalize_loop fuel (2 ^ 0) wanted).
    rewrite Hrun'. do 2 f_equal.
    destruct (Z.lt_trichotomy j j') as [Hlt|[->|Hgt]]; [|done|].
    + destruct Hmin' as [->|Hmin']; [lia|].
      assert (2 ^ j <= 2 ^ (j' - 1)) by (apply Z.pow_le_mono_r; lia). lia.
    + destruct Hmin as [->|Hmin]; [lia|].
      assert (2 ^ j' <= 2 ^ (j - 1)) by (apply Z.pow_le_mono_r; lia). lia.
  - intros Hp fuel. unfold NormalizeRingPages.
    destruct (Z.eqb_spec pages 0); [lia|].
    change (normalize_loop fuel 1 pages) with (normalize_loop fuel (2 ^ 0) pages).
    by apply normalize_loop_diverges.
Qed.

End PerfConsumerFacts.

Section ControlPlaneFacts.

Import ControlPlane BucketUpdate.

Variable ExtractJsonUint : string -> option Z.

Lemma positive_spec key v :
  positive ExtractJsonUint key = Some v -> ExtractJsonUint key = Some v /\ 0 < v.
Proof.
  unfold positive. destruct (ExtractJsonUint key) as [w|]; [|done].
  destruct (Z.gtb_spec w 0); [|done]. intros [= ->]. done.
Qed.

Lemma positive_None key :
  positive ExtractJsonUint key = None ->
  forall v, ExtractJsonUint key = Some v -> v <= 0.
Proof.
  unfold positive. intros Hp v He. rewrite He in Hp.
  destruct (Z.gtb_spec v 0); [done|lia].
Qed.

(** X28.  What the control plane forwards of a budget request, for a body
    whose numbers are unsigned.  A forwarded request always takes effect:
    it flags at least one field and every flagged field carries a positive
    value, which the update stores.  Each of the three specific keys that
    yields a positive value is forwarded with that value, and wins over the
    legacy key; the diagnostic budget and the hard-drop threshold come from
    nowhere else; the legacy key [samples_per_sec] supplies the sentinel
    budget only when none of the three specific keys yields a positive
    value.  Nothing is forwarded exactly when none of the four keys yields a
    positive value, or when no budget callback is installed. *)
Theorem X28_forwarded_budget_request_is_effective :
  (forall key v, ExtractJsonUint key = Some v -> 0 <= v) ->
  let specific := ["sentinel_samples_per_sec"; "diagnostic_samples_per_sec";
                   "hard_drop_ns"]%string in
  let unset key := forall v, ExtractJsonUint key = Some v -> v = 0 in
  (forall req, HandleBudgetRequest ExtractJsonUint true = Some req ->
     sentinel_changed req || diagnostic_changed req || drop_changed req = true
     /\ sentinel_changed req = has_sentinel req
     /\ diagnostic_changed req = has_diagnostic req
     /\ drop_changed req = has_hard_drop req
     /\ (forall mode state, has_sentinel req = true ->
         sentinel_budget (ApplyBucketUpdate req mode state).2 = req_sentinel_budget req)
     /\ (forall mode state, has_diagnostic req = true ->
         diagnostic_budget (ApplyBucketUpdate req mode state).2
         = req_diagnostic_budget req)
     /\ (forall mode state, has_hard_drop req = true ->
         hard_drop_ns (ApplyBucketUpdate req mode state).2 = req_hard_drop_ns req)
     /\ (forall v, ExtractJsonUint "sentinel_samples_per_sec" = Some v -> 0 < v ->
         has_sentinel req = true /\ req_sentinel_budget req = v)
     /\ (forall v, ExtractJsonUint "diagnostic_samples_per_sec" = Some v -> 0 < v ->
         has_diagnostic req = true /\ req_diagnostic_budget req = v)
     /\ (forall v, ExtractJsonUint "hard_drop_ns" = Some v -> 0 < v ->
         has_hard_drop req = true /\ req_hard_drop_ns req = v)
     /\ (has_diagnostic req = true ->
         ExtractJsonUint "diagnostic_samples_per_sec" = Some (req_diagnostic_budget req))
     /\ (has_hard_drop req = true ->
         ExtractJsonUint "hard_drop_ns" = Some (req_hard_drop_ns req))
     /\ (has_sentinel req = true ->
         ExtractJsonUint "sentinel_samples_per_sec" = Some (req_sentinel_budget req)
         \/ ((forall key, key ∈ specific -> unset key)
             /\ ExtractJsonUint "samples_per_sec" = Some (req_sentinel_budget req))))
  /\ (HandleBudgetRequest ExtractJsonUint true = None
      <-> forall key, key ∈ "samples_per_sec"%string :: specific -> unset key)
  /\ HandleBudgetRequest ExtractJsonUint false = None.
Proof.
  intros Hnonneg specific unset.
  assert (forall key, positive ExtractJsonUint key = None -> unset key) as Hunset.
  { intros key Hp v He. pose proof (positive_None key Hp v He).
    pose proof (Hnonneg key v He). lia. }
  assert (forall key v, positive ExtractJsonUint key = Some v -> ~ unset key) as Hset.
  { intros key v [He Hv]%positive_spec Hu. specialize (Hu v He). lia. }
  assert (forall key v w, positive ExtractJsonUint key = Some v ->
            ExtractJsonUint key = Some w -> w = v) as Hsame.
  { intros key v w [He _]%positive_spec Hw. congruence. }
  assert (forall key w, positive ExtractJsonUint key = None ->
            ExtractJsonUint key = Some w -> 0 < w -> False) as Hnone.
  { intros key w Hp Hw Hpos. pose proof (positive_None key Hp w Hw). lia. }
  split; [|split; [|reflexivity]].
  - intros req. unfold HandleBudgetRequest. cbn [negb].
    destruct (positive ExtractJsonUint "sentinel_samples_per_sec") as [s|] eqn:Hs;
    destruct (positive ExtractJsonUint "diagnostic_samples_per_sec") as [d|] eqn:Hd;
    destruct (positive ExtractJsonUint "hard_drop_ns") as [h|] eqn:Hh;
    cbn.
    1-7: intros [= <-].
    8: destruct (ExtractJsonUint "samples_per_sec") as [legacy|] eqn:Hl; [|done];
       destruct (Z.eqb_spec legacy 0); [done|]; intros [= <-];
       pose proof (Hnonneg _ _ Hl).
    all: try (pose proof (proj2 (positive_spec _ _ Hs)));
         try (pose proof (proj2 (positive_spec _ _ Hd)));
         try (pose proof (proj2 (positive_spec _ _ Hh))).
    all: unfold sentinel_changed, diagnostic_changed, drop_changed, ApplyBucketUpdate;
         cbn;
         repeat match goal with
                | |- context [?a >? 0] => destruct (Z.gtb_spec a 0); try lia
                end; cbn.
    all: repeat match goal with |- _ /\ _ => split end; try done.
    all: try (intros v Hv Hpos; first
                [ exfalso; refine (Hnone _ v _ Hv Hpos); assumption
                | split; [reflexivity|]; symmetry; eapply Hsame; eassumption ]).
    all: try (intros _; eapply positive_spec; eassumption).
    all: try (intros _; left; eapply positive_spec; eassumption).
    intros _. right. split; [|reflexivity].
    intros key Hkey. apply Hunset.
    repeat (apply elem_of_cons in Hkey as [->|Hkey]; [assumption|]).
    by apply elem_of_nil in Hkey.
  - unfold HandleBudgetRequest. cbn [negb].
    destruct (positive ExtractJsonUint "sentinel_samples_per_sec") as [s|] eqn:Hs;
    destruct (positive ExtractJsonUint "diagnostic_samples_per_sec") as [d|] eqn:Hd;
    destruct (positive ExtractJsonUint "hard_drop_ns") as [h|] eqn:Hh;
    cbn.
    1-7: split; [done|]; intros Hall; exfalso.
    1-4: eapply (Hset _ _ Hs), Hall; subst specific; set_solver.
    1-2: eapply (Hset _ _ Hd), Hall; subst specific; set_solver.
    1: eapply (Hset _ _ Hh), Hall; subst specific; set_solver.
    destruct (ExtractJsonUint "samples_per_sec") as [legacy|] eqn:Hl.
    + destruct (Z.eqb_spec legacy 0) as [Hz|Hne].
      * split; [|done]. intros _ key Hkey.
        apply elem_of_cons in Hkey as [->|Hkey].
        { intros v Hv. congruence. }
        apply Hunset.
        repeat (apply elem_of_cons in Hkey as [->|Hkey]; [assumption|]).
        by apply elem_of_nil in Hkey.
      * split; [done|]. intros Hall. exfalso. apply Hne.
        apply (Hall "samples_per_sec"%string); [left|exact Hl].
    + split; [|done]. intros _ key Hkey.
      apply elem_of_cons in Hkey as [->|Hkey].
      { intros v Hv. congruence. }
      apply Hunset.
      repeat (apply elem_of_cons in Hkey as [->|Hkey]; [assumption|]).
      by apply elem_of_nil in Hkey.
Qed.

End ControlPlaneFacts.

Section ControlPlaneExamples.

Import ControlPlane BucketUpdate.

(** X28 on a body that carries both a positive specific key and the legacy
    key: the specific key is forwarded and stored. *)
Lemma X28_forwarded_budget_request_is_effective_witness :
  let extract := body_of [("sentinel_samples_per_sec"%string, 5);
                          ("samples_per_sec"%string, 7000)] in
  (forall key v, extract key = Some v -> 0 <= v)
  /\ HandleBudgetRequest extract true = Some (sentinel_request 5)
  /\ sentinel_budget (ApplyBucketUpdate (sentinel_request 5) Sentinel test_state).2 = 5.
Proof.
  intros extract.
  assert (forall key v, extract key = Some v -> 0 <= v) as Hnonneg.
  { intros key v. subst extract. unfold body_of. cbn [List.find fst snd].
    destruct (String.eqb _ key); [intros [= <-]; lia|].
    destruct (String.eqb _ key); [intros [= <-]; lia|done]. }
  split; [exact Hnonneg|]. split; [reflexivity|].
  destruct (X28_forwarded_budget_request_is_effective extract Hnonneg) as [Hfwd _].
  destruct (Hfwd (sentinel_request 5) eq_refl) as (_ & _ & _ & _ & Hs & _).
  exact (Hs Sentinel test_state eq_refl).
Defined.

End ControlPlaneExamples.

(** ** Time calibrator: snapshot *)

Section TscSnapshotFacts.

Import TscCalibrator TscCalibratorRuns TscCalibratorSnapshot.

Lemma Normalize_initialized ref_ns cpu raw_tsc c :
  0 <= cpu -> enabled (cfg_ c) = true ->
  initialized (model_of cpu (Normalize ref_ns cpu raw_tsc c).2) = true.
Proof.
  intros Hc Hen. unfold Normalize. rewrite Hen. cbn [negb].
  fold (model_of cpu c).
  destruct (initialized (model_of cpu c)) eqn:Hi; cbn [negb].
  - destruct (passthrough_steady_ns (model_of cpu c)).
    + cbn [snd]. unfold model_of at 1. cbn [models_]. rewrite EnsureModel_idem by done.
      exact Hi.
    + destruct (affine_step _ _ _ _ _) as [m' n] eqn:Ha. cbn [snd].
      unfold model_of. cbn [models_]. rewrite EnsureModel_insert by done. cbn.
      unfold affine_step in Ha. by injection Ha as <- _.
  - destruct (looks_steady ref_ns raw_tsc); cbn [snd]; unfold model_of; cbn [models_];
      by rewrite EnsureModel_insert.
Qed.

Lemma Normalize_keeps_initialized ref_ns cpu raw_tsc c other :
  0 <= cpu -> 0 <= other ->
  initialized (model_of other c) = true ->
  initialized (model_of other (Normalize ref_ns cpu raw_tsc c).2) = true.
Proof.
  intros Hc Ho Hi. destruct (Z.eq_dec other cpu) as [->|Hne].
  - destruct (enabled (cfg_ c)) eqn:Hen; [by apply Normalize_initialized|].
    unfold Normalize. by rewrite Hen.
  - by rewrite Normalize_other_model.
Qed.

Lemma Normalize_cfg ref_ns cpu raw_tsc c :
  cfg_ (Normalize ref_ns cpu raw_tsc c).2 = cfg_ c.
Proof.
  unfold Normalize. destruct (enabled (cfg_ c)); cbn [negb]; [|done].
  destruct (initialized _); cbn [negb].
  - destruct (passthrough_steady_ns _); [done|]. by destruct (affine_step _ _ _ _ _).
  - by destruct (looks_steady ref_ns raw_tsc).
Qed.

Lemma Normalize_length ref_ns cpu raw_tsc c bound :
  0 <= cpu < bound -> Z.of_nat (length (models_ c)) <= bound ->
  Z.of_nat (length (models_ (Normalize ref_ns cpu raw_tsc c).2)) <= bound.
Proof.
  intros Hc Hlen.
  assert (Z.of_nat (length (EnsureModel cpu (models_ c))) <= bound) as He.
  { unfold EnsureModel. destruct (Z.geb_spec cpu (Z.of_nat (length (models_ c)))); [|done].
    rewrite length_resize. lia. }
  destruct (Normalize_models ref_ns cpu raw_tsc c) as [->| [->| [m ->]]];
    [done|done|by rewrite length_insert].
Qed.

(** Which models are initialised after a run. *)
Lemma normalize_all_initialized calls : forall c cpu,
  0 <= cpu -> enabled (cfg_ c) = true ->
  Forall (fun k => 0 <= call_cpu k) calls ->
  initialized (model_of cpu (normalize_all calls c)) = true
  <-> initialized (model_of cpu c) = true \/ Exists (fun k => call_cpu k = cpu) calls.
Proof.
  induction calls as [|k rest IH]; intros c cpu Hc Hen Hcalls.
  - cbn. rewrite Exists_nil. tauto.
  - apply Forall_cons in Hcalls as [Hk Hrest]. cbn [normalize_all foldl].
    unfold normalize_all in IH. rewrite IH; [|done|by rewrite Normalize_cfg|done].
    rewrite Exists_cons. split.
    + intros [Hi|He]; [|tauto].
      destruct (Z.eq_dec (call_cpu k) cpu) as [|Hne]; [tauto|].
      rewrite Normalize_other_model in Hi by (done || congruence). tauto.
    + intros [Hi|[<-|He]]; [left|left|tauto].
      * by apply Normalize_keeps_initialized.
      * by apply Normalize_initialized.
Qed.

Lemma normalize_all_length calls : forall c bound,
  Forall (fun k => 0 <= call_cpu k < bound) calls ->
  Z.of_nat (length (models_ c)) <= bound ->
  Z.of_nat (length (models_ (normalize_all calls c))) <= bound.
Proof.
  induction calls as [|k rest IH]; intros c bound Hcalls Hlen; [done|].
  apply Forall_cons in Hcalls as [Hk Hrest]. cbn [normalize_all foldl].
  apply IH; [done|]. by apply Normalize_length.
Qed.

Lemma Snapshot_elem (c : TscCalibrator.t) l e :
  Snapshot true c = Some l ->
  e ∈ l <-> exists i m, models_ c !! i = Some m /\ initialized m = true
                        /\ e = {| entry_cpu := Z.of_nat i; entry_slope := slope m;
                                  entry_offset_ns := offset m |}.
Proof.
  unfold Snapshot. cbn [negb]. destruct (_ <=? _); [done|]. intros [= <-].
  rewrite list_elem_of_omap. split.
  - intros ([i m] & Hin & Hr). apply list_elem_of_lookup in Hin as [j Hj].
    apply list_lookup_imap_Some in Hj as (m' & Hm & Heq). injection Heq as -> ->.
    cbn [fst snd] in Hr. unfold report in Hr.
    destruct (initialized m') eqn:Hi; [|done]. injection Hr as <-. by exists j, m'.
  - intros (i & m & Hm & Hi & ->). exists (i, m). split.
    + apply list_elem_of_lookup. exists i. apply list_lookup_imap_Some. by exists m.
    + cbn [fst snd]. unfold report. by rewrite Hi.
Qed.

(** X29.  [Snapshot] reports the CPUs seen.  For an enabled calibrator
    fed from its initial state (CPU numbers below 2^32 - 1), [Snapshot]
    returns, and it reports a CPU exactly when [Normalize] has been called
    for it, each with the slope and offset its model holds. *)
Theorem X29_snapshot_reports_the_cpus_seen
        (cfg : TscCalibrationConfig) (calls : list call) :
  enabled cfg = true ->
  Forall (fun k => 0 <= call_cpu k < 4294967295) calls ->
  exists l,
    Snapshot true (normalize_all calls (make cfg)) = Some l
    /\ (forall cpu, 0 <= cpu ->
          (exists e, e ∈ l /\ entry_cpu e = cpu)
          <-> Exists (fun k => call_cpu k = cpu) calls)
    /\ (forall e, e ∈ l ->
          entry_slope e = slope (model_of (entry_cpu e) (normalize_all calls (make cfg)))
          /\ entry_offset_ns e
             = offset (model_of (entry_cpu e) (normalize_all calls (make cfg)))).
Proof.
  intros Hen Hcalls.
  set (c := normalize_all calls (make cfg)).
  assert (Z.of_nat (length (models_ c)) <= 4294967295) as Hlen
    by (apply normalize_all_length; [done|cbn; lia]).
  assert (exists l, Snapshot true c = Some l) as [l Hl].
  { unfold Snapshot. cbn [negb]. destruct (Z.leb_spec 4294967296 (Z.of_nat (length (models_ c))));
      [lia|by eexists]. }
  exists l. split; [exact Hl|]. split.
  - intros cpu Hc.
    pose proof (normalize_all_initialized calls (make cfg) cpu Hc Hen) as Hinit.
    fold c in Hinit. rewrite !model_of_lookup in Hinit. cbn [make models_] in Hinit.
    rewrite lookup_nil in Hinit. cbn in Hinit.
    rewrite <- (or_False (Exists _ calls)), (or_comm _ False).
    assert (False <-> false = true) as -> by (split; [done|discriminate]).
    rewrite <- Hinit by (eapply Forall_impl; [exact Hcalls|]; intros k Hk; apply Hk).
    split.
    + intros (e & He & <-). apply (Snapshot_elem c l e Hl) in He as (i & m & Hm & Hi & ->).
      cbn [entry_cpu]. by rewrite Nat2Z.id, Hm.
    + intros Hi. destruct (models_ c !! Z.to_nat cpu) as [m|] eqn:Hm; [|done].
      cbn in Hi. eexists. split.
      * apply (Snapshot_elem c l _ Hl). by exists (Z.to_nat cpu), m.
      * cbn [entry_cpu]. lia.
  - intros e He. apply (Snapshot_elem c l e Hl) in He as (i & m & Hm & Hi & ->).
    cbn [entry_cpu entry_slope entry_offset_ns].
    by rewrite model_of_lookup, Nat2Z.id, Hm.
Qed.

Lemma X29_snapshot_reports_the_cpus_seen_witness :
  let calls := [ {| call_ref_ns := 1000000000; call_cpu := 2; call_raw_tsc := 1000 |};
                 {| call_ref_ns := 1000000500; call_cpu := 0; call_raw_tsc := 77 |} ] in
  exists l,
    Snapshot true (normalize_all calls (make default_config)) = Some l
    /\ (forall cpu, 0 <= cpu ->
          (exists e, e ∈ l /\ entry_cpu e = cpu)
          <-> Exists (fun k => call_cpu k = cpu) calls)
    /\ (forall e, e ∈ l ->
          entry_slope e
          = slope (model_of (entry_cpu e) (normalize_all calls (make default_config)))
          /\ entry_offset_ns e
             = offset (model_of (entry_cpu e) (normalize_all calls (make default_config)))).
Proof.
  intros calls.
  apply (X29_snapshot_reports_the_cpus_seen default_config calls); [reflexivity|].
  repeat constructor; vm_compute; congruence.
Defined.

End TscSnapshotFacts.

(** ** False-sharing detector: cache lines *)

Section CacheLineFacts.

Import FalseSharingDetector.





End CacheLineFacts.
